(** * JacManager: the walker loading chain and the execution dispatch

    A shallow embedding of [backend/jac_layer/jac_manager.py]: the
    [JacManager] class with its four loading strategies
    ([_initialize_walkers]), the lookup helpers, [execute_walker],
    [reload_walkers] and [health_check].

    Python objects live in a heap and are named by references, so that "the
    same object" is "the same reference".  The interpreter services the
    class relies on (the import machinery, the file system, [exec],
    [importlib.reload]) are passed as an environment of oracles; what the
    class itself does with their answers is written out in a state and
    exception monad. *)

From Stdlib Require Import String Ascii List Bool ZArith Arith Lia.
Import ListNotations.
Open Scope string_scope.

Set Implicit Arguments.
Set Warnings "-register-all".

(** ** Python values, exceptions and callables *)

(** The values that travel through the dispatcher: parameters, results of
    walker functions and the result envelopes. *)
Inductive pyval : Type :=
| PNone
| PBool (b : bool)
| PInt (z : Z)
| PStr (s : string)
| PList (l : list pyval)
| PDict (d : list (pyval * pyval)).

(** Exception classes.  [ModuleNotFoundError] derives from [ImportError].
    [SystemExit], [KeyboardInterrupt] and [GeneratorExit] derive from
    [BaseException] only, as does a class [OtherBaseException]; every other
    class here derives from [Exception]. *)
Inductive exn_class : Type :=
| ImportError
| ModuleNotFoundError
| ValueError
| TypeError
| AttributeError
| NameError
| SyntaxError
| OSError
| OtherException (cls : string)
| SystemExit
| KeyboardInterrupt
| GeneratorExit
| OtherBaseException (cls : string).

(** An exception instance: its class and [str(e)]. *)
Record exn : Type := mkExn { exn_cls : exn_class; str : string }.

Definition isinstance_ImportError (e : exn) : bool :=
  match exn_cls e with
  | ImportError | ModuleNotFoundError => true
  | _ => false
  end.

(** The class test of [except Exception]. *)
Definition isinstance_Exception (e : exn) : bool :=
  match exn_cls e with
  | SystemExit | KeyboardInterrupt | GeneratorExit | OtherBaseException _ =>
      false
  | _ => true
  end.

Inductive outcome (A : Type) : Type :=
| Ok (a : A)
| Raise (e : exn).
Arguments Ok {A} a.
Arguments Raise {A} e.

(** A callable attribute.  [Native f] is a function defined by a walker
    module: called with keyword arguments it returns a value or raises.
    [FallbackMethod fr] is the closure [fallback_method] created by strategy
    4 during the run of [_initialize_walkers] whose frame is [fr]: its free
    variables [name] and [method_name] are the cells of that frame. *)
Inductive callable : Type :=
| Native (f : list (string * pyval) -> outcome pyval)
| FallbackMethod (fr : nat).

Inductive attr : Type :=
| ACallable (c : callable)
| AData (v : pyval).

Inductive obj_class : Type :=
| PyModule            (* types.ModuleType, made by the import machinery *)
| WalkerModule        (* the class of strategy 3 *)
| DummyWalkerModule.  (* the class of strategy 4 *)

(** An object: its class and its instance dictionary, in binding order. *)
Record object : Type := mkObject {
  obj_cls : obj_class;
  obj_dict : list (string * attr)
}.

Definition ref := nat.

(** The cells of one run of [_initialize_walkers] that nested functions
    close over; [None] is an unbound cell. *)
Record frame : Type := mkFrame {
  cell_name : option string;
  cell_method_name : option string
}.

(** ** What is logged

    One constructor per [logger] call of the source, carrying the values
    interpolated in the message. *)
Inductive log_record : Type :=
| LoadedModule (name : string)
    (* info: Successfully loaded Jac module: {name} *)
| Strategy1Failed (name : string) (e : exn)
    (* warning: Strategy 1 failed for {name}: {e} *)
| LoadedStrategy2 (name : string)
    (* info: Successfully loaded {name} using Strategy 2 ... *)
| Strategy2Failed (name : string) (e : exn)
    (* warning: Strategy 2 failed for {name}: {e2} *)
| LoadedStrategy3 (name : string)
    (* info: Successfully loaded {name} using Strategy 3 ... *)
| Strategy3Failed (name : string) (e : exn)
    (* error: Strategy 3 failed for {name}: {e3} *)
| CreatingDummy (name : string)
    (* warning: Creating dummy module for {name} as fallback *)
| CreatedDummy (name : string)
    (* info: Created dummy module for {name} with fallback methods *)
| UnexpectedError (name : string) (e : exn)
    (* error: Unexpected error initializing {name}: {e} *)
| Executing (walker_name : string) (parameters : list (pyval * pyval))
    (* info: Executing walker '{walker_name}' with parameters: ... *)
| UsingFallbackFunction (function_name walker_name : string)
    (* info: Using fallback function '{function_name}' for walker ... *)
| Completed (walker_name : string)
    (* info: Walker '{walker_name}' completed successfully. *)
| ErrorExecuting (walker_name : string) (msg : string)
    (* error: Error executing walker '{walker_name}': {str(e)} *)
| Traceback (e : exn)
    (* traceback.print_exc(), on stderr *)
| ReloadFailed (e : exn)
    (* error: Reload failed: {e} *)
| HealthCount (loaded_count total_count : nat)
    (* info: Health check: {loaded_count}/{total_count} walkers loaded *)
| HealthLoaded (name : string)
    (* info: {name} - Loaded *)
| HealthNotLoaded (name : string)
    (* warning: {name} - Not loaded *)
| HealthNone.
    (* warning: Health check: No walkers loaded *)

(** ** The state *)

Record State : Type := mkState {
  modules : list (string * ref);       (* self.modules, in insertion order *)
  heap : list object;                  (* the objects, by reference *)
  frames : list frame;                 (* closure cells, by run *)
  sys_path : list string;              (* sys.path *)
  sys_modules : list (string * ref);   (* sys.modules *)
  log : list log_record                (* oldest first *)
}.

Definition with_modules (m : list (string * ref)) (s : State) : State :=
  mkState m (heap s) (frames s) (sys_path s) (sys_modules s) (log s).
Definition with_heap (h : list object) (s : State) : State :=
  mkState (modules s) h (frames s) (sys_path s) (sys_modules s) (log s).
Definition with_frames (f : list frame) (s : State) : State :=
  mkState (modules s) (heap s) f (sys_path s) (sys_modules s) (log s).
Definition with_sys_path (p : list string) (s : State) : State :=
  mkState (modules s) (heap s) (frames s) p (sys_modules s) (log s).
Definition with_sys_modules (m : list (string * ref)) (s : State) : State :=
  mkState (modules s) (heap s) (frames s) (sys_path s) m (log s).
Definition with_log (l : list log_record) (s : State) : State :=
  mkState (modules s) (heap s) (frames s) (sys_path s) (sys_modules s) l.

(** ** The monad: state that survives an exception *)

Definition M (A : Type) : Type := State -> State * outcome A.

Definition ret {A} (a : A) : M A := fun s => (s, Ok a).

Definition raise {A} (e : exn) : M A := fun s => (s, Raise e).

Definition bind {A B} (m : M A) (k : A -> M B) : M B :=
  fun s => match m s with
           | (s', Ok a) => k a s'
           | (s', Raise e) => (s', Raise e)
           end.

Declare Scope py_scope.
Delimit Scope py_scope with py.
Notation "x <- c1 ;; c2" := (bind c1 (fun x => c2))
  (at level 61, c1 at next level, right associativity) : py_scope.
Notation "c1 ;; c2" := (bind c1 (fun _ => c2))
  (at level 61, right associativity) : py_scope.
Open Scope py_scope.

Definition gets {A} (f : State -> A) : M A := fun s => (s, Ok (f s)).

Definition modify (f : State -> State) : M unit := fun s => (f s, Ok tt).

(** [try: body  except C1 as e: h1  except C2 as e: h2 ...].  The first
    clause whose class test accepts the exception runs; an exception raised
    inside a clause is not offered to the other clauses of the same
    statement. *)
Definition handler (A : Type) : Type := ((exn -> bool) * (exn -> M A))%type.

Fixpoint dispatch {A} (hs : list (handler A)) (e : exn) : M A :=
  match hs with
  | [] => raise e
  | (accepts, h) :: hs' => if accepts e then h e else dispatch hs' e
  end.

Definition try_ {A} (body : M A) (hs : list (handler A)) : M A :=
  fun s => match body s with
           | (s', Ok a) => (s', Ok a)
           | (s', Raise e) => dispatch hs e s'
           end.

Fixpoint for_each {A} (l : list A) (body : A -> M unit) : M unit :=
  match l with
  | [] => ret tt
  | x :: l' => body x ;; for_each l' body
  end.

Definition logger (r : log_record) : M unit :=
  modify (fun s => with_log (log s ++ [r]) s).

(** ** Dictionaries keyed by strings, in insertion order *)

Fixpoint dict_get {V} (d : list (string * V)) (k : string) : option V :=
  match d with
  | [] => None
  | (k', v) :: d' => if String.eqb k k' then Some v else dict_get d' k
  end.

(** [d[k] = v]: an existing key keeps its place. *)
Fixpoint dict_set {V} (d : list (string * V)) (k : string) (v : V)
  : list (string * V) :=
  match d with
  | [] => [(k, v)]
  | (k', v') :: d' =>
      if String.eqb k k' then (k, v) :: d' else (k', v') :: dict_set d' k v
  end.

Definition dict_in {V} (k : string) (d : list (string * V)) : bool :=
  match dict_get d k with Some _ => true | None => false end.

Definition dict_get_default {V} (d : list (string * V)) (k : string) (dflt : V)
  : V :=
  match dict_get d k with Some v => v | None => dflt end.

Definition keys {V} (d : list (string * V)) : list string := map fst d.

(** ** Objects *)

Definition alloc (o : object) : M ref :=
  fun s => (with_heap (heap s ++ [o]) s, Ok (length (heap s))).

Fixpoint list_update {A} (l : list A) (i : nat) (f : A -> A) : list A :=
  match l, i with
  | [], _ => []
  | x :: l', O => f x :: l'
  | x :: l', S i' => x :: list_update l' i' f
  end.

Definition setattr_obj (k : string) (a : attr) (o : object) : object :=
  mkObject (obj_cls o) (dict_set (obj_dict o) k a).

Definition setattr (r : ref) (k : string) (a : attr) : M unit :=
  modify (fun s => with_heap (list_update (heap s) r (setattr_obj k a)) s).

(** Reading through a reference.  A reference held by a program always
    points into the heap; the error branch is for states that no run
    produces. *)
Definition deref (r : ref) : M object :=
  fun s => match nth_error (heap s) r with
           | Some o => (s, Ok o)
           | None => (s, Raise (mkExn (OtherException "SystemError") "bad reference"))
           end.

Definition startswith (s p : string) : bool := String.prefix p s.

Fixpoint insert_sorted (x : string) (l : list string) : list string :=
  match l with
  | [] => [x]
  | y :: l' => if String.leb x y then x :: l else y :: insert_sorted x l'
  end.

Definition sorted (l : list string) : list string :=
  fold_right insert_sorted [] l.

(** [dir(obj)]: the attribute names in alphabetical order.  The names every
    object inherits from its class all start and end with two underscores;
    the source filters names starting with an underscore out of every use
    of [dir], so they are left out here. *)
Definition dir (o : object) : list string := sorted (keys (obj_dict o)).

(** [hasattr(obj, k)], for the names the source asks about: the defaults of
    [function_mapping] and [{walker_name}_execute], none of which is a name
    inherited from a class. *)
Definition hasattr (o : object) (k : string) : bool := dict_in k (obj_dict o).

Definition getattr (o : object) (k : string) : M attr :=
  match dict_get (obj_dict o) k with
  | Some a => ret a
  | None => raise (mkExn AttributeError ("object has no attribute '" ++ k ++ "'"))
  end.

Definition callable_ (a : attr) : bool :=
  match a with ACallable _ => true | AData _ => false end.

(** [[attr for attr in dir(module)
      if callable(getattr(module, attr)) and not attr.startswith('_')]] *)
Definition public_callables (o : object) : list string :=
  filter (fun k => match dict_get (obj_dict o) k with
                   | Some a => callable_ a && negb (startswith k "_")
                   | None => false
                   end)
         (dir o).

Definition type_name (v : pyval) : string :=
  match v with
  | PNone => "NoneType"
  | PBool _ => "bool"
  | PInt _ => "int"
  | PStr _ => "str"
  | PList _ => "list"
  | PDict _ => "dict"
  end.

(** Expanding [parameters] as keyword arguments: every key must be a
    string. *)
Fixpoint kwargs_of (parameters : list (pyval * pyval))
  : outcome (list (string * pyval)) :=
  match parameters with
  | [] => Ok []
  | (PStr k, v) :: rest =>
      match kwargs_of rest with
      | Ok kw => Ok ((k, v) :: kw)
      | Raise e => Raise e
      end
  | _ :: _ => Raise (mkExn TypeError "keywords must be strings")
  end.

Definition dict_of_kwargs (kwargs : list (string * pyval)) : pyval :=
  PDict (map (fun kv => (PStr (fst kv), snd kv)) kwargs).

(** The body of [fallback_method], which takes keyword arguments only.  [name] and [method_name] are
    read from the cells of the enclosing run when the method is called. *)
Definition fallback_method (fr : nat) (kwargs : list (string * pyval))
  : M pyval :=
  fun s =>
    match nth_error (frames s) fr with
    | Some (mkFrame (Some name) (Some method_name)) =>
        (s, Ok (PDict
          [ (PStr "status", PStr "fallback");
            (PStr "walker", PStr name);
            (PStr "method", PStr method_name);
            (PStr "message",
             PStr ("Walker " ++ name ++ " is running in fallback mode"));
            (PStr "parameters", dict_of_kwargs kwargs);
            (PStr "timestamp", PStr "2025-12-04T17:47:44Z") ]))
    | _ =>
        (s, Raise (mkExn NameError
           "free variable referenced before assignment in enclosing scope"))
    end.

(** Calling [f] with [parameters] expanded as keyword arguments.  Either
    failure to make the call, an attribute that is not callable or a key
    that is not a string, is a [TypeError]. *)
Definition call (f : attr) (parameters : list (pyval * pyval)) : M pyval :=
  match f with
  | AData v =>
      raise (mkExn TypeError ("'" ++ type_name v ++ "' object is not callable"))
  | ACallable c =>
      match kwargs_of parameters with
      | Raise e => raise e
      | Ok kwargs =>
          match c with
          | Native f => fun s => (s, f kwargs)
          | FallbackMethod fr => fallback_method fr kwargs
          end
      end
  end.

(** [os.path.join] on POSIX paths. *)
Definition endswith_slash (s : string) : bool :=
  match get (String.length s - 1) s with
  | Some c => Ascii.eqb c "/"%char
  | None => false
  end.

Definition os_path_join2 (path b : string) : string :=
  if startswith b "/" then b
  else if (String.eqb path "" || endswith_slash path)%bool then path ++ b
  else path ++ "/" ++ b.

Definition os_path_join (a : string) (p : list string) : string :=
  fold_left os_path_join2 p a.

(** ** The environment

    What the interpreter and the disk answer.  A namespace is the list of
    bindings a piece of code makes, in order. *)
Definition namespace : Type := list (string * attr).

(** The dictionary the bindings leave behind: every name once, at the place
    of its first binding, with the value of its last. *)
Definition namespace_dict (ns : namespace) : list (string * attr) :=
  fold_left (fun d kv => dict_set d (fst kv) (snd kv)) ns [].

Record Env : Type := mkEnv {
  (** [settings.BASE_DIR], of settings that are configured and define it *)
  BASE_DIR : string;
  (** finding and executing a module that is not in [sys.modules] yet,
      under the given [sys.path] *)
  find_and_exec : list string -> string -> outcome namespace;
  (** [os.path.exists] *)
  os_path_exists : string -> bool;
  (** [open(path, 'r')] followed by [f.read()] *)
  read_text : string -> outcome string;
  (** [exec(code, namespace)] on an empty namespace *)
  exec_code : string -> outcome namespace;
  (** executing the source of a module object again: the bindings made,
      and the exception that interrupted the execution if any *)
  reexec : ref -> namespace -> namespace * option exn
}.

(** ** The class *)

(** [self.walker_map] *)
Definition walker_map : list (string * string) :=
  [ ("orchestrator", "jac_layer.walkers.orchestrator");
    ("content_curator", "jac_layer.walkers.content_curator");
    ("quiz_master", "jac_layer.walkers.quiz_master");
    ("evaluator", "jac_layer.walkers.evaluator");
    ("progress_tracker", "jac_layer.walkers.progress_tracker");
    ("motivator", "jac_layer.walkers.motivator") ].

Definition fallback_methods : list (string * list string) :=
  [ ("orchestrator",
     ["init_user_graph"; "start_lesson_sequence"; "coordinate_learning_workflow"]);
    ("content_curator",
     ["get_lesson_content"; "create_learning_material"; "adapt_content_difficulty"]);
    ("quiz_master",
     ["generate_adaptive_quiz"; "create_question_set"; "evaluate_quiz_performance"]);
    ("evaluator",
     ["evaluate_code_response"; "evaluate_text_response"; "provide_feedback"]);
    ("progress_tracker",
     ["track_lesson_progress"; "update_mastery_scores"; "get_learning_analytics"]);
    ("motivator",
     ["generate_motivational_message"; "create_encouragement"; "track_achievements"]) ].

Definition function_mapping : list (string * string) :=
  [ ("orchestrator", "init_user_graph");
    ("content_curator", "get_lesson_content");
    ("quiz_master", "generate_adaptive_quiz");
    ("evaluator", "evaluate_code_response");
    ("progress_tracker", "track_lesson_progress");
    ("motivator", "generate_motivational_message") ].

Definition modules_setitem (name : string) (module : ref) : M unit :=
  modify (fun s => with_modules (dict_set (modules s) name module) s).

Definition new_frame : M nat :=
  fun s => (with_frames (frames s ++ [mkFrame None None]) s,
            Ok (length (frames s))).

Definition bind_name (fr : nat) (name : string) : M unit :=
  modify (fun s => with_frames
    (list_update (frames s) fr
       (fun f => mkFrame (Some name) (cell_method_name f))) s).

Definition bind_method_name (fr : nat) (method_name : string) : M unit :=
  modify (fun s => with_frames
    (list_update (frames s) fr
       (fun f => mkFrame (cell_name f) (Some method_name))) s).

Definition lift {A} (o : outcome A) : M A := fun s => (s, o).

Section Manager.

Variable env : Env.

(** [importlib.import_module(name)]: the module object of [sys.modules] if
    there is one, else a new module object made from what the machinery
    finds. *)
Definition import_module (name : string) : M ref :=
  fun s =>
    match dict_get (sys_modules s) name with
    | Some r => (s, Ok r)
    | None =>
        match find_and_exec env (sys_path s) name with
        | Raise e => (s, Raise e)
        | Ok ns =>
            let r := length (heap s) in
            let o := fold_left (fun o kv => setattr_obj (fst kv) (snd kv) o)
                               ns (mkObject PyModule []) in
            (with_sys_modules (dict_set (sys_modules s) name r)
               (with_heap (heap s ++ [o]) s), Ok r)
        end
    end.

(** Strategy 4: the dummy module with the fallback methods. *)
Definition create_dummy_module (fr : nat) (name : string) : M unit :=
  logger (CreatingDummy name) ;;
  module <- alloc (mkObject DummyWalkerModule []) ;;
  let walker_methods := dict_get_default fallback_methods name ["execute"] in
  for_each walker_methods (fun method_name =>
    bind_method_name fr method_name ;;
    setattr module method_name (ACallable (FallbackMethod fr))) ;;
  modules_setitem name module ;;
  logger (CreatedDummy name).

(** Strategy 3: read the [.jac] file and execute it as Python code. *)
Definition load_from_source (name : string) : M unit :=
  let walker_file :=
    os_path_join (BASE_DIR env) ["jac_layer"; "walkers"; name ++ ".jac"] in
  if os_path_exists env walker_file then
    jac_code <- lift (read_text env walker_file) ;;
    ns <- lift (exec_code env jac_code) ;;
    module <- alloc (mkObject WalkerModule []) ;;
    for_each (namespace_dict ns) (fun kv =>
      if (negb (startswith (fst kv) "_") && callable_ (snd kv))%bool
      then setattr module (fst kv) (snd kv)
      else ret tt) ;;
    modules_setitem name module ;;
    logger (LoadedStrategy3 name)
  else
    raise (mkExn ImportError ("Walker file not found: " ++ walker_file)).

(** Strategy 2: put the walkers directory on [sys.path] and import by the
    bare name. *)
Definition import_by_name (name : string) : M unit :=
  let walker_dir := os_path_join (BASE_DIR env) ["jac_layer"; "walkers"] in
  modify (fun s =>
    if existsb (String.eqb walker_dir) (sys_path s) then s
    else with_sys_path (walker_dir :: sys_path s) s) ;;
  module <- import_module name ;;
  modules_setitem name module ;;
  logger (LoadedStrategy2 name).

(** The [try] statement in the loop of [_initialize_walkers], for one
    entry of [walker_map]. *)
Definition load_walker (fr : nat) (name module_path : string) : M unit :=
  try_
    (module <- import_module module_path ;;
     modules_setitem name module ;;
     logger (LoadedModule name))
    [ (isinstance_ImportError, fun e =>
        logger (Strategy1Failed name e) ;;
        try_ (import_by_name name)
          [ (isinstance_ImportError, fun e2 =>
              logger (Strategy2Failed name e2) ;;
              try_ (load_from_source name)
                [ (isinstance_Exception, fun e3 =>
                    logger (Strategy3Failed name e3) ;;
                    create_dummy_module fr name) ]) ]);
      (isinstance_Exception, fun e =>
        logger (UnexpectedError name e)) ].

(** One turn of the loop of [_initialize_walkers]: the loop variables are
    bound, then the [try] statement runs. *)
Definition initialize_walker (fr : nat) (entry : string * string) : M unit :=
  let name := fst entry in
  let module_path := snd entry in
  bind_name fr name ;;
  load_walker fr name module_path.

Definition _initialize_walkers : M unit :=
  fr <- new_frame ;;
  for_each walker_map (initialize_walker fr).

Definition __init__ : M unit :=
  modify (with_modules []) ;;
  _initialize_walkers.

(** [importlib.reload(module)]: an object that is not a module is refused
    with [TypeError]; a module has its source executed again into the same
    object. *)
Definition importlib_reload (module : ref) : M ref :=
  o <- deref module ;;
  match obj_cls o with
  | PyModule =>
      fun s =>
        let (ns, err) := reexec env module (obj_dict o) in
        let s' := with_heap
          (list_update (heap s) module
             (fun o => fold_left (fun o kv => setattr_obj (fst kv) (snd kv) o)
                                 ns o)) s in
        match err with
        | None => (s', Ok module)
        | Some e => (s', Raise e)
        end
  | _ => raise (mkExn TypeError "reload() argument must be a module")
  end.

(** One turn of the loop of [reload_walkers]. *)
Definition reload_item (item : string * ref) : M unit :=
  _ <- importlib_reload (snd item) ;; ret tt.

Definition reload_walkers : M pyval :=
  try_
    (items <- gets modules ;;
     for_each items reload_item ;;
     ret (PBool true))
    [ (isinstance_Exception, fun e =>
        logger (ReloadFailed e) ;;
        ret (PBool false)) ].

End Manager.

(** A cached object is truthy: neither a module nor an instance of the two
    walker classes defines [__bool__] or [__len__]. *)
Definition truthy (_ : ref) : bool := true.

Definition get_walker_module (module_name : string) : M ref :=
  module <- gets (fun s => dict_get (modules s) module_name) ;;
  match module with
  | Some r =>
      if truthy r then ret r
      else raise (mkExn ValueError ("Module " ++ module_name ++ " is not loaded."))
  | None =>
      raise (mkExn ValueError ("Module " ++ module_name ++ " is not loaded."))
  end.

Definition get_available_functions (walker_name : string) : M (list string) :=
  ms <- gets modules ;;
  match dict_get ms walker_name with
  | None => ret []
  | Some r =>
      module <- deref r ;;
      ret (public_callables module)
  end.

(** The two result envelopes of [execute_walker]. *)
Definition success_result (walker_name function_name : string)
    (result_data : pyval) : pyval :=
  PDict [ (PStr "status", PStr "success");
          (PStr "data", result_data);
          (PStr "walker_name", PStr walker_name);
          (PStr "function_called", PStr function_name) ].

Definition error_result (walker_name : string) (e : exn) : pyval :=
  PDict [ (PStr "status", PStr "error");
          (PStr "message", PStr (str e));
          (PStr "walker_name", PStr walker_name) ].

(** [if parameters is None: parameters = {}] *)
Definition params_of (parameters : option (list (pyval * pyval)))
  : list (pyval * pyval) :=
  match parameters with None => [] | Some d => d end.

Definition execute_walker (walker_name : string)
    (parameters : option (list (pyval * pyval))) : M pyval :=
  let parameters := params_of parameters in
  try_
    (ms <- gets modules ;;
     match dict_get ms walker_name with
     | None =>
         raise (mkExn ValueError
                  ("Walker module '" ++ walker_name ++ "' is not loaded."))
     | Some r =>
         module <- deref r ;;
         logger (Executing walker_name parameters) ;;
         let function_name :=
           dict_get_default function_mapping walker_name
                            (walker_name ++ "_execute") in
         function_name <-
           (if negb (hasattr module function_name) then
              match public_callables module with
              | [] =>
                  raise (mkExn ValueError
                    ("No callable functions found in module '"
                       ++ walker_name ++ "'"))
              | first :: _ =>
                  logger (UsingFallbackFunction first walker_name) ;;
                  ret first
              end
            else ret function_name) ;;
         walker_function <- getattr module function_name ;;
         result_data <- call walker_function parameters ;;
         logger (Completed walker_name) ;;
         ret (success_result walker_name function_name result_data)
     end)
    [ (isinstance_Exception, fun e =>
        logger (ErrorExecuting walker_name (str e)) ;;
        logger (Traceback e) ;;
        ret (error_result walker_name e)) ].

Definition get_available_walkers : M (list (string * list (string * bool))) :=
  ms <- gets modules ;;
  ret (map (fun name => (name, [("loaded", true)])) (keys ms)).

Definition health_check : M pyval :=
  loaded_count <- gets (fun s => length (modules s)) ;;
  let total_count := length walker_map in
  (if (0 <? loaded_count)%nat then
     logger (HealthCount loaded_count total_count) ;;
     for_each (keys walker_map) (fun name =>
       ms <- gets modules ;;
       if dict_in name ms then logger (HealthLoaded name)
       else logger (HealthNotLoaded name))
   else logger HealthNone) ;;
  ret (PBool (0 <? loaded_count)%nat).

(** ** Reading a result envelope *)

Fixpoint pydict_get (d : list (pyval * pyval)) (k : string) : option pyval :=
  match d with
  | [] => None
  | (PStr k', v) :: d' => if String.eqb k k' then Some v else pydict_get d' k
  | _ :: d' => pydict_get d' k
  end.

Definition field (v : pyval) (k : string) : option pyval :=
  match v with
  | PDict d => pydict_get d k
  | _ => None
  end.

(** ** The selection of the function to call *)

(** Step 2 of [execute_walker]: the name looked up first. *)
Definition default_function (walker_name : string) : string :=
  dict_get_default function_mapping walker_name (walker_name ++ "_execute").

(** Steps 2 and 3 together, as a function of the module: the name
    [execute_walker] ends up calling, if any. *)
Definition selected_function (module : object) (walker_name : string)
  : option string :=
  if hasattr module (default_function walker_name)
  then Some (default_function walker_name)
  else match public_callables module with
       | [] => None
       | first :: _ => Some first
       end.

(** What [execute_walker] makes of the outcome of the call: the envelope
    around a result or around an exception that [except Exception] catches;
    any other exception goes on to the caller. *)
Definition result_of_call (walker_name function_name : string)
    (o : outcome pyval) : outcome pyval :=
  match o with
  | Ok result_data =>
      Ok (success_result walker_name function_name result_data)
  | Raise e =>
      if isinstance_Exception e then Ok (error_result walker_name e)
      else Raise e
  end.

(** What [execute_walker] has logged when it makes the call. *)
Definition call_trace (module : object) (walker_name function_name : string)
    (parameters : list (pyval * pyval)) : list log_record :=
  Executing walker_name parameters
  :: (if hasattr module (default_function walker_name) then []
      else [UsingFallbackFunction function_name walker_name]).

(** The selection rule in the words of the specification, which gives
    [invoke] an operation hint: the hint if the handle exposes it, else the
    default operation mapped to the name if there is one, else the first
    operation of the handle. *)
Definition spec_select_operation (operation_hint : option string)
    (name : string) (exposed : list string) : option string :=
  let otherwise :=
    match dict_get function_mapping name with
    | Some default => Some default
    | None => hd_error exposed
    end in
  match operation_hint with
  | Some hint => if existsb (String.eqb hint) exposed then Some hint
                 else otherwise
  | None => otherwise
  end.

(** ** Runs of the loading chain, as the log shows them *)

(** Each run of the loop body for [name] starts with strategy 1 and writes
    exactly one of three records for its verdict. *)
Definition strategy1_verdict (name : string) (r : log_record) : bool :=
  match r with
  | LoadedModule n | Strategy1Failed n _ | UnexpectedError n _ =>
      String.eqb n name
  | _ => false
  end.

Definition pipeline_runs (name : string) (l : list log_record) : nat :=
  length (filter (strategy1_verdict name) l).

(** ** The life of a manager *)

(** [lifetime s0 s]: a manager was constructed in state [s0], and [s] is
    the state after [__init__] returned and any number of calls of its
    methods, each possibly in a different environment. *)
Inductive lifetime (s0 : State) : State -> Prop :=
| life_init env s :
    __init__ env s0 = (s, Ok tt) -> lifetime s0 s
| life_get_walker_module n s :
    lifetime s0 s -> lifetime s0 (fst (get_walker_module n s))
| life_get_available_functions n s :
    lifetime s0 s -> lifetime s0 (fst (get_available_functions n s))
| life_execute_walker n p s :
    lifetime s0 s -> lifetime s0 (fst (execute_walker n p s))
| life_get_available_walkers s :
    lifetime s0 s -> lifetime s0 (fst (get_available_walkers s))
| life_reload_walkers env s :
    lifetime s0 s -> lifetime s0 (fst (reload_walkers env s))
| life_health_check s :
    lifetime s0 s -> lifetime s0 (fst (health_check s)).

(** ** Properties of a state *)

(** Only registered names have a handle. *)
Definition registered_only (s : State) : Prop :=
  forall k, dict_in k (modules s) = true -> In k (keys walker_map).

(** Every reference the cache or [sys.modules] holds points to an object. *)
Definition refs_valid (s : State) : Prop :=
  (forall k r, dict_get (modules s) k = Some r -> r < length (heap s)) /\
  (forall k r, dict_get (sys_modules s) k = Some r -> r < length (heap s)).

(** The [sys.modules] of the process a manager is constructed in are
    objects of that process. *)
Definition sys_modules_valid (s : State) : Prop :=
  forall k r, dict_get (sys_modules s) k = Some r -> r < length (heap s).

(** What [health_check] writes to the log. *)
Definition health_report (s : State) : list log_record :=
  if (0 <? length (modules s))%nat then
    HealthCount (length (modules s)) (length walker_map)
    :: map (fun name => if dict_in name (modules s) then HealthLoaded name
                        else HealthNotLoaded name)
           (keys walker_map)
  else [HealthNone].

(** ** Relations between the state before and after a call *)

(** The cache and the objects it names are as before. *)
Definition same_cache (s s' : State) : Prop :=
  modules s' = modules s /\ heap s' = heap s /\ frames s' = frames s.

(** The cache is as before; objects and cells may have changed. *)
Definition same_modules (s s' : State) : Prop := modules s' = modules s.

(** The cache and [sys.modules] are as before and no object has been
    allocated. *)
Definition same_shape (s s' : State) : Prop :=
  modules s' = modules s /\ sys_modules s' = sys_modules s /\
  length (heap s') = length (heap s).

(** The cache is as before, every object has kept its class, and an
    object that is not a module is as before. *)
Definition entries_kept (s s' : State) : Prop :=
  modules s' = modules s /\
  forall r o, nth_error (heap s) r = Some o ->
    exists o', nth_error (heap s') r = Some o' /\
               obj_cls o' = obj_cls o /\
               (obj_cls o <> PyModule -> o' = o).

(** Every name that had a handle still has one. *)
Definition cache_grows (s s' : State) : Prop :=
  forall k, dict_in k (modules s) = true -> dict_in k (modules s') = true.

(** A name that has a handle had one before or is registered. *)
Definition registers (s s' : State) : Prop :=
  forall k, dict_in k (modules s') = true ->
            dict_in k (modules s) = true \/ In k (keys walker_map).

(** The loading chain has not run. *)
Definition no_new_run (s s' : State) : Prop :=
  forall name, pipeline_runs name (log s') = pipeline_runs name (log s).

(** The loading chain has run once more for [name], and for no other
    name. *)
Definition one_more_run (name : string) (s s' : State) : Prop :=
  forall k, pipeline_runs k (log s')
            = pipeline_runs k (log s) + (if String.eqb name k then 1 else 0).

(** A call that finds the references valid leaves them valid. *)
Definition keeps_valid (s s' : State) : Prop := refs_valid s -> refs_valid s'.

(** ** What the environment may answer *)

(** An exception of the import machinery that strategies 1 and 2 take as
    the signal to fall through. *)
Definition import_errors_only (env : Env) (module_name : string) : Prop :=
  forall p e,
    find_and_exec env p module_name = Raise e ->
    isinstance_ImportError e = true.

(** Loading raises nothing that [except Exception] lets through: what the
    import machinery, the reading of a source file and its execution raise
    derives from [Exception]. *)
Definition ordinary_errors (env : Env) : Prop :=
  (forall p module_name e,
     find_and_exec env p module_name = Raise e ->
     isinstance_Exception e = true) /\
  (forall path e, read_text env path = Raise e ->
                  isinstance_Exception e = true) /\
  (forall code e, exec_code env code = Raise e ->
                  isinstance_Exception e = true).

(** Executing the source of a module again raises nothing that
    [except Exception] lets through. *)
Definition reload_errors_ordinary (env : Env) : Prop :=
  forall r ns e, snd (reexec env r ns) = Some e ->
                 isinstance_Exception e = true.

(** [e] was raised by an import, by the reading of a source file or by its
    execution. *)
Definition raised_by_loading (env : Env) (e : exn) : Prop :=
  (exists p module_name, find_and_exec env p module_name = Raise e) \/
  (exists path, read_text env path = Raise e) \/
  (exists code, exec_code env code = Raise e).

(** ** The order of [dir] *)

(** [least x l]: [x] comes no later than any name of [l]. *)
Definition least (x : string) (l : list string) : Prop :=
  forall y, In y l -> String.leb x y = true.

Fixpoint ordered (l : list string) : Prop :=
  match l with
  | [] => True
  | x :: l' => least x l' /\ ordered l'
  end.

(** ** Statements about computations *)

(** The state and the outcome of running [m] from [s] satisfy [Q]. *)
Definition wp {A} (m : M A) (Q : State -> outcome A -> Prop) (s : State)
  : Prop :=
  Q (fst (m s)) (snd (m s)).

(** ** Sample deployments *)

(** A process that has imported nothing yet. *)
Definition fresh : State := mkState [] [] [] ["/usr/lib/python3"] [] [].

Definition no_module (name : string) : exn :=
  mkExn ModuleNotFoundError ("No module named '" ++ name ++ "'").

Definition returns_ (v : pyval) : attr := ACallable (Native (fun _ => Ok v)).

Definition raises_ (e : exn) : attr := ACallable (Native (fun _ => Raise e)).

(** Nothing is installed: no module can be imported, no source file
    exists. *)
Definition bare_env : Env :=
  mkEnv "/app"
        (fun _ name => Raise (no_module name))
        (fun _ => false)
        (fun _ => Raise (mkExn OSError "No such file or directory"))
        (fun _ => Raise (mkExn SyntaxError "invalid syntax"))
        (fun _ ns => ([], None)).

(** A mixed deployment.  [orchestrator] and [evaluator] import directly,
    the latter with an entry function that raises; [content_curator]
    imports directly but has no function of the default name;
    [quiz_master] is found but fails to compile; [progress_tracker] exists
    only as a source file; [motivator] is absent. *)
Definition mixed_find (name : string) : outcome namespace :=
  if String.eqb name "jac_layer.walkers.orchestrator" then
    Ok [ ("init_user_graph", returns_ (PStr "graph ready"));
         ("start_lesson_sequence", returns_ (PStr "lesson started")) ]
  else if String.eqb name "jac_layer.walkers.content_curator" then
    Ok [ ("VERSION", AData (PInt 1));
         ("rank_content", returns_ (PStr "ranked"));
         ("find_content", returns_ (PStr "found")) ]
  else if String.eqb name "jac_layer.walkers.quiz_master" then
    Raise (mkExn SyntaxError "invalid syntax (quiz_master.jac, line 1)")
  else if String.eqb name "jac_layer.walkers.evaluator" then
    Ok [ ("evaluate_code_response", raises_ (mkExn ValueError "boom")) ]
  else Raise (no_module name).

Definition mixed_env : Env :=
  mkEnv "/app"
        (fun _ name => mixed_find name)
        (fun path =>
           String.eqb path "/app/jac_layer/walkers/progress_tracker.jac")
        (fun _ => Ok "def track_lesson_progress(): return 'tracked'")
        (fun _ => Ok [ ("__builtins__", AData PNone);
                       ("track_lesson_progress", returns_ (PStr "tracked")) ])
        (fun _ ns => ([("RELOADED", AData (PBool true))], None)).

(** A deployment in which every walker imports directly and a reload
    marks the module. *)
Definition complete_env : Env :=
  mkEnv "/app"
        (fun _ name => Ok [ ("run", returns_ (PStr name)) ])
        (fun _ => true)
        (fun _ => Ok "")
        (fun _ => Ok [])
        (fun _ ns => ([("RELOADED", AData (PBool true))], None)).

(** As [complete_env], but [orchestrator] is absent. *)
Definition late_env : Env :=
  mkEnv "/app"
        (fun _ name =>
           if (String.eqb name "jac_layer.walkers.orchestrator"
               || String.eqb name "orchestrator")%bool
           then Raise (no_module name)
           else Ok [ ("run", returns_ (PStr name)) ])
        (fun _ => false)
        (fun _ => Raise (mkExn OSError "No such file or directory"))
        (fun _ => Ok [])
        (fun _ ns => ([("RELOADED", AData (PBool true))], None)).

(** A deployment in which every walker imports directly and its only
    function, [run], ends the process with [sys.exit(0)]. *)
Definition exiting_env : Env :=
  mkEnv "/app"
        (fun _ name => Ok [ ("run", raises_ (mkExn SystemExit "0")) ])
        (fun _ => false)
        (fun _ => Raise (mkExn OSError "No such file or directory"))
        (fun _ => Ok [])
        (fun _ ns => ([], None)).

(** The objects of the mixed deployment after initialization, as
    [__init__ mixed_env fresh] leaves them. *)
Definition mixed_state : State := fst (__init__ mixed_env fresh).

(** The states of the other sample deployments after initialization. *)
Definition bare_state : State := fst (__init__ bare_env fresh).

Definition late_state : State := fst (__init__ late_env fresh).

Definition exiting_state : State := fst (__init__ exiting_env fresh).

Definition exiting_module : object :=
  mkObject PyModule [ ("run", raises_ (mkExn SystemExit "0")) ].

Definition orchestrator_module : object :=
  mkObject PyModule
    [ ("init_user_graph", returns_ (PStr "graph ready"));
      ("start_lesson_sequence", returns_ (PStr "lesson started")) ].

Definition content_curator_module : object :=
  mkObject PyModule
    [ ("VERSION", AData (PInt 1));
      ("rank_content", returns_ (PStr "ranked"));
      ("find_content", returns_ (PStr "found")) ].

Definition evaluator_module : object :=
  mkObject PyModule
    [ ("evaluate_code_response", raises_ (mkExn ValueError "boom")) ].

(** ** What the loops and the calls leave behind *)

(** A call that finds the names of the cache distinct leaves them
    distinct. *)
Definition keeps_distinct (s s' : State) : Prop :=
  NoDup (keys (modules s)) -> NoDup (keys (modules s')).

(** [sys.path] is as before, or has gained [d] at the front, where it was
    not. *)
Definition path_extended (d : string) (s s' : State) : Prop :=
  sys_path s' = sys_path s \/
  (sys_path s' = d :: sys_path s /\ ~ In d (sys_path s)).

(** The directory of the walkers, as strategy 2 computes it. *)
Definition walker_dir (env : Env) : string :=
  os_path_join (BASE_DIR env) ["jac_layer"; "walkers"].

(** [sys.path] is as before. *)
Definition same_path (s s' : State) : Prop := sys_path s' = sys_path s.

(** The cell [name] of every run is as before, and no run has been added
    or removed. *)
Definition names_kept (s s' : State) : Prop :=
  map cell_name (frames s') = map cell_name (frames s).

(** What the loop of strategy 3 makes of an object: the public callables
    among the items of the dictionary are set on it, in order. *)
Definition expose (ns : list (string * attr)) (o : object) : object :=
  fold_left (fun o kv =>
               if (negb (startswith (fst kv) "_") && callable_ (snd kv))%bool
               then setattr_obj (fst kv) (snd kv) o
               else o)
            ns o.

(** A deployment whose only source file, [evaluator.jac], defines
    [helper] and [keep], then binds [helper] again to a number. *)
Definition rebinding_env : Env :=
  mkEnv "/app"
        (fun _ name => Raise (no_module name))
        (fun path => String.eqb path "/app/jac_layer/walkers/evaluator.jac")
        (fun _ => Ok "def helper(): pass")
        (fun _ => Ok [ ("helper", returns_ PNone);
                       ("helper", AData (PInt 5));
                       ("keep", returns_ (PStr "kept")) ])
        (fun _ ns => ([], None)).

(** The state of the complete deployment after initialization. *)
Definition complete_state : State := fst (__init__ complete_env fresh).


(** What the loop of strategy 4 makes of the dummy object and of the cell
    [method_name] of the run. *)
Definition install_fallbacks (fr : nat) (methods : list string) (o : object)
  : object :=
  fold_left (fun o m => setattr_obj m (ACallable (FallbackMethod fr)) o)
            methods o.

(** The cells of run [fr] after the loop of strategy 4 has bound
    [method_name] to each method in turn. *)
Definition bind_methods (fr : nat) (methods : list string) (fs : list frame)
  : list frame :=
  fold_left (fun fs m =>
               list_update fs fr (fun f => mkFrame (cell_name f) (Some m)))
            methods fs.

(** A module of [quiz_master] whose default name is bound to a number, next
    to a public function. *)
Definition quiz_data_state : State :=
  mkState [("quiz_master", 0)]
          [mkObject PyModule
             [ ("generate_adaptive_quiz", AData (PInt 3));
               ("make_quiz", returns_ (PStr "quiz")) ]]
          [] [] [] [].

(** The cache made by a loop whose every import finds the module in
    [sys.modules]. *)
Definition reused (sm : list (string * ref)) (l : list (string * string))
    (m : list (string * ref)) : list (string * ref) :=
  fold_left (fun m entry =>
               match dict_get sm (snd entry) with
               | Some r => dict_set m (fst entry) r
               | None => m
               end) l m.

(** The class of the object a name's handle points to. *)
Definition handle_class (s : State) (name : string) : option obj_class :=
  match dict_get (modules s) name with
  | Some r => option_map obj_cls (nth_error (heap s) r)
  | None => None
  end.

(** [attempt name s s' l o]: what one run of the [try] statement of
    [_initialize_walkers] for [name] has written to the log, with how it
    ended and what it left in the cache. *)
Inductive attempt (name : string) (s s' : State)
  : list log_record -> outcome unit -> Prop :=
| by_import r :
    dict_get (modules s') name = Some r ->
    attempt name s s' [LoadedModule name] (Ok tt)
| interrupted e :
    isinstance_Exception e = false ->
    modules s' = modules s ->
    attempt name s s' [] (Raise e)
| unexpected e :
    isinstance_ImportError e = false ->
    isinstance_Exception e = true ->
    modules s' = modules s ->
    attempt name s s' [UnexpectedError name e] (Ok tt)
| by_bare_name e r :
    isinstance_ImportError e = true ->
    dict_get (modules s') name = Some r ->
    attempt name s s' [Strategy1Failed name e; LoadedStrategy2 name] (Ok tt)
| escaped e e2 :
    isinstance_ImportError e = true ->
    isinstance_ImportError e2 = false ->
    modules s' = modules s ->
    attempt name s s' [Strategy1Failed name e] (Raise e2)
| by_source e e2 :
    isinstance_ImportError e = true ->
    isinstance_ImportError e2 = true ->
    handle_class s' name = Some WalkerModule ->
    attempt name s s'
      [Strategy1Failed name e; Strategy2Failed name e2; LoadedStrategy3 name]
      (Ok tt)
| interrupted_source e e2 e3 :
    isinstance_ImportError e = true ->
    isinstance_ImportError e2 = true ->
    isinstance_Exception e3 = false ->
    modules s' = modules s ->
    attempt name s s'
      [Strategy1Failed name e; Strategy2Failed name e2] (Raise e3)
| by_dummy e e2 e3 :
    isinstance_ImportError e = true ->
    isinstance_ImportError e2 = true ->
    isinstance_Exception e3 = true ->
    handle_class s' name = Some DummyWalkerModule ->
    attempt name s s'
      [Strategy1Failed name e; Strategy2Failed name e2;
       Strategy3Failed name e3; CreatingDummy name; CreatedDummy name]
      (Ok tt).

(** How a call of [execute_walker] shows in the log. *)
Definition success_trace (walker_name : string)
    (parameters : list (pyval * pyval)) (l : list log_record) : Prop :=
  l = [Executing walker_name parameters; Completed walker_name] \/
  exists function_name,
    l = [Executing walker_name parameters;
         UsingFallbackFunction function_name walker_name;
         Completed walker_name].

Definition error_trace (walker_name : string)
    (parameters : list (pyval * pyval)) (e : exn) (l : list log_record)
  : Prop :=
  exists pre,
    l = (pre ++ [ErrorExecuting walker_name (str e); Traceback e])%list /\
    (pre = [] \/
     pre = [Executing walker_name parameters] \/
     exists function_name,
       pre = [Executing walker_name parameters;
              UsingFallbackFunction function_name walker_name]).

(** The cache is as before, or [name] has been set in it. *)
Definition sets (name : string) (s s' : State) : Prop :=
  modules s' = modules s \/ exists r, modules s' = dict_set (modules s) name r.

(** A name that has a handle had one before or is one of [names]. *)
Definition adds (names : list string) (s s' : State) : Prop :=
  forall k, dict_in k (modules s') = true ->
            dict_in k (modules s) = true \/ In k names.

Definition interrupted_trace (walker_name : string)
    (parameters : list (pyval * pyval)) (l : list log_record) : Prop :=
  l = [Executing walker_name parameters] \/
  exists function_name,
    l = [Executing walker_name parameters;
         UsingFallbackFunction function_name walker_name].

(** The names of [names] that have a handle, in the order of [names]. *)
Definition loaded_of (s : State) (names : list string) : list string :=
  filter (fun name => dict_in name (modules s)) names.

(** The two kinds of line of the report of [health_check]. *)
Definition is_loaded_line (r : log_record) : bool :=
  match r with HealthLoaded _ => true | _ => false end.

Definition is_not_loaded_line (r : log_record) : bool :=
  match r with HealthNotLoaded _ => true | _ => false end.

(** The import of [orchestrator] by its path finds nothing, and the import
    by its bare name finds a file that does not compile. *)
Definition broken_env : Env :=
  mkEnv "/app"
        (fun _ name =>
           if String.eqb name "orchestrator"
           then Raise (mkExn SyntaxError "invalid syntax (orchestrator.py, line 1)")
           else Raise (no_module name))
        (fun _ => false)
        (fun _ => Raise (mkExn OSError "No such file or directory"))
        (fun _ => Ok [])
        (fun _ ns => ([], None)).

(** ** The dummy modules of the cache *)

(** Every object that [sys.modules] names is a module. *)
Definition sys_modules_hold_modules (s : State) : Prop :=
  forall k r, dict_get (sys_modules s) k = Some r ->
    exists o, nth_error (heap s) r = Some o /\ obj_cls o = PyModule.

(** The dummy module that the run [fr] of [_initialize_walkers] makes for
    [name]. *)
Definition dummy_object (fr : nat) (name : string) : object :=
  install_fallbacks fr (dict_get_default fallback_methods name ["execute"])
                    (mkObject DummyWalkerModule []).

(** The dummy modules of the cache are those of the run [fr]: a handle
    whose object is a dummy module points to the dummy module that the run
    has made for its name, and the run has then bound [method_name]. *)
Definition dummies_of (fr : nat) (s : State) : Prop :=
  refs_valid s /\
  sys_modules_hold_modules s /\
  (exists nm mm, nth_error (frames s) fr = Some (mkFrame nm mm)) /\
  forall name r o,
    dict_get (modules s) name = Some r ->
    nth_error (heap s) r = Some o ->
    obj_cls o = DummyWalkerModule ->
    o = dummy_object fr name /\
    exists nm m, nth_error (frames s) fr = Some (mkFrame nm (Some m)).

(** The cache, the objects, [sys.modules] and the cells are as before. *)
Definition same_objects (s s' : State) : Prop :=
  modules s' = modules s /\ heap s' = heap s /\
  sys_modules s' = sys_modules s /\ frames s' = frames s.

(** * Reasoning about the monad *)

(** ** Relations every step of a computation keeps *)

Definition keeps (R : State -> State -> Prop) {A} (m : M A) : Prop :=
  forall s, R s (fst (m s)).

Section Keeps.

Variable R : State -> State -> Prop.
Hypothesis R_refl : forall s, R s s.
Hypothesis R_trans : forall a b c, R a b -> R b c -> R a c.

Lemma keeps_ret A (a : A) : keeps R (ret a).
Proof. intro s. apply R_refl. Qed.

Lemma keeps_raise A (e : exn) : keeps R (@raise A e).
Proof. intro s. apply R_refl. Qed.

Lemma keeps_lift A (o : outcome A) : keeps R (lift o).
Proof. intro s. apply R_refl. Qed.

Lemma keeps_gets A (f : State -> A) : keeps R (gets f).
Proof. intro s. apply R_refl. Qed.

Lemma keeps_modify (f : State -> State) :
  (forall s, R s (f s)) -> keeps R (modify f).
Proof. intros H s. apply H. Qed.

Lemma keeps_bind A B (m : M A) (k : A -> M B) :
  keeps R m -> (forall a, keeps R (k a)) -> keeps R (bind m k).
Proof.
  intros Hm Hk s. unfold bind.
  specialize (Hm s). destruct (m s) as [s1 [a | e]]; simpl in *.
  - eapply R_trans; [exact Hm | apply Hk].
  - exact Hm.
Qed.

Lemma keeps_dispatch A (hs : list (handler A)) (e : exn) :
  Forall (fun h => forall e, keeps R (snd h e)) hs ->
  keeps R (dispatch hs e).
Proof.
  induction 1 as [| [accepts h] hs Hh _ IH]; simpl.
  - apply keeps_raise.
  - destruct (accepts e); [apply Hh | exact IH].
Qed.

Lemma keeps_try A (body : M A) (hs : list (handler A)) :
  keeps R body ->
  Forall (fun h => forall e, keeps R (snd h e)) hs ->
  keeps R (try_ body hs).
Proof.
  intros Hb Hh s. unfold try_.
  specialize (Hb s). destruct (body s) as [s1 [a | e]]; simpl in *.
  - exact Hb.
  - eapply R_trans; [exact Hb | apply keeps_dispatch, Hh].
Qed.

Lemma keeps_for_each A (l : list A) (body : A -> M unit) :
  (forall x, keeps R (body x)) -> keeps R (for_each l body).
Proof.
  intros Hb. induction l as [| x l IH]; simpl.
  - apply keeps_ret.
  - apply keeps_bind; [apply Hb | intros _; exact IH].
Qed.

Lemma keeps_for_each_in A (l : list A) (body : A -> M unit) :
  (forall x, In x l -> keeps R (body x)) -> keeps R (for_each l body).
Proof.
  intros Hb. induction l as [| x l IH]; simpl.
  - apply keeps_ret.
  - apply keeps_bind; [apply Hb; left; reflexivity | intros _; apply IH].
    intros y Hy. apply Hb. right. exact Hy.
Qed.

End Keeps.

(** Breaks a computation down to the steps that write the state. *)
Ltac keeps_steps Hrefl Htrans :=
  repeat first
    [ apply (keeps_ret _ Hrefl)
    | apply (keeps_raise _ Hrefl)
    | apply (keeps_lift _ Hrefl)
    | apply (keeps_gets _ Hrefl)
    | apply (keeps_bind Htrans); [ | intros ? ]
    | apply (keeps_try Hrefl Htrans);
        [ | repeat (apply Forall_cons; [cbn [snd]; intros ? | ]);
            try apply Forall_nil ]
    | apply (keeps_for_each Hrefl Htrans); intros ?
    | match goal with
      | |- keeps _ (if ?b then _ else _) => destruct b
      | |- keeps _ (match ?x with _ => _ end) => destruct x
      | |- keeps _ (let (_, _) := ?x in _) => destruct x
      end ].

(** ** Dictionaries *)

Lemma dict_get_set_same V (d : list (string * V)) k v :
  dict_get (dict_set d k v) k = Some v.
Proof.
  induction d as [| [k' v'] d IH]; simpl.
  - rewrite String.eqb_refl. reflexivity.
  - destruct (String.eqb k k') eqn:E; simpl.
    + rewrite String.eqb_refl. reflexivity.
    + rewrite E. exact IH.
Qed.

Lemma dict_get_set_other V (d : list (string * V)) k k' v :
  k' <> k -> dict_get (dict_set d k v) k' = dict_get d k'.
Proof.
  intros Hne. induction d as [| [k0 v0] d IH]; simpl.
  - destruct (String.eqb_spec k' k); [contradiction | reflexivity].
  - destruct (String.eqb_spec k k0) as [-> | Hk]; simpl.
    + destruct (String.eqb_spec k' k0); [contradiction | reflexivity].
    + destruct (String.eqb_spec k' k0); [reflexivity | exact IH].
Qed.

Lemma dict_in_set_same V (d : list (string * V)) k v :
  dict_in k (dict_set d k v) = true.
Proof. unfold dict_in. rewrite dict_get_set_same. reflexivity. Qed.

Lemma dict_in_set_grows V (d : list (string * V)) k k' v :
  dict_in k' d = true -> dict_in k' (dict_set d k v) = true.
Proof.
  unfold dict_in. destruct (String.eqb_spec k' k) as [-> | Hne].
  - rewrite dict_get_set_same. reflexivity.
  - rewrite dict_get_set_other by exact Hne. auto.
Qed.

Lemma dict_in_keys V (d : list (string * V)) k :
  dict_in k d = true <-> In k (keys d).
Proof.
  unfold dict_in, keys. induction d as [| [k' v'] d IH]; simpl.
  - split; [discriminate | contradiction].
  - destruct (String.eqb_spec k k') as [-> | Hne].
    + split; auto.
    + rewrite IH. split; [auto | intros [H | H]; [congruence | exact H]].
Qed.

Lemma keys_dict_set V (d : list (string * V)) k v k' :
  In k' (keys (dict_set d k v)) <-> k' = k \/ In k' (keys d).
Proof.
  rewrite <- !dict_in_keys. unfold dict_in.
  destruct (String.eqb_spec k' k) as [-> | Hne].
  - rewrite dict_get_set_same. split; auto.
  - rewrite dict_get_set_other by exact Hne. split; [auto | intros [H | H]; [contradiction | exact H]].
Qed.

(** ** Running a computation from a state *)

Lemma wp_bind A B (m : M A) (k : A -> M B) Q s :
  wp m (fun s1 o => match o with
                    | Ok a => wp (k a) Q s1
                    | Raise e => Q s1 (Raise e)
                    end) s ->
  wp (bind m k) Q s.
Proof.
  unfold wp, bind. destruct (m s) as [s1 [a | e]]; simpl; auto.
Qed.

Lemma wp_try A (body : M A) (hs : list (handler A)) Q s :
  wp body (fun s1 o => match o with
                       | Ok a => Q s1 (Ok a)
                       | Raise e => wp (dispatch hs e) Q s1
                       end) s ->
  wp (try_ body hs) Q s.
Proof.
  unfold wp, try_. destruct (body s) as [s1 [a | e]]; simpl; auto.
Qed.

Lemma wp_conseq A (m : M A) (Q Q' : State -> outcome A -> Prop) s :
  wp m Q s -> (forall s' o, Q s' o -> Q' s' o) -> wp m Q' s.
Proof. unfold wp. auto. Qed.

Lemma wp_keeps A (m : M A) R s : keeps R m -> wp m (fun s' _ => R s s') s.
Proof. intros H. apply H. Qed.

Lemma wp_and A (m : M A) (Q1 Q2 : State -> outcome A -> Prop) s :
  wp m Q1 s -> wp m Q2 s -> wp m (fun s' o => Q1 s' o /\ Q2 s' o) s.
Proof. unfold wp. auto. Qed.

Lemma for_each_ok A (l : list A) (body : A -> M unit) :
  (forall x s, snd (body x s) = Ok tt) ->
  forall s, wp (for_each l body) (fun _ o => o = Ok tt) s.
Proof.
  intros Hb. unfold wp. induction l as [| x l IH]; intros s; simpl.
  - reflexivity.
  - unfold bind. specialize (Hb x s). destruct (body x s) as [s1 o].
    simpl in Hb. subst o. apply IH.
Qed.

Lemma same_modules_refl s : same_modules s s.
Proof. reflexivity. Qed.

Lemma same_modules_trans a b c :
  same_modules a b -> same_modules b c -> same_modules a c.
Proof. unfold same_modules. congruence. Qed.

(** ** The order of [dir] *)

Lemma ascii_compare_trans_lt a b c :
  Ascii.compare a b = Lt -> Ascii.compare b c = Lt -> Ascii.compare a c = Lt.
Proof.
  unfold Ascii.compare. rewrite !N.compare_lt_iff. apply N.lt_trans.
Qed.

Lemma string_compare_refl s : String.compare s s = Eq.
Proof.
  induction s as [| c s IH]; simpl; [reflexivity | ].
  unfold Ascii.compare. rewrite N.compare_refl. exact IH.
Qed.

Lemma string_leb_trans s1 s2 s3 :
  String.leb s1 s2 = true -> String.leb s2 s3 = true ->
  String.leb s1 s3 = true.
Proof.
  unfold String.leb. revert s2 s3.
  induction s1 as [| c1 s1 IH]; intros [| c2 s2] [| c3 s3]; simpl;
    try reflexivity; try discriminate.
  destruct (Ascii.compare c1 c2) eqn:E12; try discriminate.
  - apply Ascii.compare_eq_iff in E12. subst c2.
    destruct (Ascii.compare c1 c3); try discriminate; try reflexivity.
    apply IH.
  - destruct (Ascii.compare c2 c3) eqn:E23; try discriminate.
    + apply Ascii.compare_eq_iff in E23. subst c3. rewrite E12. reflexivity.
    + rewrite (ascii_compare_trans_lt _ _ _ E12 E23). reflexivity.
Qed.

Lemma string_leb_refl s : String.leb s s = true.
Proof. unfold String.leb. rewrite string_compare_refl. reflexivity. Qed.

Lemma insert_sorted_In x l y :
  In y (insert_sorted x l) <-> y = x \/ In y l.
Proof.
  induction l as [| z l IH]; simpl.
  - intuition.
  - destruct (String.leb x z); simpl; [intuition | ].
    rewrite IH. intuition.
Qed.

Lemma insert_sorted_ordered x l : ordered l -> ordered (insert_sorted x l).
Proof.
  induction l as [| z l IH]; simpl.
  - intros _. split; [intros y [] | exact I].
  - intros [Hz Hl]. destruct (String.leb x z) eqn:E; simpl.
    + split; [ | split; assumption].
      intros y [<- | Hy]; [exact E | ].
      eapply string_leb_trans; [exact E | apply Hz, Hy].
    + split; [ | apply IH, Hl].
      intros y Hy. apply insert_sorted_In in Hy. destruct Hy as [-> | Hy].
      * destruct (String.leb_total x z) as [H | H]; [congruence | exact H].
      * apply Hz, Hy.
Qed.

Lemma sorted_ordered l : ordered (sorted l).
Proof.
  induction l as [| x l IH]; simpl; [exact I | ].
  apply insert_sorted_ordered, IH.
Qed.

Lemma sorted_In l y : In y (sorted l) <-> In y l.
Proof.
  induction l as [| x l IH]; simpl; [reflexivity | ].
  rewrite insert_sorted_In, IH. intuition.
Qed.

Lemma filter_ordered (p : string -> bool) l : ordered l -> ordered (filter p l).
Proof.
  induction l as [| x l IH]; simpl; [auto | ].
  intros [Hx Hl]. destruct (p x); simpl; [ | apply IH, Hl].
  split; [ | apply IH, Hl].
  intros y Hy. apply filter_In in Hy. apply Hx, Hy.
Qed.

(** ** Steps that leave the cache alone *)

Lemma same_cache_refl s : same_cache s s.
Proof. repeat split. Qed.

Lemma same_cache_trans a b c :
  same_cache a b -> same_cache b c -> same_cache a c.
Proof. unfold same_cache. intuition congruence. Qed.

Lemma call_state f p s : fst (call f p s) = s.
Proof.
  unfold call, raise, fallback_method.
  destruct f as [[g | fr] | v]; simpl; auto;
    destruct (kwargs_of p); simpl; auto.
  destruct (nth_error (frames s) fr) as [[[n |] [m |]] |]; reflexivity.
Qed.

Lemma deref_state r s : fst (deref r s) = s.
Proof. unfold deref. destruct (nth_error (heap s) r); reflexivity. Qed.

Lemma getattr_state o k s : fst (getattr o k s) = s.
Proof. unfold getattr. destruct (dict_get (obj_dict o) k); reflexivity. Qed.

Lemma same_cache_logger r : keeps same_cache (logger r).
Proof. intros s. repeat split. Qed.

Lemma same_cache_call f p : keeps same_cache (call f p).
Proof. intros s. rewrite call_state. apply same_cache_refl. Qed.

Lemma same_cache_deref r : keeps same_cache (deref r).
Proof. intros s. rewrite deref_state. apply same_cache_refl. Qed.

Lemma same_cache_getattr o k : keeps same_cache (getattr o k).
Proof. intros s. rewrite getattr_state. apply same_cache_refl. Qed.

Create HintDb cache_frame.
#[local] Hint Resolve same_cache_logger same_cache_call same_cache_deref
  same_cache_getattr : cache_frame.

Lemma same_cache_execute_walker n p : keeps same_cache (execute_walker n p).
Proof.
  unfold execute_walker.
  keeps_steps same_cache_refl same_cache_trans; auto with cache_frame.
Qed.

Lemma same_cache_get_available_functions n :
  keeps same_cache (get_available_functions n).
Proof.
  unfold get_available_functions.
  keeps_steps same_cache_refl same_cache_trans; auto with cache_frame.
Qed.

Lemma same_cache_get_walker_module n : keeps same_cache (get_walker_module n).
Proof.
  unfold get_walker_module.
  keeps_steps same_cache_refl same_cache_trans; auto with cache_frame.
Qed.

Lemma same_cache_health_check : keeps same_cache health_check.
Proof.
  unfold health_check.
  keeps_steps same_cache_refl same_cache_trans; auto with cache_frame.
Qed.

Lemma same_cache_get_available_walkers : keeps same_cache get_available_walkers.
Proof.
  unfold get_available_walkers.
  keeps_steps same_cache_refl same_cache_trans.
Qed.

(** * The dispatcher *)

(** C10.  Invocation and introspection leave the cache alone: after
    [execute_walker] or [get_available_functions], for any walker name and
    any parameters, [self.modules] maps the same names to the same objects,
    and the objects are as they were.  The same holds of the other two
    readers, [get_walker_module] and [health_check]. *)
Theorem invocation_and_introspection_keep_cache
    (walker_name : string) (parameters : option (list (pyval * pyval)))
    (s : State) :
  same_cache s (fst (execute_walker walker_name parameters s)) /\
  same_cache s (fst (get_available_functions walker_name s)) /\
  same_cache s (fst (get_walker_module walker_name s)) /\
  same_cache s (fst (health_check s)).
Proof.
  repeat split.
  all: first [ apply same_cache_execute_walker
             | apply same_cache_get_available_functions
             | apply same_cache_get_walker_module
             | apply same_cache_health_check ].
Qed.

(** ** What [execute_walker] returns for a loaded walker *)

Lemma call_frames f p s s' :
  frames s = frames s' -> snd (call f p s) = snd (call f p s').
Proof.
  intros H. unfold call, raise, fallback_method.
  destruct f as [[g | fr] | v]; simpl; auto;
    destruct (kwargs_of p); simpl; auto.
  rewrite H.
  destruct (nth_error (frames s') fr) as [[[n |] [m |]] |]; reflexivity.
Qed.

Lemma public_callables_bound o k :
  In k (public_callables o) ->
  exists c, dict_get (obj_dict o) k = Some (ACallable c) /\
            startswith k "_" = false.
Proof.
  unfold public_callables. rewrite filter_In. intros [_ H].
  destruct (dict_get (obj_dict o) k) as [[c | v] |]; simpl in H;
    try discriminate.
  exists c. split; [reflexivity | ].
  destruct (startswith k "_"); [discriminate | reflexivity].
Qed.

Lemma selected_function_bound module n fn :
  selected_function module n = Some fn ->
  exists f, dict_get (obj_dict module) fn = Some f.
Proof.
  unfold selected_function, hasattr, dict_in.
  destruct (dict_get (obj_dict module) (default_function n)) as [f |] eqn:Hd.
  - intros H; inversion H; subst. eauto.
  - destruct (public_callables module) as [| first rest] eqn:Hp;
      [discriminate | ].
    intros H; inversion H; subst.
    destruct (public_callables_bound module fn) as (c & Hc & _).
    + rewrite Hp. left. reflexivity.
    + eauto.
Qed.

(** The public callables come in alphabetical order, so the first is the
    alphabetically least. *)
Lemma public_callables_first_least module first rest :
  public_callables module = first :: rest ->
  least first (first :: rest).
Proof.
  intros Hp.
  assert (Ho : ordered (public_callables module))
    by (apply filter_ordered, sorted_ordered).
  rewrite Hp in Ho. destruct Ho as [Hfirst _].
  intros y [<- | Hy]; [apply string_leb_refl | apply Hfirst, Hy].
Qed.

(** [public_callables] lists exactly the attributes that are callable and
    do not start with an underscore. *)
Lemma public_callables_In module k :
  In k (public_callables module) <->
  exists c, dict_get (obj_dict module) k = Some (ACallable c) /\
            startswith k "_" = false.
Proof.
  split; [apply public_callables_bound | ].
  intros (c & Hc & Hs). unfold public_callables. apply filter_In. split.
  - unfold dir. apply sorted_In. apply dict_in_keys. unfold dict_in.
    rewrite Hc. reflexivity.
  - rewrite Hc, Hs. reflexivity.
Qed.

Lemma call_run f p s : call f p s = (s, snd (call f p s)).
Proof.
  rewrite <- (call_state f p s) at 2. apply surjective_pairing.
Qed.

Lemma import_error_is_exception e :
  isinstance_ImportError e = true -> isinstance_Exception e = true.
Proof.
  unfold isinstance_ImportError, isinstance_Exception.
  destruct (exn_cls e); intros H; try discriminate; reflexivity.
Qed.

Lemma with_log_with_log l1 l2 s : with_log l2 (with_log l1 s) = with_log l2 s.
Proof. reflexivity. Qed.

(** The whole run of [execute_walker] for a loaded walker whose selected
    function is [f]: the call is made in a state that differs from the
    initial one by log records only. *)
Lemma execute_walker_run n p s r module fn f :
  dict_get (modules s) n = Some r ->
  nth_error (heap s) r = Some module ->
  selected_function module n = Some fn ->
  dict_get (obj_dict module) fn = Some f ->
  execute_walker n p s
  = match snd (call f (params_of p) s) with
    | Ok v =>
        (with_log (log s ++ call_trace module n fn (params_of p)
                         ++ [Completed n])%list s,
         Ok (success_result n fn v))
    | Raise e =>
        if isinstance_Exception e
        then (with_log (log s ++ call_trace module n fn (params_of p)
                              ++ [ErrorExecuting n (str e); Traceback e])%list s,
              Ok (error_result n e))
        else (with_log (log s ++ call_trace module n fn (params_of p))%list s,
              Raise e)
    end.
Proof.
  intros Hm Hh Hsel Hf.
  unfold execute_walker, try_. unfold bind at 1. unfold gets at 1.
  rewrite Hm. unfold bind at 1. unfold deref at 1. rewrite Hh.
  unfold bind at 1. unfold logger at 1, modify at 1.
  unfold selected_function, default_function in Hsel.
  unfold call_trace, default_function.
  destruct (hasattr module _) eqn:Hhas; cbn [negb].
  - inversion Hsel; subst fn.
    unfold bind at 1. unfold ret at 1.
    unfold bind at 1. unfold getattr at 1. rewrite Hf. unfold ret at 1.
    unfold bind at 1. rewrite call_run.
    rewrite (call_frames f (params_of p) _ s) by reflexivity.
    destruct (snd (call f (params_of p) s)) as [v | e].
    + unfold bind, logger, modify, ret. cbn [fst snd].
      rewrite with_log_with_log. cbn [log with_log].
      rewrite <- app_assoc. reflexivity.
    + cbn [dispatch]. destruct (isinstance_Exception e).
      * unfold bind, logger, modify, ret. cbn [fst snd].
        rewrite !with_log_with_log. cbn [log with_log].
        rewrite <- !app_assoc. reflexivity.
      * reflexivity.
  - destruct (public_callables module) as [| first rest]; [discriminate | ].
    inversion Hsel; subst fn.
    unfold bind at 1. unfold bind at 1. unfold logger at 1, modify at 1.
    unfold ret at 1.
    unfold bind at 1. unfold getattr at 1. rewrite Hf. unfold ret at 1.
    unfold bind at 1. rewrite call_run.
    rewrite (call_frames f (params_of p) _ s) by reflexivity.
    destruct (snd (call f (params_of p) s)) as [v | e].
    + unfold bind, logger, modify, ret. cbn [fst snd].
      rewrite !with_log_with_log. cbn [log with_log].
      rewrite <- !app_assoc. reflexivity.
    + cbn [dispatch]. destruct (isinstance_Exception e).
      * unfold bind, logger, modify, ret. cbn [fst snd].
        rewrite !with_log_with_log. cbn [log with_log].
        rewrite <- !app_assoc. reflexivity.
      * unfold raise. rewrite with_log_with_log. cbn [log with_log].
        rewrite <- app_assoc. reflexivity.
Qed.

Lemma execute_walker_calls n p s r module fn f :
  dict_get (modules s) n = Some r ->
  nth_error (heap s) r = Some module ->
  selected_function module n = Some fn ->
  dict_get (obj_dict module) fn = Some f ->
  snd (execute_walker n p s)
  = result_of_call n fn (snd (call f (params_of p) s)).
Proof.
  intros Hm Hh Hsel Hf.
  rewrite (execute_walker_run n p s Hm Hh Hsel Hf).
  destruct (snd (call f (params_of p) s)) as [v | e]; [reflexivity | ].
  simpl. destruct (isinstance_Exception e); reflexivity.
Qed.

(** The runs of [execute_walker] that make no call: the name has no handle,
    or the handle has no function to call. *)
Lemma execute_walker_unloaded n p s :
  dict_get (modules s) n = None ->
  execute_walker n p s
  = (with_log (log s ++
       [ErrorExecuting n ("Walker module '" ++ n ++ "' is not loaded.");
        Traceback (mkExn ValueError
                     ("Walker module '" ++ n ++ "' is not loaded."))])%list s,
     Ok (error_result n
           (mkExn ValueError ("Walker module '" ++ n ++ "' is not loaded.")))).
Proof.
  intros Hm. unfold execute_walker, try_. unfold bind at 1. unfold gets at 1.
  rewrite Hm. unfold raise. cbn [dispatch isinstance_Exception exn_cls].
  unfold bind, logger, modify, ret. cbn [fst snd].
  rewrite with_log_with_log. cbn [log with_log str].
  rewrite <- app_assoc. reflexivity.
Qed.

Lemma execute_walker_bad_reference n p s r :
  dict_get (modules s) n = Some r ->
  nth_error (heap s) r = None ->
  execute_walker n p s
  = (with_log (log s ++
       [ErrorExecuting n "bad reference";
        Traceback (mkExn (OtherException "SystemError") "bad reference")])%list s,
     Ok (error_result n (mkExn (OtherException "SystemError") "bad reference"))).
Proof.
  intros Hm Hh. unfold execute_walker, try_. unfold bind at 1. unfold gets at 1.
  rewrite Hm. unfold bind at 1. unfold deref at 1. rewrite Hh.
  cbn [dispatch isinstance_Exception exn_cls].
  unfold bind, logger, modify, ret. cbn [fst snd].
  rewrite with_log_with_log. cbn [log with_log str].
  rewrite <- app_assoc. reflexivity.
Qed.

Lemma execute_walker_no_function_run n p s r module :
  dict_get (modules s) n = Some r ->
  nth_error (heap s) r = Some module ->
  selected_function module n = None ->
  execute_walker n p s
  = (with_log (log s ++
       [Executing n (params_of p);
        ErrorExecuting n ("No callable functions found in module '" ++ n ++ "'");
        Traceback (mkExn ValueError
                     ("No callable functions found in module '" ++ n ++ "'"))])%list s,
     Ok (error_result n (mkExn ValueError
           ("No callable functions found in module '" ++ n ++ "'")))).
Proof.
  intros Hm Hh Hsel.
  unfold execute_walker, try_. unfold bind at 1. unfold gets at 1.
  rewrite Hm. unfold bind at 1. unfold deref at 1. rewrite Hh.
  unfold bind at 1. unfold logger at 1, modify at 1.
  unfold selected_function, default_function in Hsel.
  unfold bind at 1.
  destruct (hasattr module _) eqn:Hhas; [discriminate | ]. cbn [negb].
  destruct (public_callables module) as [| first rest]; [ | discriminate].
  unfold raise. cbn [dispatch isinstance_Exception exn_cls].
  unfold bind, logger, modify, ret. cbn [fst snd].
  rewrite !with_log_with_log. cbn [log with_log str].
  rewrite <- !app_assoc. reflexivity.
Qed.

Lemma execute_walker_no_function n p s r module :
  dict_get (modules s) n = Some r ->
  nth_error (heap s) r = Some module ->
  selected_function module n = None ->
  snd (execute_walker n p s)
  = Ok (error_result n (mkExn ValueError
         ("No callable functions found in module '" ++ n ++ "'"))).
Proof.
  intros Hm Hh Hsel.
  rewrite (execute_walker_no_function_run n p s Hm Hh Hsel). reflexivity.
Qed.

(** C4, as the code has it.  [execute_walker] takes no operation hint.  For
    a loaded walker it calls the attribute named by [function_mapping] for
    the walker (or [{walker_name}_execute] for a name outside the mapping)
    when the module has an attribute of that name; otherwise the first
    public callable of the module in the order of [dir], which is the
    alphabetically least; and when there is none it returns a
    [status: error] result saying that no callable function was found.
    The result reports the function called; what becomes of an exception
    the call raises is the matter of C5. *)
Theorem execute_walker_selection
    (walker_name : string) (parameters : option (list (pyval * pyval)))
    (s : State) (r : ref) (module : object) :
  dict_get (modules s) walker_name = Some r ->
  nth_error (heap s) r = Some module ->
  let calls function_name :=
    exists f,
      dict_get (obj_dict module) function_name = Some f /\
      snd (execute_walker walker_name parameters s)
      = result_of_call walker_name function_name
          (snd (call f (params_of parameters) s)) in
  (hasattr module (default_function walker_name) = true ->
   calls (default_function walker_name)) /\
  (hasattr module (default_function walker_name) = false ->
   forall first rest, public_callables module = first :: rest ->
   calls first /\ least first (first :: rest)) /\
  (hasattr module (default_function walker_name) = false ->
   public_callables module = [] ->
   snd (execute_walker walker_name parameters s)
   = Ok (error_result walker_name (mkExn ValueError
          ("No callable functions found in module '" ++ walker_name ++ "'")))).
Proof.
  intros Hm Hh calls. subst calls. split; [ | split].
  - intros Hhas.
    assert (Hsel : selected_function module walker_name
                   = Some (default_function walker_name))
      by (unfold selected_function; rewrite Hhas; reflexivity).
    destruct (selected_function_bound _ _ Hsel) as (f & Hf).
    exists f. split; [exact Hf | ].
    eapply execute_walker_calls; eassumption.
  - intros Hhas first rest Hp.
    assert (Hsel : selected_function module walker_name = Some first)
      by (unfold selected_function; rewrite Hhas, Hp; reflexivity).
    destruct (selected_function_bound _ _ Hsel) as (f & Hf).
    split; [ | eapply public_callables_first_least; exact Hp].
    exists f. split; [exact Hf | ].
    eapply execute_walker_calls; eassumption.
  - intros Hhas Hp.
    eapply execute_walker_no_function; try eassumption.
    unfold selected_function; rewrite Hhas, Hp; reflexivity.
Qed.

(** In the mixed deployment [content_curator] has no function of the
    default name, and the first public callable in [dir] order is called. *)
Lemma execute_walker_selection_witness :
  dict_get (modules mixed_state) "content_curator" = Some 1 /\
  nth_error (heap mixed_state) 1 = Some content_curator_module /\
  snd (execute_walker "content_curator" None mixed_state)
  = Ok (success_result "content_curator" "find_content" (PStr "found")).
Proof.
  assert (Hm : dict_get (modules mixed_state) "content_curator" = Some 1)
    by reflexivity.
  assert (Hh : nth_error (heap mixed_state) 1 = Some content_curator_module)
    by reflexivity.
  split; [exact Hm | split; [exact Hh | ]].
  destruct (execute_walker_selection "content_curator" None mixed_state Hm Hh)
    as (_ & Hfirst & _).
  destruct (Hfirst eq_refl "find_content" ["rank_content"] eq_refl)
    as ((f & Hf & Hrun) & _).
  rewrite Hrun. inversion Hf; subst f. reflexivity.
Defined.

(** C4 as stated fails: the specification's rule would call the operation
    the hint names, here [start_lesson_sequence], which the handle exposes;
    [execute_walker] has no hint to look at and calls [init_user_graph]
    whatever the parameters. *)
Lemma operation_hint_not_honoured :
  snd (get_available_functions "orchestrator" mixed_state)
  = Ok ["init_user_graph"; "start_lesson_sequence"] /\
  spec_select_operation (Some "start_lesson_sequence") "orchestrator"
    ["init_user_graph"; "start_lesson_sequence"]
  = Some "start_lesson_sequence" /\
  snd (execute_walker "orchestrator" None mixed_state)
  = Ok (success_result "orchestrator" "init_user_graph" (PStr "graph ready")) /\
  forall parameters v,
    snd (execute_walker "orchestrator" parameters mixed_state) = Ok v ->
    field v "function_called" <> Some (PStr "start_lesson_sequence").
Proof.
  split; [reflexivity | split; [reflexivity | split; [reflexivity | ]]].
  intros parameters v.
  assert (Hm : dict_get (modules mixed_state) "orchestrator" = Some 0)
    by reflexivity.
  assert (Hh : nth_error (heap mixed_state) 0 = Some orchestrator_module)
    by reflexivity.
  rewrite (execute_walker_calls "orchestrator" parameters mixed_state
             (fn := "init_user_graph")
             (f := returns_ (PStr "graph ready")) Hm Hh eq_refl eq_refl).
  unfold call, returns_.
  destruct (kwargs_of (params_of parameters)) as [kwargs | e].
  - intros Hv. inversion Hv; subst v. intros H; cbv in H; discriminate H.
  - unfold raise, result_of_call. cbn [snd].
    destruct (isinstance_Exception e); [ | discriminate].
    intros Hv. inversion Hv; subst v. intros H; cbv in H; discriminate H.
Qed.

(** C5, as the code has it.  When the function selected for a loaded
    walker raises an exception [e], whatever the parameters: if [e] derives
    from [Exception], [execute_walker] does not raise; it returns a result
    whose [status] is [error], whose [message] is [str(e)] and whose
    [walker_name] is the walker asked for.  If [e] derives from
    [BaseException] only, as [SystemExit] and [KeyboardInterrupt] do, the
    clause [except Exception] does not apply and [e] goes on to the
    caller. *)
Theorem execute_walker_reports_exception
    (walker_name : string) (parameters : list (pyval * pyval))
    (s : State) (r : ref) (module : object)
    (function_name : string) (f : attr) (e : exn) :
  dict_get (modules s) walker_name = Some r ->
  nth_error (heap s) r = Some module ->
  selected_function module walker_name = Some function_name ->
  dict_get (obj_dict module) function_name = Some f ->
  snd (call f parameters s) = Raise e ->
  (isinstance_Exception e = true ->
   exists s' result,
     execute_walker walker_name (Some parameters) s = (s', Ok result) /\
     field result "status" = Some (PStr "error") /\
     field result "message" = Some (PStr (str e)) /\
     field result "walker_name" = Some (PStr walker_name)) /\
  (isinstance_Exception e = false ->
   exists s', execute_walker walker_name (Some parameters) s = (s', Raise e)).
Proof.
  intros Hm Hh Hsel Hf Hcall.
  rewrite (execute_walker_run walker_name (Some parameters) s Hm Hh Hsel Hf).
  cbn [params_of]. rewrite Hcall. split; intros He; rewrite He.
  - eexists _, _. split; [reflexivity | ]. repeat split.
  - eexists. reflexivity.
Qed.

(** The scenario of the specification: the entry function of [evaluator]
    raises [ValueError("boom")]; the result is an error whose message is
    [boom]. *)
Lemma execute_walker_reports_exception_witness :
  snd (call (raises_ (mkExn ValueError "boom")) [(PStr "x", PInt 1)]
            mixed_state)
  = Raise (mkExn ValueError "boom") /\
  isinstance_Exception (mkExn ValueError "boom") = true /\
  exists s' result,
    execute_walker "evaluator" (Some [(PStr "x", PInt 1)]) mixed_state
    = (s', Ok result) /\
    field result "status" = Some (PStr "error") /\
    field result "message" = Some (PStr "boom") /\
    field result "walker_name" = Some (PStr "evaluator").
Proof.
  split; [reflexivity | ]. split; [reflexivity | ].
  apply (@execute_walker_reports_exception
           "evaluator" [(PStr "x", PInt 1)] mixed_state 2 evaluator_module
           "evaluate_code_response" (raises_ (mkExn ValueError "boom"))
           (mkExn ValueError "boom")); reflexivity.
Defined.

(** C5 as stated fails: in a deployment whose walker functions end the
    process, the function selected for [orchestrator] raises [SystemExit] and
    [execute_walker] raises it to the caller instead of returning an error
    result. *)
Lemma execute_walker_propagates_system_exit :
  __init__ exiting_env fresh = (exiting_state, Ok tt) /\
  In "orchestrator" (keys walker_map) /\
  dict_get (modules exiting_state) "orchestrator" = Some 0 /\
  nth_error (heap exiting_state) 0 = Some exiting_module /\
  selected_function exiting_module "orchestrator" = Some "run" /\
  snd (call (raises_ (mkExn SystemExit "0")) [(PStr "x", PInt 1)] exiting_state)
  = Raise (mkExn SystemExit "0") /\
  snd (execute_walker "orchestrator" (Some [(PStr "x", PInt 1)]) exiting_state)
  = Raise (mkExn SystemExit "0").
Proof.
  split; [vm_compute; reflexivity | ].
  split; [simpl; auto | ].
  repeat split; vm_compute; reflexivity.
Qed.

(** C9, as the code has it.  For every walker name, loaded or not, and every
    parameters argument, a dictionary or [None], [execute_walker] returns a
    dictionary whose [status] is [success] or [error], with one exception:
    when the function it calls raises an exception that does not derive from
    [Exception], that exception reaches the caller.  Nothing else is ever
    raised. *)
Theorem execute_walker_total
    (walker_name : string) (parameters : option (list (pyval * pyval)))
    (s : State) :
  (exists s' d,
     execute_walker walker_name parameters s = (s', Ok (PDict d)) /\
     (pydict_get d "status" = Some (PStr "success") \/
      pydict_get d "status" = Some (PStr "error"))) \/
  (exists s' e r module function_name f,
     execute_walker walker_name parameters s = (s', Raise e) /\
     isinstance_Exception e = false /\
     dict_get (modules s) walker_name = Some r /\
     nth_error (heap s) r = Some module /\
     selected_function module walker_name = Some function_name /\
     dict_get (obj_dict module) function_name = Some f /\
     snd (call f (params_of parameters) s) = Raise e).
Proof.
  destruct (dict_get (modules s) walker_name) as [r |] eqn:Hm.
  2: { left. rewrite (execute_walker_unloaded walker_name parameters s Hm).
       eexists _, _. split; [reflexivity | right; reflexivity]. }
  destruct (nth_error (heap s) r) as [module |] eqn:Hh.
  2: { left.
       rewrite (execute_walker_bad_reference walker_name parameters s Hm Hh).
       eexists _, _. split; [reflexivity | right; reflexivity]. }
  destruct (selected_function module walker_name) as [fn |] eqn:Hsel.
  2: { left.
       rewrite (execute_walker_no_function_run walker_name parameters s
                  Hm Hh Hsel).
       eexists _, _. split; [reflexivity | right; reflexivity]. }
  destruct (selected_function_bound _ _ Hsel) as (f & Hf).
  rewrite (execute_walker_run walker_name parameters s Hm Hh Hsel Hf).
  destruct (snd (call f (params_of parameters) s)) as [v | e] eqn:Hcall.
  - left. eexists _, _. split; [reflexivity | left; reflexivity].
  - destruct (isinstance_Exception e) eqn:He.
    + left. eexists _, _. split; [reflexivity | right; reflexivity].
    + right. exists (with_log (log s ++ call_trace module walker_name fn
                                 (params_of parameters))%list s),
        e, r, module, fn, f.
      repeat split; assumption.
Qed.

(** C9 as stated fails: in the same deployment [execute_walker] raises
    [SystemExit] to the caller for [motivator] called without parameters. *)
Lemma execute_walker_raises_to_the_caller :
  __init__ exiting_env fresh = (exiting_state, Ok tt) /\
  snd (execute_walker "motivator" None exiting_state)
  = Raise (mkExn SystemExit "0") /\
  forall d, snd (execute_walker "motivator" None exiting_state)
            <> Ok (PDict d).
Proof.
  assert (H : snd (execute_walker "motivator" None exiting_state)
              = Raise (mkExn SystemExit "0")) by (vm_compute; reflexivity).
  split; [vm_compute; reflexivity | ]. split; [exact H | ].
  intros d. rewrite H. discriminate.
Qed.

(** * The loading chain *)

Section Strategies.

Variable env : Env.

(** Strategy 4 returns, and the name has a handle. *)
Lemma create_dummy_module_installs fr name s :
  wp (create_dummy_module fr name)
     (fun s' o => o = Ok tt /\ dict_in name (modules s') = true) s.
Proof.
  unfold create_dummy_module.
  apply wp_bind. unfold wp at 1. simpl.
  apply wp_bind. unfold wp at 1. simpl.
  apply wp_bind.
  eapply wp_conseq.
  { apply wp_and.
    - apply (wp_keeps (R := same_modules)).
      apply (keeps_for_each same_modules_refl same_modules_trans).
      intros m. apply (keeps_bind same_modules_trans); intros; intro; reflexivity.
    - apply for_each_ok. reflexivity. }
  simpl. intros s' o [Hm Ho]. rewrite Ho.
  unfold wp. simpl. split; [reflexivity | apply dict_in_set_same].
Qed.

(** Strategy 3, when it returns, has given the name a handle. *)
Lemma load_from_source_installs name s :
  wp (load_from_source env name)
     (fun s' o => o = Ok tt -> dict_in name (modules s') = true) s.
Proof.
  unfold load_from_source.
  destruct (os_path_exists env _); [ | unfold wp; simpl; discriminate].
  apply wp_bind. unfold wp at 1, lift. simpl.
  destruct (read_text env _) as [code | e]; [ | discriminate].
  apply wp_bind. unfold wp at 1. simpl.
  destruct (exec_code env code) as [ns | e]; [ | discriminate].
  apply wp_bind. unfold wp at 1. simpl.
  apply wp_bind.
  eapply wp_conseq.
  { apply (wp_keeps (R := same_modules)).
    apply (keeps_for_each same_modules_refl same_modules_trans).
    intros kv. destruct (_ && _)%bool; intro; reflexivity. }
  simpl. intros s' [[] | e] Hm; [ | discriminate].
  unfold wp. simpl. intros _. apply dict_in_set_same.
Qed.

Lemma import_module_raises name s :
  wp (import_module env name)
     (fun s' o => match o with
                  | Ok _ => True
                  | Raise e => find_and_exec env (sys_path s) name = Raise e
                  end) s.
Proof.
  unfold wp, import_module.
  destruct (dict_get (sys_modules s) name); simpl; [exact I | ].
  destruct (find_and_exec env (sys_path s) name); simpl; auto.
Qed.

(** Strategy 2 gives the name a handle or raises what the import raised. *)
Lemma import_by_name_installs name s :
  wp (import_by_name env name)
     (fun s' o => match o with
                  | Ok _ => dict_in name (modules s') = true
                  | Raise e => exists p, find_and_exec env p name = Raise e
                  end) s.
Proof.
  unfold import_by_name.
  apply wp_bind. unfold wp at 1. simpl.
  apply wp_bind.
  eapply wp_conseq; [apply import_module_raises | ].
  simpl. intros s' [r | e] H; [ | eauto].
  unfold wp. simpl. apply dict_in_set_same.
Qed.

(** Strategy 1 likewise. *)
Lemma import_by_path_installs name module_path s :
  wp (module <- import_module env module_path ;;
      modules_setitem name module ;;
      logger (LoadedModule name))
     (fun s' o => match o with
                  | Ok _ => dict_in name (modules s') = true
                  | Raise e => exists p, find_and_exec env p module_path = Raise e
                  end) s.
Proof.
  apply wp_bind.
  eapply wp_conseq; [apply import_module_raises | ].
  simpl. intros s' [r | e] H; [ | eauto].
  unfold wp. simpl. apply dict_in_set_same.
Qed.

(** Strategy 3 raises its own [ImportError] or what the reading or the
    execution of the file raised. *)
Lemma load_from_source_raises name s :
  wp (load_from_source env name)
     (fun s' o =>
        match o with
        | Ok _ => True
        | Raise e => isinstance_Exception e = true \/ raised_by_loading env e
        end) s.
Proof.
  unfold load_from_source.
  destruct (os_path_exists env _); [ | unfold wp; simpl; left; reflexivity].
  apply wp_bind. unfold wp at 1, lift. cbn [fst snd].
  destruct (read_text env _) as [code | e] eqn:Hread.
  2: { right. right. left. eauto. }
  apply wp_bind. unfold wp at 1. cbn [fst snd].
  destruct (exec_code env code) as [ns | e] eqn:Hexec.
  2: { right. right. right. eauto. }
  apply wp_bind. unfold wp at 1. cbn [alloc fst snd].
  apply wp_bind.
  eapply wp_conseq.
  { apply for_each_ok. intros kv s1.
    destruct (_ && _)%bool; reflexivity. }
  cbn beta. intros s' o ->. unfold wp. simpl. exact I.
Qed.

Lemma load_walker_outcome fr name module_path s :
  wp (load_walker env fr name module_path)
     (fun s' o =>
        match o with
        | Ok _ =>
            dict_in name (modules s') = true \/
            exists p e, find_and_exec env p module_path = Raise e /\
                        isinstance_ImportError e = false
        | Raise e =>
            isinstance_ImportError e = false /\
            ((exists p, find_and_exec env p name = Raise e) \/
             (isinstance_Exception e = false /\ raised_by_loading env e))
        end) s.
Proof.
  unfold load_walker. apply wp_try.
  eapply wp_conseq; [apply import_by_path_installs | ].
  cbn beta iota. intros s1 [[] | e] H1; [left; exact H1 | ].
  destruct H1 as (p1 & H1). cbn [dispatch].
  destruct (isinstance_ImportError e) eqn:E1.
  2: { destruct (isinstance_Exception e) eqn:X1.
       - unfold wp. simpl. right. eauto.
       - unfold wp. simpl. split; [exact E1 | ]. right.
         split; [exact X1 | left; eauto]. }
  apply wp_bind. unfold wp at 1. cbn [logger modify fst snd].
  apply wp_try.
  eapply wp_conseq; [apply import_by_name_installs | ].
  cbn beta iota. intros s2 [[] | e2] H2; [left; exact H2 | ].
  cbn [dispatch].
  destruct (isinstance_ImportError e2) eqn:E2.
  2: { unfold wp. simpl. split; [exact E2 | left; exact H2]. }
  apply wp_bind. unfold wp at 1. cbn [logger modify fst snd].
  apply wp_try.
  eapply wp_conseq.
  { apply wp_and; [apply load_from_source_installs
                  | apply load_from_source_raises]. }
  cbn beta iota. intros s3 [[] | e3] [H3 R3]; [left; auto | ].
  cbn [dispatch].
  destruct (isinstance_Exception e3) eqn:X3.
  - apply wp_bind. unfold wp at 1. cbn [logger modify fst snd].
    eapply wp_conseq; [apply create_dummy_module_installs | ].
    cbn beta. intros s4 o [-> H4]. left. exact H4.
  - unfold wp. simpl.
    destruct R3 as [R3 | R3]; [congruence | ].
    split; [ | right; split; assumption].
    destruct (isinstance_ImportError e3) eqn:E3; [ | reflexivity].
    rewrite (import_error_is_exception e3 E3) in X3. discriminate.
Qed.

End Strategies.

Lemma cache_grows_refl s : cache_grows s s.
Proof. intros k H. exact H. Qed.

Lemma cache_grows_trans a b c :
  cache_grows a b -> cache_grows b c -> cache_grows a c.
Proof. unfold cache_grows. auto. Qed.

Lemma cache_grows_modules_setitem name r : keeps cache_grows (modules_setitem name r).
Proof. intros s k H. simpl. apply dict_in_set_grows. exact H. Qed.

Lemma cache_grows_import_module env name : keeps cache_grows (import_module env name).
Proof.
  intros s. unfold import_module.
  destruct (dict_get (sys_modules s) name); [apply cache_grows_refl | ].
  destruct (find_and_exec env (sys_path s) name); intros k H; exact H.
Qed.

Ltac cache_grows_prim :=
  match goal with
  | |- keeps cache_grows (modules_setitem _ _) => apply cache_grows_modules_setitem
  | |- keeps cache_grows (import_module _ _) => apply cache_grows_import_module
  | |- keeps cache_grows _ =>
      intros ? ? ?; simpl;
      try match goal with
          | |- context [if ?b then _ else _] => destruct b
          end;
      assumption
  end.

Lemma cache_grows_load_walker env fr name module_path :
  keeps cache_grows (load_walker env fr name module_path).
Proof.
  unfold load_walker, import_by_name, load_from_source, create_dummy_module.
  keeps_steps cache_grows_refl cache_grows_trans.
  all: cache_grows_prim.
Qed.

Lemma cache_grows_initialize_walker env fr entry : keeps cache_grows (initialize_walker env fr entry).
Proof.
  unfold initialize_walker. apply (keeps_bind cache_grows_trans).
  - intros s k H. exact H.
  - intros _. apply cache_grows_load_walker.
Qed.

Lemma initialize_loop_outcome env fr l s :
  wp (for_each l (initialize_walker env fr))
     (fun s' o =>
        match o with
        | Ok _ =>
            forall name module_path,
              In (name, module_path) l ->
              import_errors_only env module_path ->
              dict_in name (modules s') = true
        | Raise e =>
            isinstance_ImportError e = false /\
            ((exists name p,
                In name (keys l) /\ find_and_exec env p name = Raise e) \/
             (isinstance_Exception e = false /\ raised_by_loading env e))
        end) s.
Proof.
  revert s. induction l as [| [name module_path] l IH]; intros s.
  - unfold wp. simpl. intros ? ? [].
  - simpl for_each. apply wp_bind.
    unfold initialize_walker at 1. simpl fst. simpl snd. cbv zeta.
    apply wp_bind. unfold wp at 1. simpl.
    eapply wp_conseq; [apply load_walker_outcome | ].
    simpl. intros s1 [[] | e] H1.
    + eapply wp_conseq.
      { apply wp_and; [apply IH | apply (wp_keeps (R := cache_grows)) ].
        apply (keeps_for_each cache_grows_refl cache_grows_trans).
        intros entry. apply cache_grows_initialize_walker. }
      simpl. intros s2 [[] | e2] [H2 Hg].
      * intros n mp [Heq | Hin] Hie.
        -- inversion Heq; subst n mp.
           destruct H1 as [H1 | (p & e & Hf & He)].
           ++ apply Hg. exact H1.
           ++ rewrite (Hie p e Hf) in He. discriminate.
        -- eapply H2; eassumption.
      * destruct H2 as [He [(n & p & Hin & Hf) | H2]].
        -- split; [exact He | left]. exists n, p. simpl. auto.
        -- split; [exact He | right; exact H2].
    + destruct H1 as [He [(p & Hf) | H1]].
      * split; [exact He | left]. exists name, p. simpl. auto.
      * split; [exact He | right; exact H1].
Qed.

Lemma dict_in_get V (d : list (string * V)) k :
  dict_in k d = true -> exists v, dict_get d k = Some v.
Proof. unfold dict_in. destruct (dict_get d k); [eauto | discriminate]. Qed.

(** ** Only registered names get a handle *)

Lemma registers_refl s : registers s s.
Proof. intros k H. left. exact H. Qed.

Lemma registers_trans a b c : registers a b -> registers b c -> registers a c.
Proof.
  intros Hab Hbc k H. destruct (Hbc k H) as [H' | H']; [apply Hab, H' | right; exact H'].
Qed.

Lemma registers_modules_setitem name r :
  In name (keys walker_map) -> keeps registers (modules_setitem name r).
Proof.
  intros Hin s k H. simpl in H. apply dict_in_keys in H. apply keys_dict_set in H.
  destruct H as [-> | H]; [right; exact Hin | left; apply dict_in_keys; exact H].
Qed.

Lemma registers_import_module env name : keeps registers (import_module env name).
Proof.
  intros s. unfold import_module.
  destruct (dict_get (sys_modules s) name); [apply registers_refl | ].
  destruct (find_and_exec env (sys_path s) name); intros k H; left; exact H.
Qed.

Ltac registers_prim Hin :=
  match goal with
  | |- keeps registers (modules_setitem _ _) => apply registers_modules_setitem; exact Hin
  | |- keeps registers (import_module _ _) => apply registers_import_module
  | |- keeps registers _ =>
      intros ? ? ?; left; simpl in *;
      try match goal with
          | H : context [if ?b then _ else _] |- _ => destruct b
          end;
      assumption
  end.

Lemma registers_load_walker env fr name module_path :
  In name (keys walker_map) ->
  keeps registers (load_walker env fr name module_path).
Proof.
  intros Hin.
  unfold load_walker, import_by_name, load_from_source, create_dummy_module.
  keeps_steps registers_refl registers_trans.
  all: registers_prim Hin.
Qed.

Lemma registers_init env : keeps registers (_initialize_walkers env).
Proof.
  unfold _initialize_walkers.
  apply (keeps_bind registers_trans); [intros s k H; left; exact H | intros fr].
  apply (keeps_for_each_in registers_refl registers_trans).
  intros [name module_path] Hin. unfold initialize_walker. simpl.
  apply (keeps_bind registers_trans); [intros s k H; left; exact H | intros _].
  apply registers_load_walker. unfold keys. apply (in_map fst _ _ Hin).
Qed.

Lemma init_registered_only env s0 : registered_only (fst (__init__ env s0)).
Proof.
  unfold __init__, bind, modify.
  pose proof (registers_init env (with_modules [] s0)) as H.
  destruct (_initialize_walkers env (with_modules [] s0)) as [s [[] | e]]; simpl in *;
  intros k Hk; destruct (H k Hk) as [H' | H']; try discriminate; exact H'.
Qed.

(** ** References stay valid *)

Lemma dict_get_set_cases V (d : list (string * V)) k v k' v' :
  dict_get (dict_set d k v) k' = Some v' -> v' = v \/ dict_get d k' = Some v'.
Proof.
  destruct (String.eqb_spec k' k) as [-> | Hne].
  - rewrite dict_get_set_same. intros H. inversion H. left. reflexivity.
  - rewrite dict_get_set_other by exact Hne. auto.
Qed.

Lemma length_list_update A (l : list A) i f :
  length (list_update l i f) = length l.
Proof.
  revert i. induction l as [| x l IH]; intros [| i]; simpl; auto.
Qed.

Lemma keeps_valid_refl s : keeps_valid s s.
Proof. intros H. exact H. Qed.

Lemma keeps_valid_trans a b c :
  keeps_valid a b -> keeps_valid b c -> keeps_valid a c.
Proof. unfold keeps_valid. auto. Qed.

Lemma same_shape_refl s : same_shape s s.
Proof. repeat split. Qed.

Lemma same_shape_trans a b c :
  same_shape a b -> same_shape b c -> same_shape a c.
Proof. unfold same_shape. intuition congruence. Qed.

Lemma same_shape_keeps_valid s s' : same_shape s s' -> keeps_valid s s'.
Proof.
  intros (Hm & Hs & Hl) [H1 H2]. unfold refs_valid.
  rewrite Hm, Hs, Hl. split; assumption.
Qed.

Lemma refs_valid_setitem name r s :
  r < length (heap s) -> refs_valid s ->
  refs_valid (with_modules (dict_set (modules s) name r) s).
Proof.
  intros Hr [H1 H2]. split; simpl; [ | exact H2].
  intros k r' H. destruct (dict_get_set_cases _ _ _ _ H) as [-> | H'];
    [exact Hr | eapply H1; exact H'].
Qed.

Lemma refs_valid_alloc o s :
  refs_valid s -> refs_valid (with_heap (heap s ++ [o]) s).
Proof.
  intros [H1 H2]. split; simpl; intros k r H; rewrite length_app; simpl.
  - specialize (H1 k r H). lia.
  - specialize (H2 k r H). lia.
Qed.

Section ValidStrategies.

Variable env : Env.

Lemma import_module_valid name s :
  refs_valid s ->
  wp (import_module env name)
     (fun s' o => refs_valid s' /\
                  match o with
                  | Ok r => r < length (heap s')
                  | Raise _ => True
                  end) s.
Proof.
  intros Hv. unfold wp, import_module.
  destruct (dict_get (sys_modules s) name) as [r |] eqn:E; simpl.
  - split; [exact Hv | ]. destruct Hv as [_ H2]. eapply H2; exact E.
  - destruct (find_and_exec env (sys_path s) name) as [ns | e]; simpl;
      [ | split; [exact Hv | exact I]].
    rewrite length_app. simpl. split; [ | lia].
    destruct (refs_valid_alloc
                (fold_left (fun o kv => setattr_obj (fst kv) (snd kv) o) ns
                           (mkObject PyModule [])) Hv) as [H1 H2].
    split; simpl; [exact H1 | ].
    intros k r H. destruct (dict_get_set_cases _ _ _ _ H) as [-> | H'].
    + rewrite length_app. simpl. lia.
    + eapply H2. exact H'.
Qed.

Lemma import_and_set_valid name module_name (rec : log_record) :
  keeps keeps_valid
    (module <- import_module env module_name ;;
     modules_setitem name module ;;
     logger rec).
Proof.
  intros s Hv. pose proof (import_module_valid module_name Hv) as H.
  unfold wp in H. unfold bind.
  destruct (import_module env module_name s) as [s1 [r | e]]; simpl in *.
  - destruct H as [Hv1 Hr].
    destruct (refs_valid_setitem name Hr Hv1) as [H1 H2]. split; assumption.
  - apply H.
Qed.

Lemma same_shape_setattr_loop A (l : list A) (body : A -> M unit) :
  (forall x, keeps same_shape (body x)) -> keeps same_shape (for_each l body).
Proof. apply (keeps_for_each same_shape_refl same_shape_trans). Qed.

Lemma same_shape_setattr r k a : keeps same_shape (setattr r k a).
Proof.
  intros s. repeat split. simpl. apply length_list_update.
Qed.

Lemma alloc_fill_set_valid (o : object) (fill : ref -> M unit) name
    (rec : log_record) :
  (forall r, keeps same_shape (fill r)) ->
  keeps keeps_valid
    (module <- alloc o ;;
     fill module ;;
     modules_setitem name module ;;
     logger rec).
Proof.
  intros Hfill s Hv. unfold bind at 1. unfold alloc at 1.
  unfold bind at 1.
  pose proof (Hfill (length (heap s)) (with_heap (heap s ++ [o]) s)) as Hs.
  pose proof (refs_valid_alloc o Hv) as Hv1.
  destruct (fill (length (heap s)) (with_heap (heap s ++ [o]) s))
    as [s1 [[] | e]]; simpl in *.
  - pose proof (same_shape_keeps_valid Hs Hv1) as Hv2.
    assert (Hr : length (heap s) < length (heap s1)).
    { destruct Hs as (_ & _ & Hl). rewrite Hl. simpl.
      rewrite length_app. simpl. lia. }
    destruct (refs_valid_setitem name Hr Hv2) as [H1 H2]. split; assumption.
  - apply (same_shape_keeps_valid Hs Hv1).
Qed.

Lemma keeps_valid_logger r : keeps keeps_valid (logger r).
Proof. intros s Hv. exact Hv. Qed.

Lemma keeps_valid_create_dummy_module fr name :
  keeps keeps_valid (create_dummy_module fr name).
Proof.
  unfold create_dummy_module.
  apply (keeps_bind keeps_valid_trans); [apply keeps_valid_logger | intros _].
  apply (alloc_fill_set_valid _
           (fun module => for_each _ (fun method_name =>
              bind_method_name fr method_name ;;
              setattr module method_name (ACallable (FallbackMethod fr))))).
  intros r. apply same_shape_setattr_loop. intros m.
  apply (keeps_bind same_shape_trans);
    [intros s; repeat split | intros _; apply same_shape_setattr].
Qed.

Lemma keeps_valid_load_from_source name :
  keeps keeps_valid (load_from_source env name).
Proof.
  unfold load_from_source.
  destruct (os_path_exists env _);
    [ | apply keeps_raise, keeps_valid_refl].
  apply (keeps_bind keeps_valid_trans);
    [apply keeps_lift, keeps_valid_refl | intros code].
  apply (keeps_bind keeps_valid_trans);
    [apply keeps_lift, keeps_valid_refl | intros ns].
  apply (alloc_fill_set_valid _
           (fun module => for_each (namespace_dict ns) (fun kv =>
              if (negb (startswith (fst kv) "_") && callable_ (snd kv))%bool
              then setattr module (fst kv) (snd kv)
              else ret tt))).
  intros r. apply same_shape_setattr_loop. intros kv.
  destruct (_ && _)%bool;
    [apply same_shape_setattr | apply keeps_ret, same_shape_refl].
Qed.

Lemma keeps_valid_import_by_name name :
  keeps keeps_valid (import_by_name env name).
Proof.
  unfold import_by_name.
  apply (keeps_bind keeps_valid_trans); [ | intros _; apply import_and_set_valid].
  intros s Hv. simpl. destruct (existsb _ _); exact Hv.
Qed.

Lemma keeps_valid_load_walker fr name module_path :
  keeps keeps_valid (load_walker env fr name module_path).
Proof.
  unfold load_walker.
  apply (keeps_try keeps_valid_refl keeps_valid_trans);
    [apply import_and_set_valid | ].
  repeat (apply Forall_cons; [cbn [snd]; intros ? | ]); try apply Forall_nil.
  - apply (keeps_bind keeps_valid_trans); [apply keeps_valid_logger | intros _].
    apply (keeps_try keeps_valid_refl keeps_valid_trans);
      [apply keeps_valid_import_by_name | ].
    repeat (apply Forall_cons; [cbn [snd]; intros ? | ]); try apply Forall_nil.
    apply (keeps_bind keeps_valid_trans); [apply keeps_valid_logger | intros _].
    apply (keeps_try keeps_valid_refl keeps_valid_trans);
      [apply keeps_valid_load_from_source | ].
    repeat (apply Forall_cons; [cbn [snd]; intros ? | ]); try apply Forall_nil.
    apply (keeps_bind keeps_valid_trans); [apply keeps_valid_logger | intros _].
    apply keeps_valid_create_dummy_module.
  - apply keeps_valid_logger.
Qed.

Lemma keeps_valid_initialize_walkers :
  keeps keeps_valid (_initialize_walkers env).
Proof.
  unfold _initialize_walkers.
  apply (keeps_bind keeps_valid_trans); [intros s Hv; exact Hv | intros fr].
  apply (keeps_for_each keeps_valid_refl keeps_valid_trans). intros entry.
  unfold initialize_walker.
  apply (keeps_bind keeps_valid_trans); [intros s Hv; exact Hv | intros _].
  apply keeps_valid_load_walker.
Qed.

Lemma same_shape_importlib_reload r : keeps same_shape (importlib_reload env r).
Proof.
  intros s. unfold importlib_reload, bind, deref.
  destruct (nth_error (heap s) r) as [o |]; [ | apply same_shape_refl].
  destruct (obj_cls o); try apply same_shape_refl.
  destruct (reexec env r (obj_dict o)) as [ns [e |]];
    repeat split; simpl; apply length_list_update.
Qed.

Lemma same_shape_reload_walkers : keeps same_shape (reload_walkers env).
Proof.
  unfold reload_walkers.
  apply (keeps_try same_shape_refl same_shape_trans).
  - apply (keeps_bind same_shape_trans);
      [apply keeps_gets, same_shape_refl | intros items].
    apply (keeps_bind same_shape_trans);
      [ | intros _; apply keeps_ret, same_shape_refl].
    apply (keeps_for_each same_shape_refl same_shape_trans). intros item.
    unfold reload_item.
    apply (keeps_bind same_shape_trans);
      [apply same_shape_importlib_reload
      | intros _; apply keeps_ret, same_shape_refl].
  - repeat (apply Forall_cons; [cbn [snd]; intros ? | ]); try apply Forall_nil.
    apply (keeps_bind same_shape_trans);
      [intros s; repeat split | intros _; apply keeps_ret, same_shape_refl].
Qed.

End ValidStrategies.

Ltac same_shape_prim :=
  match goal with
  | |- keeps same_shape (call _ _) =>
      intros ?; rewrite call_state; apply same_shape_refl
  | |- keeps same_shape (deref _) =>
      intros ?; rewrite deref_state; apply same_shape_refl
  | |- keeps same_shape (getattr _ _) =>
      intros ?; rewrite getattr_state; apply same_shape_refl
  | |- keeps same_shape _ => intros ?; repeat split
  end.

Lemma same_shape_execute_walker n p : keeps same_shape (execute_walker n p).
Proof.
  unfold execute_walker.
  keeps_steps same_shape_refl same_shape_trans; same_shape_prim.
Qed.

Lemma same_shape_get_available_functions n :
  keeps same_shape (get_available_functions n).
Proof.
  unfold get_available_functions.
  keeps_steps same_shape_refl same_shape_trans; same_shape_prim.
Qed.

Lemma same_shape_get_walker_module n : keeps same_shape (get_walker_module n).
Proof.
  unfold get_walker_module.
  keeps_steps same_shape_refl same_shape_trans; same_shape_prim.
Qed.

Lemma same_shape_get_available_walkers : keeps same_shape get_available_walkers.
Proof.
  unfold get_available_walkers.
  keeps_steps same_shape_refl same_shape_trans; same_shape_prim.
Qed.

Lemma same_shape_health_check : keeps same_shape health_check.
Proof.
  unfold health_check.
  keeps_steps same_shape_refl same_shape_trans; same_shape_prim.
Qed.

Lemma init_refs_valid env s0 :
  sys_modules_valid s0 -> refs_valid (fst (__init__ env s0)).
Proof.
  intros Hs. unfold __init__, bind, modify.
  assert (H : keeps_valid (with_modules [] s0)
                (fst (_initialize_walkers env (with_modules [] s0))))
    by apply keeps_valid_initialize_walkers.
  destruct (_initialize_walkers env (with_modules [] s0)) as [s [[] | e]];
    simpl in *; apply H; (split; [intros k r Hk; discriminate | exact Hs]).
Qed.

(** Over the life of a manager every cached handle points to an object. *)
Lemma lifetime_refs_valid s0 s :
  sys_modules_valid s0 -> lifetime s0 s -> refs_valid s.
Proof.
  intros Hs.
  induction 1 as [env s Hinit | n s _ IH | n s _ IH | n p s _ IH | s _ IH
                 | env s _ IH | s _ IH].
  - pose proof (init_refs_valid env Hs) as H. rewrite Hinit in H. exact H.
  - exact (same_shape_keeps_valid (same_shape_get_walker_module n s) IH).
  - exact (same_shape_keeps_valid (same_shape_get_available_functions n s) IH).
  - exact (same_shape_keeps_valid (same_shape_execute_walker n p s) IH).
  - exact (same_shape_keeps_valid (same_shape_get_available_walkers s) IH).
  - exact (same_shape_keeps_valid (same_shape_reload_walkers env s) IH).
  - exact (same_shape_keeps_valid (same_shape_health_check s) IH).
Qed.

Lemma cached_handle_is_an_object s0 s name r :
  sys_modules_valid s0 -> lifetime s0 s ->
  dict_get (modules s) name = Some r ->
  exists o, nth_error (heap s) r = Some o.
Proof.
  intros Hs Hlife Hget.
  destruct (lifetime_refs_valid Hs Hlife) as [H1 _].
  specialize (H1 name r Hget).
  destruct (nth_error (heap s) r) as [o |] eqn:E; [eauto | ].
  apply nth_error_None in E. lia.
Qed.

(** C1, as the code has it.  Strategies 1 and 2 fall through on
    [ImportError] only, strategy 3 on any exception that derives from
    [Exception], and the dummy module of strategy 4 never fails.  So when
    loading raises nothing but exceptions that derive from [Exception], and
    the import by bare name raises nothing but [ImportError] for the
    registered names, [__init__] returns; and every registered name whose
    import by path raises nothing but [ImportError] then has a handle, which
    [get_walker_module] returns and which points to an object. *)
Theorem initialization_installs_handles (env : Env) (s0 : State) :
  sys_modules_valid s0 ->
  ordinary_errors env ->
  (forall name, In name (keys walker_map) -> import_errors_only env name) ->
  exists s,
    __init__ env s0 = (s, Ok tt) /\
    forall name module_path,
      In (name, module_path) walker_map ->
      import_errors_only env module_path ->
      exists module o,
        get_walker_module name s = (s, Ok module) /\
        nth_error (heap s) module = Some o.
Proof.
  intros Hsys Hord Hs2.
  assert (H : wp (__init__ env)
     (fun s' o =>
        o = Ok tt /\
        forall name module_path,
          In (name, module_path) walker_map ->
          import_errors_only env module_path ->
          dict_in name (modules s') = true) s0).
  { unfold __init__, _initialize_walkers.
    apply wp_bind. unfold wp at 1. cbn [modify fst snd].
    apply wp_bind. unfold wp at 1. cbn [new_frame fst snd].
    eapply wp_conseq; [apply (initialize_loop_outcome env) | ].
    simpl. intros s' [[] | e] H.
    - split; [reflexivity | exact H].
    - destruct H as [He [(n & p & Hin & Hf) | [Hx Hr]]].
      + rewrite (Hs2 n Hin p e Hf) in He. discriminate.
      + destruct Hord as (H1 & H2 & H3).
        destruct Hr as [(p & n & Hf) | [(path & Hf) | (code & Hf)]].
        * rewrite (H1 p n e Hf) in Hx. discriminate.
        * rewrite (H2 path e Hf) in Hx. discriminate.
        * rewrite (H3 code e Hf) in Hx. discriminate. }
  unfold wp in H. destruct (__init__ env s0) as [s o] eqn:Hinit. simpl in H.
  destruct H as [-> H]. exists s. split; [reflexivity | ].
  intros name module_path Hin Hie.
  destruct (dict_in_get _ _ (H name module_path Hin Hie)) as (r & Hr).
  destruct (cached_handle_is_an_object (s0 := s0) (s := s) name Hsys
              (life_init s0 env Hinit) Hr) as (o & Ho).
  exists r, o. split; [ | exact Ho].
  unfold get_walker_module, bind, gets. simpl. rewrite Hr. reflexivity.
Qed.

Lemma late_env_import_errors_only name : import_errors_only late_env name.
Proof.
  intros p e H. simpl in H.
  destruct (_ || _)%bool in H; inversion H. reflexivity.
Defined.

Lemma late_env_ordinary_errors : ordinary_errors late_env.
Proof.
  split; [ | split].
  - intros p name e H. simpl in H.
    destruct (_ || _)%bool in H; inversion H. reflexivity.
  - intros path e H. inversion H. reflexivity.
  - intros code e H. discriminate H.
Defined.

(** In [late_env] every import failure is a [ModuleNotFoundError];
    [orchestrator], which is absent, gets the dummy module. *)
Lemma fresh_sys_modules_valid : sys_modules_valid fresh.
Proof. intros k r H. discriminate H. Defined.

Lemma initialization_installs_handles_witness :
  sys_modules_valid fresh /\
  ordinary_errors late_env /\
  (forall name, In name (keys walker_map) -> import_errors_only late_env name) /\
  import_errors_only late_env "jac_layer.walkers.orchestrator" /\
  exists s,
    __init__ late_env fresh = (s, Ok tt) /\
    exists module o,
      get_walker_module "orchestrator" s = (s, Ok module) /\
      nth_error (heap s) module = Some o.
Proof.
  split; [exact fresh_sys_modules_valid | ].
  split; [exact late_env_ordinary_errors | ].
  split; [intros name _; apply late_env_import_errors_only | ].
  split; [apply late_env_import_errors_only | ].
  destruct (initialization_installs_handles (env := late_env)
              fresh_sys_modules_valid late_env_ordinary_errors
              (fun name _ => late_env_import_errors_only name))
    as (s & Hs & Hall).
  exists s. split; [exact Hs | ].
  apply (Hall "orchestrator" "jac_layer.walkers.orchestrator").
  - left. reflexivity.
  - apply late_env_import_errors_only.
Defined.

(** C1 as stated fails: in the mixed deployment the import of
    [quiz_master] raises [SyntaxError]; the error is logged as unexpected,
    no further strategy runs, and the registered name has no handle. *)
Lemma unexpected_error_leaves_no_handle :
  In "quiz_master" (keys walker_map) /\
  __init__ mixed_env fresh = (mixed_state, Ok tt) /\
  nth_error (log mixed_state) 2
  = Some (UnexpectedError "quiz_master"
            (mkExn SyntaxError "invalid syntax (quiz_master.jac, line 1)")) /\
  get_walker_module "quiz_master" mixed_state
  = (mixed_state,
     Raise (mkExn ValueError "Module quiz_master is not loaded.")).
Proof.
  split; [simpl; auto | ].
  split; [vm_compute; reflexivity | ].
  split; vm_compute; reflexivity.
Qed.


(** ** The cache after initialization *)

Lemma same_modules_importlib_reload env r : keeps same_modules (importlib_reload env r).
Proof.
  unfold importlib_reload.
  keeps_steps same_modules_refl same_modules_trans.
  all: intros s; unfold deref; simpl;
       repeat match goal with
              | |- context [match ?x with _ => _ end] => destruct x
              | |- context [let (_, _) := ?x in _] => destruct x
              end; reflexivity.
Qed.

Lemma same_modules_reload_walkers env : keeps same_modules (reload_walkers env).
Proof.
  unfold reload_walkers.
  keeps_steps same_modules_refl same_modules_trans.
  all: intros s; unfold deref; simpl;
       repeat match goal with
              | |- context [match ?x with _ => _ end] => destruct x
              | |- context [let (_, _) := ?x in _] => destruct x
              end; reflexivity.
Qed.

Lemma same_cache_modules s s' : same_cache s s' -> same_modules s s'.
Proof. intros [H _]. exact H. Qed.

Lemma lifetime_registered_only s0 s : lifetime s0 s -> registered_only s.
Proof.
  induction 1 as [env s Hinit | n s _ IH | n s _ IH | n p s _ IH | s _ IH
                 | env s _ IH | s _ IH].
  - pose proof (init_registered_only env s0) as H. rewrite Hinit in H. exact H.
  - unfold registered_only. rewrite (same_cache_modules (same_cache_get_walker_module n s)). exact IH.
  - unfold registered_only. rewrite (same_cache_modules (same_cache_get_available_functions n s)). exact IH.
  - unfold registered_only. rewrite (same_cache_modules (same_cache_execute_walker n p s)). exact IH.
  - unfold registered_only. rewrite (same_cache_modules (same_cache_get_available_walkers s)). exact IH.
  - unfold registered_only. rewrite (same_modules_reload_walkers env s). exact IH.
  - unfold registered_only. rewrite (same_cache_modules (same_cache_health_check s)). exact IH.
Qed.

(** C2, as the code has it.  For a name that is not registered, at any
    time in the life of a manager, [get_walker_module] raises [ValueError]
    and leaves the state as it was; [execute_walker] does not raise: it
    returns a [status: error] result saying that the walker module is not
    loaded, and leaves the cache as it was. *)
Theorem unregistered_name_is_an_error
    (s0 s : State) (name : string) (parameters : option (list (pyval * pyval))) :
  lifetime s0 s ->
  ~ In name (keys walker_map) ->
  get_walker_module name s
  = (s, Raise (mkExn ValueError ("Module " ++ name ++ " is not loaded."))) /\
  snd (execute_walker name parameters s)
  = Ok (error_result name
          (mkExn ValueError ("Walker module '" ++ name ++ "' is not loaded."))) /\
  same_cache s (fst (execute_walker name parameters s)).
Proof.
  intros Hlife Hnot.
  assert (Hget : dict_get (modules s) name = None).
  { destruct (dict_get (modules s) name) eqn:E; [ | reflexivity].
    exfalso. apply Hnot. apply (lifetime_registered_only Hlife).
    unfold dict_in. rewrite E. reflexivity. }
  split; [ | split].
  - unfold get_walker_module, bind, gets. simpl. rewrite Hget. reflexivity.
  - unfold execute_walker, try_, bind, gets. simpl. rewrite Hget. reflexivity.
  - apply same_cache_execute_walker.
Qed.

(** [grader] is not a registered name. *)
Lemma unregistered_name_is_an_error_witness :
  lifetime fresh mixed_state /\
  ~ In "grader" (keys walker_map) /\
  get_walker_module "grader" mixed_state
  = (mixed_state, Raise (mkExn ValueError "Module grader is not loaded.")) /\
  snd (execute_walker "grader" None mixed_state)
  = Ok (error_result "grader"
          (mkExn ValueError "Walker module 'grader' is not loaded.")) /\
  same_cache mixed_state (fst (execute_walker "grader" None mixed_state)).
Proof.
  assert (Hlife : lifetime fresh mixed_state)
    by (apply life_init with (env := mixed_env); vm_compute; reflexivity).
  assert (Hnot : ~ In "grader" (keys walker_map))
    by (simpl; intuition discriminate).
  split; [exact Hlife | split; [exact Hnot | ]].
  exact (unregistered_name_is_an_error (name := "grader") None Hlife Hnot).
Defined.

(** C2 as stated fails for [execute_walker]: asked for an unregistered
    name it returns a result and raises nothing. *)
Lemma execute_walker_does_not_raise_for_unregistered :
  ~ In "grader" (keys walker_map) /\
  lifetime fresh mixed_state /\
  (forall e, snd (execute_walker "grader" None mixed_state) <> Raise e) /\
  snd (execute_walker "grader" None mixed_state)
  = Ok (PDict [ (PStr "status", PStr "error");
                (PStr "message", PStr "Walker module 'grader' is not loaded.");
                (PStr "walker_name", PStr "grader") ]).
Proof.
  split; [simpl; intuition discriminate | ].
  split; [apply life_init with (env := mixed_env); vm_compute; reflexivity | ].
  split; [intros e; vm_compute; discriminate | vm_compute; reflexivity].
Qed.

(** ** Counting the runs of the loading chain *)

Ltac reduce_state :=
  unfold wp, bind, logger, modules_setitem, modify, ret;
  unfold with_log, with_modules, with_heap, with_frames, with_sys_path,
    with_sys_modules;
  simpl.

Lemma pipeline_runs_snoc k l r :
  pipeline_runs k (l ++ [r])%list
  = pipeline_runs k l + (if strategy1_verdict k r then 1 else 0).
Proof.
  unfold pipeline_runs. rewrite filter_app, length_app. simpl.
  destruct (strategy1_verdict k r); reflexivity.
Qed.

Lemma no_new_run_refl s : no_new_run s s.
Proof. intros k. reflexivity. Qed.

Lemma no_new_run_trans a b c : no_new_run a b -> no_new_run b c -> no_new_run a c.
Proof. intros H1 H2 k. rewrite H2. apply H1. Qed.

Lemma same_log_no_new_run s s' : log s' = log s -> no_new_run s s'.
Proof. intros H k. rewrite H. reflexivity. Qed.

Lemma import_module_log env name s : log (fst (import_module env name s)) = log s.
Proof.
  unfold import_module.
  destruct (dict_get (sys_modules s) name); [reflexivity | ].
  destruct (find_and_exec env (sys_path s) name); reflexivity.
Qed.

Ltac no_new_run_prim :=
  match goal with
  | |- keeps no_new_run (call _ _) =>
      intros ?; rewrite call_state; apply no_new_run_refl
  | |- keeps no_new_run (import_module _ _) =>
      intros ?; apply same_log_no_new_run, import_module_log
  | |- keeps no_new_run _ =>
      intros ? ?; unfold deref, getattr; simpl;
      repeat match goal with
             | |- context [match ?x with _ => _ end] => destruct x
             | |- context [let (_, _) := ?x in _] => destruct x
             end;
      simpl; rewrite ?pipeline_runs_snoc; simpl; lia
  end.

Lemma no_new_run_execute_walker n p : keeps no_new_run (execute_walker n p).
Proof.
  unfold execute_walker.
  keeps_steps no_new_run_refl no_new_run_trans; no_new_run_prim.
Qed.

Lemma no_new_run_get_walker_module n : keeps no_new_run (get_walker_module n).
Proof.
  unfold get_walker_module.
  keeps_steps no_new_run_refl no_new_run_trans; no_new_run_prim.
Qed.

Lemma no_new_run_get_available_functions n :
  keeps no_new_run (get_available_functions n).
Proof.
  unfold get_available_functions.
  keeps_steps no_new_run_refl no_new_run_trans; no_new_run_prim.
Qed.

Lemma no_new_run_get_available_walkers : keeps no_new_run get_available_walkers.
Proof.
  unfold get_available_walkers.
  keeps_steps no_new_run_refl no_new_run_trans; no_new_run_prim.
Qed.

Lemma no_new_run_health_check : keeps no_new_run health_check.
Proof.
  unfold health_check.
  keeps_steps no_new_run_refl no_new_run_trans; no_new_run_prim.
Qed.

Lemma no_new_run_reload_walkers env : keeps no_new_run (reload_walkers env).
Proof.
  unfold reload_walkers.
  keeps_steps no_new_run_refl no_new_run_trans; no_new_run_prim.
Qed.

(** After the verdict on strategy 1 the run writes no further verdict. *)
Lemma no_new_run_after_strategy1 env fr name :
  keeps no_new_run
    (try_ (import_by_name env name)
       [ (isinstance_ImportError, fun e2 =>
           logger (Strategy2Failed name e2) ;;
           try_ (load_from_source env name)
             [ (isinstance_Exception, fun e3 =>
                 logger (Strategy3Failed name e3) ;;
                 create_dummy_module fr name) ]) ]).
Proof.
  unfold import_by_name, load_from_source, create_dummy_module.
  keeps_steps no_new_run_refl no_new_run_trans; no_new_run_prim.
Qed.

Lemma one_more_run_at_most name s s' :
  one_more_run name s s' ->
  forall k, pipeline_runs k (log s')
            <= pipeline_runs k (log s) + (if String.eqb name k then 1 else 0).
Proof. intros H k. rewrite (H k). lia. Qed.

(** One run of the [try] statement writes at most one verdict of strategy
    1 for [name], and exactly one when it returns. *)
Lemma load_walker_runs_once env fr name module_path s :
  wp (load_walker env fr name module_path)
     (fun s' o =>
        (forall k, pipeline_runs k (log s')
                   <= pipeline_runs k (log s)
                      + (if String.eqb name k then 1 else 0)) /\
        (forall u, o = Ok u -> one_more_run name s s')) s.
Proof.
  assert (Hboth : forall s' (o : outcome unit),
            one_more_run name s s' ->
            (forall k, pipeline_runs k (log s')
                       <= pipeline_runs k (log s)
                          + (if String.eqb name k then 1 else 0)) /\
            (forall u, o = Ok u -> one_more_run name s s')).
  { intros s' o H. split; [apply one_more_run_at_most, H | intros _ _; exact H]. }
  unfold load_walker. apply wp_try. apply wp_bind.
  unfold wp at 1.
  pose proof (import_module_log env module_path s) as Hlog.
  destruct (import_module env module_path s) as [s1 [r | e]]; cbn [fst snd] in *.
  - apply Hboth. reduce_state. intros k. simpl.
    rewrite pipeline_runs_snoc, Hlog. reflexivity.
  - cbn [dispatch]. destruct (isinstance_ImportError e).
    + apply wp_bind. unfold wp at 1. cbn [logger modify fst snd].
      eapply wp_conseq; [apply wp_keeps, (no_new_run_after_strategy1 env fr name) | ].
      cbn beta. intros s2 o H. apply Hboth. intros k. rewrite H.
      cbn [log with_log].
      rewrite pipeline_runs_snoc, Hlog. reflexivity.
    + destruct (isinstance_Exception e).
      * apply Hboth. reduce_state. intros k. simpl.
        rewrite pipeline_runs_snoc, Hlog. reflexivity.
      * unfold wp, raise. cbn [fst snd]. split.
        -- intros k. rewrite Hlog. lia.
        -- intros u Hu. discriminate Hu.
Qed.

Lemma initialize_loop_runs env fr l s :
  wp (for_each l (initialize_walker env fr))
     (fun s' _ => forall k,
        pipeline_runs k (log s')
        <= pipeline_runs k (log s) + count_occ string_dec (keys l) k) s.
Proof.
  revert s. induction l as [| [name module_path] l IH]; intros s.
  - unfold wp. simpl. intros k. lia.
  - simpl for_each. apply wp_bind.
    unfold initialize_walker at 1. cbn [fst snd]. cbv zeta.
    apply wp_bind. unfold wp at 1. cbn [bind_name modify fst snd].
    eapply wp_conseq; [apply load_walker_runs_once | ].
    cbn beta. intros s1 o [H1 _].
    assert (Hle : forall k, pipeline_runs k (log s1)
              <= pipeline_runs k (log s) + (if String.eqb name k then 1 else 0))
      by (intros k; apply (H1 k)).
    assert (Hcount : forall k, (if String.eqb name k then 1 else 0)
                     + count_occ string_dec (keys l) k
                     = count_occ string_dec (keys ((name, module_path) :: l)) k).
    { intros k. simpl. destruct (string_dec name k) as [-> | Hne].
      - rewrite String.eqb_refl. reflexivity.
      - destruct (String.eqb_spec name k); [contradiction | reflexivity]. }
    destruct o as [[] | e].
    + eapply wp_conseq; [apply IH | ].
      cbn beta. intros s2 _ H2 k. specialize (H2 k). specialize (Hle k).
      rewrite <- Hcount. lia.
    + intros k. specialize (Hle k). rewrite <- Hcount. lia.
Qed.

Lemma walker_map_keys_NoDup : NoDup (keys walker_map).
Proof.
  unfold keys, walker_map. simpl.
  repeat (constructor; [simpl; intuition discriminate | ]). constructor.
Qed.

Lemma init_runs_at_most_once env s0 k :
  pipeline_runs k (log (fst (__init__ env s0))) <= pipeline_runs k (log s0) + 1.
Proof.
  assert (H : wp (__init__ env)
     (fun s' _ => forall k, pipeline_runs k (log s')
         <= pipeline_runs k (log s0) + count_occ string_dec (keys walker_map) k) s0).
  { unfold __init__, _initialize_walkers.
    apply wp_bind. unfold wp at 1. cbn [modify fst snd].
    apply wp_bind. unfold wp at 1. cbn [new_frame fst snd].
    eapply wp_conseq; [apply (initialize_loop_runs env) | ].
    cbn beta. intros s' _ H. exact H. }
  unfold wp in H. specialize (H k).
  pose proof (proj1 (NoDup_count_occ string_dec _) walker_map_keys_NoDup k).
  lia.
Qed.

Lemma lifetime_runs_at_most_once s0 s k :
  lifetime s0 s -> pipeline_runs k (log s) <= pipeline_runs k (log s0) + 1.
Proof.
  induction 1 as [env s Hinit | n s _ IH | n s _ IH | n p s _ IH | s _ IH
                 | env s _ IH | s _ IH].
  - pose proof (init_runs_at_most_once env s0 k) as H. rewrite Hinit in H. exact H.
  - rewrite (no_new_run_get_walker_module n s k). exact IH.
  - rewrite (no_new_run_get_available_functions n s k). exact IH.
  - rewrite (no_new_run_execute_walker n p s k). exact IH.
  - rewrite (no_new_run_get_available_walkers s k). exact IH.
  - rewrite (no_new_run_reload_walkers env s k). exact IH.
  - rewrite (no_new_run_health_check s k). exact IH.
Qed.

(** * The cache *)

(** C6, as the code has it.  [get_walker_module] only reads the cache and
    leaves the state as it was.  For a name that has a handle, two calls
    return that same handle, the object the cache holds for the name; for a
    name that has none, registered or not, both calls raise the same
    [ValueError].  Over the whole life of a manager the loading chain runs
    at most once for each name, since only [__init__] runs it. *)
Theorem get_walker_module_idempotent (s0 s : State) (name : string) :
  lifetime s0 s ->
  (forall module,
     dict_get (modules s) name = Some module ->
     get_walker_module name s = (s, Ok module) /\
     get_walker_module name (fst (get_walker_module name s))
     = (s, Ok module)) /\
  (dict_get (modules s) name = None ->
   get_walker_module name s
   = (s, Raise (mkExn ValueError ("Module " ++ name ++ " is not loaded."))) /\
   get_walker_module name (fst (get_walker_module name s))
   = (s, Raise (mkExn ValueError ("Module " ++ name ++ " is not loaded.")))) /\
  (forall k, pipeline_runs k (log s) <= pipeline_runs k (log s0) + 1).
Proof.
  intros Hlife. split; [ | split].
  - intros module Hm.
    assert (H : get_walker_module name s = (s, Ok module)).
    { unfold get_walker_module, bind, gets. cbn [fst snd]. rewrite Hm.
      reflexivity. }
    rewrite H. split; [reflexivity | exact H].
  - intros Hm.
    assert (H : get_walker_module name s
                = (s, Raise (mkExn ValueError
                               ("Module " ++ name ++ " is not loaded.")))).
    { unfold get_walker_module, bind, gets. cbn [fst snd]. rewrite Hm.
      reflexivity. }
    rewrite H. split; [reflexivity | exact H].
  - intros k. apply lifetime_runs_at_most_once. exact Hlife.
Qed.

(** In the mixed deployment the chain has run exactly once for
    [orchestrator], and both calls return the object of reference 0. *)
Lemma get_walker_module_idempotent_witness :
  lifetime fresh mixed_state /\
  dict_get (modules mixed_state) "orchestrator" = Some 0 /\
  get_walker_module "orchestrator" mixed_state = (mixed_state, Ok 0) /\
  get_walker_module "orchestrator"
    (fst (get_walker_module "orchestrator" mixed_state))
  = (mixed_state, Ok 0) /\
  pipeline_runs "orchestrator" (log mixed_state) = 1 /\
  pipeline_runs "orchestrator" (log mixed_state)
  <= pipeline_runs "orchestrator" (log fresh) + 1.
Proof.
  assert (Hlife : lifetime fresh mixed_state)
    by (apply life_init with (env := mixed_env); vm_compute; reflexivity).
  assert (Hm : dict_get (modules mixed_state) "orchestrator" = Some 0)
    by (vm_compute; reflexivity).
  destruct (get_walker_module_idempotent "orchestrator" Hlife)
    as (Hsome & _ & Hruns).
  destruct (Hsome 0 Hm) as [H1 H2].
  split; [exact Hlife | ].
  split; [exact Hm | ].
  split; [exact H1 | ].
  split; [exact H2 | ].
  split; [vm_compute; reflexivity | apply Hruns].
Defined.

(** C6 as stated fails: [quiz_master] is registered, and in the mixed
    deployment, where its import raised [SyntaxError], it has no handle;
    two calls of [get_walker_module] both raise and return no handle. *)
Lemma registered_name_without_handle_raises_twice :
  In "quiz_master" (keys walker_map) /\
  __init__ mixed_env fresh = (mixed_state, Ok tt) /\
  get_walker_module "quiz_master" mixed_state
  = (mixed_state,
     Raise (mkExn ValueError "Module quiz_master is not loaded.")) /\
  get_walker_module "quiz_master"
    (fst (get_walker_module "quiz_master" mixed_state))
  = (mixed_state,
     Raise (mkExn ValueError "Module quiz_master is not loaded.")) /\
  forall module,
    snd (get_walker_module "quiz_master" mixed_state) <> Ok module.
Proof.
  assert (H : get_walker_module "quiz_master" mixed_state
     = (mixed_state,
        Raise (mkExn ValueError "Module quiz_master is not loaded.")))
    by (vm_compute; reflexivity).
  split; [simpl; auto | ].
  split; [vm_compute; reflexivity | ].
  split; [exact H | ].
  split; [rewrite H; exact H | ].
  intros module. rewrite H. discriminate.
Qed.

(** ** [health_check] *)

Lemma health_loop (l : list string) (s : State) :
  for_each l (fun name =>
    ms <- gets modules ;;
    if dict_in name ms then logger (HealthLoaded name)
    else logger (HealthNotLoaded name)) s
  = (with_log (log s ++ map (fun name =>
                 if dict_in name (modules s) then HealthLoaded name
                 else HealthNotLoaded name) l)%list s, Ok tt).
Proof.
  revert s. induction l as [| name l IH]; intros s.
  - simpl. unfold ret, with_log. rewrite app_nil_r. destruct s; reflexivity.
  - simpl for_each. unfold bind at 1. unfold bind at 1. unfold gets at 1.
    cbn [fst snd].
    destruct (dict_in name (modules s)) eqn:E;
      unfold logger, modify; rewrite IH; simpl;
      rewrite E, <- app_assoc; reflexivity.
Qed.

(** C8, as the code has it.  [health_check] returns one boolean, true
    exactly when the cache holds at least one handle.  The state of each
    registered name goes to the log: when the cache is not empty, one record
    per registered name, in the order of [walker_map], saying loaded when
    the name has a handle and not loaded otherwise.  What the handles are
    plays no part: a dummy module counts as loaded like an imported one. *)
Theorem health_check_reports_one_boolean (s : State) :
  health_check s
  = (with_log (log s ++ health_report s)%list s,
     Ok (PBool (0 <? length (modules s))%nat)) /\
  (forall h, snd (health_check (with_heap h s)) = snd (health_check s) /\
             health_report (with_heap h s) = health_report s).
Proof.
  assert (H : forall s, health_check s
     = (with_log (log s ++ health_report s)%list s,
        Ok (PBool (0 <? length (modules s))%nat))).
  { clear s. intros s. unfold health_check, health_report.
    unfold bind at 1. unfold gets at 1. cbn [fst snd].
    destruct (0 <? length (modules s))%nat.
    - unfold bind at 1. unfold bind at 1. unfold logger at 1, modify at 1.
      rewrite health_loop. simpl. rewrite <- app_assoc. reflexivity.
    - reflexivity. }
  split; [apply H | ].
  intros h. rewrite !H. split; reflexivity.
Qed.

(** C8 as stated fails: in the mixed deployment [quiz_master] is
    registered and has no handle, and [health_check] returns the single
    value [True], which holds no entry for any name. *)
Lemma health_check_is_not_per_name :
  __init__ mixed_env fresh = (mixed_state, Ok tt) /\
  snd (health_check mixed_state) = Ok (PBool true) /\
  In "quiz_master" (keys walker_map) /\
  dict_get (modules mixed_state) "quiz_master" = None /\
  (forall name, field (PBool true) name = None).
Proof.
  split; [vm_compute; reflexivity | ].
  split; [vm_compute; reflexivity | ].
  split; [simpl; auto | ].
  split; [vm_compute; reflexivity | reflexivity].
Qed.

(** * The dummy module *)

(** A fallback method reports whatever the cells of its run hold when it
    is called, and echoes its keyword arguments. *)
Lemma fallback_method_reads_cells fr kwargs s name method_name :
  nth_error (frames s) fr = Some (mkFrame (Some name) (Some method_name)) ->
  exists result,
    fallback_method fr kwargs s = (s, Ok result) /\
    field result "status" = Some (PStr "fallback") /\
    field result "walker" = Some (PStr name) /\
    field result "method" = Some (PStr method_name) /\
    field result "parameters" = Some (dict_of_kwargs kwargs).
Proof.
  intros H. unfold fallback_method. rewrite H.
  eexists. split; [reflexivity | ]. repeat split.
Qed.

(** C3, on the code.  With nothing installed every walker gets the dummy
    module, which exposes the names of the fallback table.  Calling
    [init_user_graph] of [orchestrator] with [x = 1] echoes the parameters,
    but reports the walker [motivator] and the method [track_achievements]:
    [fallback_method] reads [name] and [method_name] from the enclosing run
    when it is called, and by then the loops have left them at their last
    values. *)
Theorem fallback_method_echoes_last_bound_names :
  __init__ bare_env fresh = (bare_state, Ok tt) /\
  snd (get_available_functions "orchestrator" bare_state)
  = Ok (sorted (dict_get_default fallback_methods "orchestrator" [])) /\
  snd (execute_walker "orchestrator" (Some [(PStr "x", PInt 1)]) bare_state)
  = Ok (success_result "orchestrator" "init_user_graph"
          (PDict
             [ (PStr "status", PStr "fallback");
               (PStr "walker", PStr "motivator");
               (PStr "method", PStr "track_achievements");
               (PStr "message",
                PStr "Walker motivator is running in fallback mode");
               (PStr "parameters", PDict [(PStr "x", PInt 1)]);
               (PStr "timestamp", PStr "2025-12-04T17:47:44Z") ])).
Proof.
  split; [vm_compute; reflexivity | ].
  split; vm_compute; reflexivity.
Qed.

(** * Reloading *)

Lemma entries_kept_refl s : entries_kept s s.
Proof. split; [reflexivity | ]. intros r o H. exists o. auto. Qed.

Lemma entries_kept_trans a b c :
  entries_kept a b -> entries_kept b c -> entries_kept a c.
Proof.
  intros [Hm1 Ho1] [Hm2 Ho2]. split; [congruence | ].
  intros r o H. destruct (Ho1 r o H) as (o1 & H1 & Hc1 & He1).
  destruct (Ho2 r o1 H1) as (o2 & H2 & Hc2 & He2).
  exists o2. split; [exact H2 | ]. split; [congruence | ].
  intros Hn. rewrite He2; [apply He1; exact Hn | congruence].
Qed.

Lemma nth_error_list_update A (l : list A) i f r :
  nth_error (list_update l i f) r
  = if Nat.eqb r i then option_map f (nth_error l r) else nth_error l r.
Proof.
  revert i r. induction l as [| x l IH]; intros i r.
  - destruct r, i; simpl; try reflexivity; destruct (Nat.eqb r i); reflexivity.
  - destruct i, r; simpl; try reflexivity. apply IH.
Qed.

Lemma bind_all_class ns o :
  obj_cls (fold_left (fun o kv => setattr_obj (fst kv) (snd kv) o) ns o)
  = obj_cls o.
Proof. revert o. induction ns as [| kv ns IH]; intros o; simpl; [reflexivity | rewrite IH; reflexivity]. Qed.

Lemma entries_kept_importlib_reload env r : keeps entries_kept (importlib_reload env r).
Proof.
  intros s. unfold importlib_reload, bind, deref.
  destruct (nth_error (heap s) r) as [o |] eqn:Hr; [ | apply entries_kept_refl].
  destruct (obj_cls o) eqn:Hc; try apply entries_kept_refl.
  destruct (reexec env r (obj_dict o)) as [ns err].
  assert (H : entries_kept s
    (with_heap (list_update (heap s) r
       (fun o => fold_left (fun o kv => setattr_obj (fst kv) (snd kv) o) ns o)) s)).
  { split; [reflexivity | ]. intros r' o' Hr'. simpl.
    rewrite nth_error_list_update. destruct (Nat.eqb_spec r' r) as [-> | Hne].
    - rewrite Hr' . simpl. eexists. split; [reflexivity | ].
      split; [apply bind_all_class | ].
      rewrite Hr in Hr'. inversion Hr'; subst o'. congruence.
    - exists o'. auto. }
  destruct err; exact H.
Qed.

Lemma entries_kept_reload_item env item : keeps entries_kept (reload_item env item).
Proof.
  unfold reload_item. apply (keeps_bind entries_kept_trans).
  - apply entries_kept_importlib_reload.
  - intros _. apply keeps_ret, entries_kept_refl.
Qed.

Lemma reload_walkers_unfold env s :
  reload_walkers env s
  = match for_each (modules s) (reload_item env) s with
    | (s1, Ok _) => (s1, Ok (PBool true))
    | (s1, Raise e) =>
        if isinstance_Exception e
        then (with_log (log s1 ++ [ReloadFailed e])%list s1, Ok (PBool false))
        else (s1, Raise e)
    end.
Proof.
  unfold reload_walkers, try_, bind, gets. simpl.
  destruct (for_each (modules s) (reload_item env) s) as [s1 [[] | e]];
    [reflexivity | ].
  destruct (isinstance_Exception e); reflexivity.
Qed.

Lemma entries_kept_reload_walkers env : keeps entries_kept (reload_walkers env).
Proof.
  intros s. rewrite reload_walkers_unfold.
  pose proof (keeps_for_each entries_kept_refl entries_kept_trans (modules s)
                (reload_item env) (entries_kept_reload_item env) s) as H.
  destruct (for_each (modules s) (reload_item env) s) as [s1 [[] | e]]; simpl in *.
  - exact H.
  - destruct (isinstance_Exception e); simpl; [ | exact H].
    destruct H as [Hm Ho]. split; [exact Hm | exact Ho].
Qed.

(** What a reload raises is the refusal of an object that is not a module,
    which is a [TypeError], or what executing the source again raised. *)
Lemma importlib_reload_raises env r s e :
  snd (importlib_reload env r s) = Raise e ->
  isinstance_Exception e = true \/
  exists r' ns, snd (reexec env r' ns) = Some e.
Proof.
  unfold importlib_reload, deref, bind.
  destruct (nth_error (heap s) r) as [o |]; cbn [fst snd].
  2: { intros H. inversion H. left. reflexivity. }
  destruct (obj_cls o).
  - destruct (reexec env r (obj_dict o)) as [ns err] eqn:Hre.
    destruct err as [e' |]; cbn [snd]; intros H; inversion H; subst e'.
    right. exists r, (obj_dict o). rewrite Hre. reflexivity.
  - intros H. inversion H. left. reflexivity.
  - intros H. inversion H. left. reflexivity.
Qed.

Lemma reload_loop_raises env (items : list (string * ref)) s e :
  snd (for_each items (reload_item env) s) = Raise e ->
  isinstance_Exception e = true \/
  exists r ns, snd (reexec env r ns) = Some e.
Proof.
  revert s. induction items as [| [n r] items IH]; intros s.
  - discriminate.
  - simpl for_each. unfold bind at 1. unfold reload_item at 1, bind at 1.
    cbn [snd].
    pose proof (@importlib_reload_raises env r s) as Hr.
    destruct (importlib_reload env r s) as [s1 [r1 | e1]]; cbn [fst snd] in *.
    + unfold ret. apply IH.
    + intros H. inversion H; subst e1. apply Hr. reflexivity.
Qed.

Lemma for_each_app A (pre post : list A) (body : A -> M unit) s :
  for_each (pre ++ post) body s
  = match for_each pre body s with
    | (s1, Ok _) => for_each post body s1
    | (s1, Raise e) => (s1, Raise e)
    end.
Proof.
  revert s. induction pre as [| x pre IH]; intros s; simpl.
  - reflexivity.
  - unfold bind. destruct (body x s) as [s1 [[] | e]]; [apply IH | reflexivity].
Qed.

(** A cached object that is not a module stops the loop. *)
Lemma reload_loop_refuses_stub env (items : list (string * ref)) s name
    (r : ref) o :
  In (name, r) items ->
  nth_error (heap s) r = Some o ->
  obj_cls o <> PyModule ->
  exists e, snd (for_each items (reload_item env) s) = Raise e.
Proof.
  revert s. induction items as [| [n' r'] items IH]; intros s Hin Hr Hc.
  - contradiction.
  - simpl for_each. unfold bind at 1.
    pose proof (entries_kept_reload_item env (n', r') s) as Hk.
    destruct (reload_item env (n', r') s) as [s1 [[] | e]] eqn:Hstep; simpl in Hk.
    + destruct Hin as [Heq | Hin].
      * inversion Heq; subst n' r'. exfalso.
        unfold reload_item, importlib_reload, deref, bind in Hstep.
        cbn [snd] in Hstep. rewrite Hr in Hstep.
        destruct (obj_cls o); try discriminate. contradiction.
      * apply IH; try assumption.
        destruct Hk as [_ Ho]. destruct (Ho r o Hr) as (o' & Hr' & _ & He).
        rewrite (He Hc) in Hr'. exact Hr'.
    + simpl. eauto.
Qed.

(** C7, as the code has it.  [reload_walkers] calls [importlib.reload] on
    the cached objects in the order of the cache and never runs the loading
    chain: the cache maps the same names to the same objects afterwards,
    every object keeps its class, and an object that is not a module, such
    as a dummy module, is left as it was.  It returns [True] when every
    reload succeeds.  At the first reload that raises it stops, leaving the
    remaining objects alone: if the exception derives from [Exception] it
    logs the error and returns [False], otherwise the exception goes on to
    the caller.  A cached object that is not a module keeps it from
    returning [True]; when executing a source again raises nothing but
    exceptions that derive from [Exception], it always returns a boolean,
    [False] if some cached object is not a module. *)
Theorem reload_walkers_keeps_every_entry (env : Env) (s : State) :
  entries_kept s (fst (reload_walkers env s)) /\
  no_new_run s (fst (reload_walkers env s)) /\
  ((exists b, snd (reload_walkers env s) = Ok (PBool b)) \/
   (exists e, snd (reload_walkers env s) = Raise e /\
              isinstance_Exception e = false)) /\
  (forall s1, for_each (modules s) (reload_item env) s = (s1, Ok tt) ->
     reload_walkers env s = (s1, Ok (PBool true))) /\
  (forall pre name r post s1 s2 e,
     modules s = (pre ++ (name, r) :: post)%list ->
     for_each pre (reload_item env) s = (s1, Ok tt) ->
     importlib_reload env r s1 = (s2, Raise e) ->
     reload_walkers env s
     = if isinstance_Exception e
       then (with_log (log s2 ++ [ReloadFailed e])%list s2, Ok (PBool false))
       else (s2, Raise e)) /\
  (forall name r o,
     In (name, r) (modules s) ->
     nth_error (heap s) r = Some o ->
     obj_cls o <> PyModule ->
     snd (reload_walkers env s) = Ok (PBool false) \/
     exists e, snd (reload_walkers env s) = Raise e /\
               isinstance_Exception e = false) /\
  (reload_errors_ordinary env ->
   (exists b, snd (reload_walkers env s) = Ok (PBool b)) /\
   forall name r o,
     In (name, r) (modules s) ->
     nth_error (heap s) r = Some o ->
     obj_cls o <> PyModule ->
     snd (reload_walkers env s) = Ok (PBool false)).
Proof.
  assert (Hstub : forall name r o,
     In (name, r) (modules s) ->
     nth_error (heap s) r = Some o ->
     obj_cls o <> PyModule ->
     snd (reload_walkers env s) = Ok (PBool false) \/
     exists e, snd (reload_walkers env s) = Raise e /\
               isinstance_Exception e = false).
  { intros name r o Hin Hr Hc. rewrite reload_walkers_unfold.
    destruct (@reload_loop_refuses_stub env _ s name r o Hin Hr Hc) as (e & He).
    destruct (for_each (modules s) (reload_item env) s) as [s1 o1].
    simpl in He. subst o1.
    destruct (isinstance_Exception e) eqn:X; [left; reflexivity | right].
    exists e. split; [reflexivity | exact X]. }
  assert (Hbool : (exists b, snd (reload_walkers env s) = Ok (PBool b)) \/
     (exists e, snd (reload_walkers env s) = Raise e /\
                isinstance_Exception e = false)).
  { rewrite reload_walkers_unfold.
    destruct (for_each (modules s) (reload_item env) s) as [s1 [[] | e]];
      simpl; [left; eauto | ].
    destruct (isinstance_Exception e) eqn:X; simpl; [left; eauto | right; eauto]. }
  assert (Hord : reload_errors_ordinary env ->
     forall e, snd (reload_walkers env s) = Raise e ->
               isinstance_Exception e = false -> False).
  { intros Ho e. rewrite reload_walkers_unfold.
    pose proof (@reload_loop_raises env (modules s) s) as Hr.
    destruct (for_each (modules s) (reload_item env) s) as [s1 [[] | e1]];
      cbn [snd] in *; [discriminate | ].
    destruct (isinstance_Exception e1) eqn:X; cbn [snd]; [discriminate | ].
    intros H _. inversion H; subst e1.
    destruct (Hr e eq_refl) as [H1 | (r & ns & H1)]; [congruence | ].
    rewrite (Ho r ns e H1) in X. discriminate. }
  split; [apply entries_kept_reload_walkers | ].
  split; [apply no_new_run_reload_walkers | ].
  split; [exact Hbool | ].
  split; [ | split; [ | split; [exact Hstub | ]]].
  - intros s1 H. rewrite reload_walkers_unfold, H. reflexivity.
  - intros pre name r post s1 s2 e Hm Hpre Hr.
    rewrite reload_walkers_unfold, Hm, for_each_app, Hpre.
    simpl for_each. unfold bind at 1. unfold reload_item at 1, bind at 1.
    cbn [snd]. rewrite Hr. reflexivity.
  - intros Ho. split.
    + destruct Hbool as [H | (e & He & X)]; [exact H | ].
      destruct (Hord Ho e He X).
    + intros name r o Hin Hr Hc.
      destruct (Hstub name r o Hin Hr Hc) as [H | (e & He & X)]; [exact H | ].
      destruct (Hord Ho e He X).
Qed.

(** After initialization in [late_env] the first cached object is the
    dummy module of [orchestrator]; its reload is refused and nothing else
    is reloaded. *)
Lemma reload_walkers_keeps_every_entry_witness :
  modules late_state = ([] ++ ("orchestrator", 0) :: tl (modules late_state))%list /\
  for_each [] (reload_item complete_env) late_state = (late_state, Ok tt) /\
  importlib_reload complete_env 0 late_state
  = (late_state, Raise (mkExn TypeError "reload() argument must be a module")) /\
  reload_walkers complete_env late_state
  = (with_log (log late_state ++
               [ReloadFailed (mkExn TypeError "reload() argument must be a module")])%list
       late_state, Ok (PBool false)) /\
  reload_errors_ordinary complete_env /\
  (exists b, snd (reload_walkers complete_env late_state) = Ok (PBool b)).
Proof.
  assert (H1 : modules late_state
               = ([] ++ ("orchestrator", 0) :: tl (modules late_state))%list)
    by (vm_compute; reflexivity).
  assert (H2 : for_each [] (reload_item complete_env) late_state
               = (late_state, Ok tt)) by reflexivity.
  assert (H3 : importlib_reload complete_env 0 late_state
     = (late_state, Raise (mkExn TypeError "reload() argument must be a module")))
    by (vm_compute; reflexivity).
  assert (H4 : reload_errors_ordinary complete_env)
    by (intros r ns e H; discriminate H).
  split; [exact H1 | split; [exact H2 | split; [exact H3 | ]]].
  destruct (reload_walkers_keeps_every_entry complete_env late_state)
    as (_ & _ & _ & _ & Hstop & _ & Hord).
  split; [exact (Hstop [] "orchestrator" 0 _ _ _ _ H1 H2 H3) | ].
  split; [exact H4 | exact (proj1 (Hord H4))].
Defined.

(** C7 as stated fails: [orchestrator] got the dummy module, its source
    has become importable, and five modules that a reload would mark follow
    it in the cache.  [reload_walkers] returns [False]; [orchestrator] still
    has the dummy module, and the module of [motivator] has not been
    reloaded. *)
Lemma reload_walkers_leaves_stub_and_stops :
  __init__ late_env fresh = (late_state, Ok tt) /\
  option_map obj_cls (nth_error (heap late_state) 0) = Some DummyWalkerModule /\
  (exists ns, find_and_exec complete_env (sys_path late_state)
                "jac_layer.walkers.orchestrator" = Ok ns) /\
  snd (reload_walkers complete_env late_state) = Ok (PBool false) /\
  modules (fst (reload_walkers complete_env late_state)) = modules late_state /\
  option_map obj_cls
    (nth_error (heap (fst (reload_walkers complete_env late_state))) 0)
  = Some DummyWalkerModule /\
  dict_get (modules late_state) "motivator" = Some 5 /\
  option_map (fun o => keys (obj_dict o))
    (nth_error (heap (fst (importlib_reload complete_env 5 late_state))) 5)
  = Some ["run"; "RELOADED"] /\
  option_map (fun o => keys (obj_dict o))
    (nth_error (heap (fst (reload_walkers complete_env late_state))) 5)
  = Some ["run"].
Proof.
  split; [vm_compute; reflexivity | ].
  split; [vm_compute; reflexivity | ].
  split; [eexists; vm_compute; reflexivity | ].
  repeat split; vm_compute; reflexivity.
Qed.

(** * Further properties of the manager *)

(** ** Introspection *)

Lemma get_available_functions_unloaded walker_name s :
  dict_get (modules s) walker_name = None ->
  get_available_functions walker_name s = (s, Ok []).
Proof.
  intros H. unfold get_available_functions, bind, gets. simpl.
  rewrite H. reflexivity.
Qed.

Lemma get_available_functions_loaded walker_name s r module :
  dict_get (modules s) walker_name = Some r ->
  nth_error (heap s) r = Some module ->
  get_available_functions walker_name s = (s, Ok (public_callables module)).
Proof.
  intros Hm Hh. unfold get_available_functions, bind, gets, deref. simpl.
  rewrite Hm. simpl. rewrite Hh. reflexivity.
Qed.

(** X1.  [get_available_functions] never looks outside the cache: for a
    name without a handle it returns the empty list, and for a name with a
    handle it returns, in alphabetical order, exactly the attributes of the
    handle that are callable and do not start with an underscore.  In every
    state a manager reaches it returns a list and does not raise. *)
Theorem get_available_functions_lists_public_callables
    (walker_name : string) (s : State) :
  (dict_get (modules s) walker_name = None ->
   get_available_functions walker_name s = (s, Ok [])) /\
  (forall r module,
     dict_get (modules s) walker_name = Some r ->
     nth_error (heap s) r = Some module ->
     exists functions,
       get_available_functions walker_name s = (s, Ok functions) /\
       ordered functions /\
       forall k, In k functions <->
                 exists c, dict_get (obj_dict module) k = Some (ACallable c) /\
                           startswith k "_" = false) /\
  (forall s0, sys_modules_valid s0 -> lifetime s0 s ->
     exists functions,
       get_available_functions walker_name s = (s, Ok functions)).
Proof.
  split; [apply get_available_functions_unloaded | split].
  - intros r module Hm Hh. exists (public_callables module).
    split; [apply get_available_functions_loaded with (r := r); assumption | ].
    split; [apply filter_ordered, sorted_ordered | apply public_callables_In].
  - intros s0 Hs Hlife.
    destruct (dict_get (modules s) walker_name) as [r |] eqn:Hm.
    + destruct (cached_handle_is_an_object walker_name Hs Hlife Hm) as (o & Ho).
      exists (public_callables o).
      apply get_available_functions_loaded with (r := r); assumption.
    + exists []. apply get_available_functions_unloaded. exact Hm.
Qed.

Lemma get_available_functions_lists_public_callables_witness :
  dict_get (modules mixed_state) "content_curator" = Some 1 /\
  nth_error (heap mixed_state) 1 = Some content_curator_module /\
  get_available_functions "content_curator" mixed_state
  = (mixed_state, Ok ["find_content"; "rank_content"]) /\
  get_available_functions "quiz_master" mixed_state = (mixed_state, Ok []).
Proof.
  assert (Hm : dict_get (modules mixed_state) "content_curator" = Some 1)
    by (vm_compute; reflexivity).
  assert (Hh : nth_error (heap mixed_state) 1 = Some content_curator_module)
    by (vm_compute; reflexivity).
  split; [exact Hm | split; [exact Hh | ]].
  destruct (get_available_functions_lists_public_callables
              "content_curator" mixed_state) as (_ & Hloaded & _).
  destruct (get_available_functions_lists_public_callables
              "quiz_master" mixed_state) as (Hun & _).
  split.
  - destruct (Hloaded 1 content_curator_module Hm Hh) as (l & Hl & _).
    rewrite Hl. vm_compute in Hl. inversion Hl. reflexivity.
  - apply Hun. vm_compute. reflexivity.
Defined.

(** ** The names of the cache are distinct *)

Lemma keeps_distinct_refl s : keeps_distinct s s.
Proof. intros H. exact H. Qed.

Lemma keeps_distinct_trans a b c :
  keeps_distinct a b -> keeps_distinct b c -> keeps_distinct a c.
Proof. unfold keeps_distinct. auto. Qed.

Lemma keys_dict_set_fresh V (d : list (string * V)) k v :
  dict_get d k = None -> keys (dict_set d k v) = (keys d ++ [k])%list.
Proof.
  induction d as [| [k' v'] d IH]; simpl; [reflexivity | ].
  destruct (String.eqb k k'); [discriminate | ].
  intros H. simpl. rewrite (IH H). reflexivity.
Qed.

Lemma keys_dict_set_bound V (d : list (string * V)) k v :
  dict_in k d = true -> keys (dict_set d k v) = keys d.
Proof.
  unfold dict_in. induction d as [| [k' v'] d IH]; simpl; [discriminate | ].
  destruct (String.eqb_spec k k') as [-> | Hne]; simpl; [reflexivity | ].
  intros H. rewrite (IH H). reflexivity.
Qed.

Lemma NoDup_keys_dict_set V (d : list (string * V)) k v :
  NoDup (keys d) -> NoDup (keys (dict_set d k v)).
Proof.
  intros Hd. destruct (dict_get d k) eqn:E.
  - rewrite keys_dict_set_bound; [exact Hd | unfold dict_in; rewrite E; reflexivity].
  - rewrite keys_dict_set_fresh by exact E.
    apply NoDup_app; [exact Hd | repeat constructor; intros [] | ].
    intros x Hx [<- | []]. apply dict_in_keys in Hx. unfold dict_in in Hx.
    rewrite E in Hx. discriminate.
Qed.

Lemma import_module_modules env name s :
  modules (fst (import_module env name s)) = modules s.
Proof.
  unfold import_module.
  destruct (dict_get (sys_modules s) name); [reflexivity | ].
  destruct (find_and_exec env (sys_path s) name); reflexivity.
Qed.

Ltac keeps_distinct_prim :=
  match goal with
  | |- keeps keeps_distinct (modules_setitem _ _) =>
      intros ? ?; simpl; apply NoDup_keys_dict_set; assumption
  | |- keeps keeps_distinct (import_module _ _) =>
      intros ? ?; rewrite import_module_modules; assumption
  | |- keeps keeps_distinct _ =>
      intros ? ?; simpl;
      try match goal with
          | |- context [if ?b then _ else _] => destruct b
          end;
      assumption
  end.

Lemma keeps_distinct_initialize_walkers env :
  keeps keeps_distinct (_initialize_walkers env).
Proof.
  unfold _initialize_walkers, initialize_walker, load_walker, import_by_name,
    load_from_source, create_dummy_module.
  keeps_steps keeps_distinct_refl keeps_distinct_trans.
  all: keeps_distinct_prim.
Qed.

Lemma init_distinct env s0 : NoDup (keys (modules (fst (__init__ env s0)))).
Proof.
  unfold __init__, bind, modify.
  assert (H : keeps_distinct (with_modules [] s0)
                (fst (_initialize_walkers env (with_modules [] s0))))
    by apply keeps_distinct_initialize_walkers.
  destruct (_initialize_walkers env (with_modules [] s0)) as [s [[] | e]];
    simpl in *; apply H; constructor.
Qed.

Lemma lifetime_same_modules_step (P : list (string * ref) -> Prop) s0 :
  (forall env s, __init__ env s0 = (s, Ok tt) -> P (modules s)) ->
  forall s, lifetime s0 s -> P (modules s).
Proof.
  intros Hinit s.
  induction 1 as [env s Hi | n s _ IH | n s _ IH | n p s _ IH | s _ IH
                 | env s _ IH | s _ IH].
  - eapply Hinit; exact Hi.
  - rewrite (same_cache_modules (same_cache_get_walker_module n s)). exact IH.
  - rewrite (same_cache_modules (same_cache_get_available_functions n s)).
    exact IH.
  - rewrite (same_cache_modules (same_cache_execute_walker n p s)). exact IH.
  - rewrite (same_cache_modules (same_cache_get_available_walkers s)).
    exact IH.
  - rewrite (same_modules_reload_walkers env s). exact IH.
  - rewrite (same_cache_modules (same_cache_health_check s)). exact IH.
Qed.

Lemma lifetime_distinct s0 s : lifetime s0 s -> NoDup (keys (modules s)).
Proof.
  apply (lifetime_same_modules_step (fun m => NoDup (keys m))).
  intros env s1 H. pose proof (init_distinct env s0) as Hd.
  rewrite H in Hd. exact Hd.
Qed.

Lemma get_walker_module_loaded name s :
  (exists r, get_walker_module name s = (s, Ok r)) <->
  In name (keys (modules s)).
Proof.
  rewrite <- dict_in_keys. unfold dict_in, get_walker_module, bind, gets.
  simpl. destruct (dict_get (modules s) name) as [r |]; simpl.
  - split; [reflexivity | intros _; exists r; reflexivity].
  - split; [intros (r & H); discriminate | discriminate].
Qed.

(** X2.  In every state a manager reaches, [get_available_walkers] lists
    each name that has a handle once, with the entry [loaded: True]; the
    names listed are registered, so there are at most as many as
    [walker_map] has entries, and a name is listed exactly when
    [get_walker_module] returns a handle for it. *)
Theorem available_walkers_are_the_loaded_ones (s0 s : State) :
  lifetime s0 s ->
  exists listing,
    get_available_walkers s = (s, Ok listing) /\
    NoDup (map fst listing) /\
    length listing <= length walker_map /\
    (forall name, In name (map fst listing) -> In name (keys walker_map)) /\
    (forall name, In name (map fst listing) <->
                  exists r, get_walker_module name s = (s, Ok r)) /\
    (forall name entry, In (name, entry) listing ->
                        entry = [("loaded", true)]).
Proof.
  intros Hlife.
  exists (map (fun name => (name, [("loaded", true)])) (keys (modules s))).
  assert (Hfst : map fst (map (fun name : string => (name, [("loaded", true)]))
                            (keys (modules s))) = keys (modules s)).
  { rewrite map_map. simpl. apply map_id. }
  pose proof (lifetime_distinct Hlife) as Hd.
  assert (Hreg : forall name, In name (keys (modules s)) ->
                              In name (keys walker_map)).
  { intros name Hin. apply (lifetime_registered_only Hlife).
    apply dict_in_keys. exact Hin. }
  split; [reflexivity | ]. rewrite Hfst.
  split; [exact Hd | ]. split.
  - rewrite length_map. unfold keys at 1. rewrite <- (length_map fst).
    apply NoDup_incl_length; [exact Hd | exact Hreg].
  - split; [exact Hreg | ]. split.
    + intros name. symmetry. apply get_walker_module_loaded.
    + intros name entry Hin. apply in_map_iff in Hin.
      destruct Hin as (n & Heq & _). inversion Heq. reflexivity.
Qed.

Lemma available_walkers_are_the_loaded_ones_witness :
  lifetime fresh mixed_state /\
  get_available_walkers mixed_state
  = (mixed_state,
     Ok [ ("orchestrator", [("loaded", true)]);
          ("content_curator", [("loaded", true)]);
          ("evaluator", [("loaded", true)]);
          ("progress_tracker", [("loaded", true)]);
          ("motivator", [("loaded", true)]) ]).
Proof.
  assert (Hlife : lifetime fresh mixed_state)
    by (apply life_init with (env := mixed_env); vm_compute; reflexivity).
  split; [exact Hlife | ].
  destruct (available_walkers_are_the_loaded_ones Hlife) as (l & Hl & _).
  rewrite Hl. vm_compute in Hl. inversion Hl. reflexivity.
Defined.

Lemma health_check_run s :
  health_check s
  = (with_log (log s ++ health_report s)%list s,
     Ok (PBool (0 <? length (modules s))%nat)).
Proof.
  unfold health_check, health_report.
  unfold bind at 1. unfold gets at 1. cbn [fst snd].
  destruct (0 <? length (modules s))%nat.
  - unfold bind at 1. unfold bind at 1. unfold logger at 1, modify at 1.
    rewrite health_loop. simpl. rewrite <- app_assoc. reflexivity.
  - reflexivity.
Qed.

(** X3.  What the boolean of [health_check] tells a caller.  When it is
    [False] no name has a handle: [execute_walker] answers every name with
    the error result saying that the walker module is not loaded,
    [get_walker_module] raises for every name, and [get_available_functions]
    and [get_available_walkers] are empty.  When it is [True] some name has
    a handle that [get_walker_module] returns. *)
Theorem health_check_false_means_nothing_answers (s : State) :
  (snd (health_check s) = Ok (PBool false) ->
   forall name parameters,
     snd (execute_walker name parameters s)
     = Ok (error_result name
             (mkExn ValueError
                ("Walker module '" ++ name ++ "' is not loaded."))) /\
     get_walker_module name s
     = (s, Raise (mkExn ValueError ("Module " ++ name ++ " is not loaded."))) /\
     get_available_functions name s = (s, Ok []) /\
     get_available_walkers s = (s, Ok [])) /\
  (snd (health_check s) = Ok (PBool true) ->
   exists name r, get_walker_module name s = (s, Ok r)).
Proof.
  rewrite health_check_run. simpl.
  split.
  - intros Hf. assert (Hm : modules s = []).
    { destruct (modules s); [reflexivity | simpl in Hf; discriminate]. }
    intros name parameters.
    assert (Hget : dict_get (modules s) name = None) by (rewrite Hm; reflexivity).
    split; [ | split; [ | split]].
    + unfold execute_walker, try_, bind, gets. simpl. rewrite Hget. reflexivity.
    + unfold get_walker_module, bind, gets. simpl. rewrite Hget. reflexivity.
    + apply get_available_functions_unloaded. exact Hget.
    + unfold get_available_walkers, bind, gets. simpl. rewrite Hm. reflexivity.
  - intros Ht. destruct (modules s) as [| [name r] rest] eqn:Hm;
      [simpl in Ht; discriminate | ].
    exists name, r. unfold get_walker_module, bind, gets. simpl.
    rewrite Hm. simpl. rewrite String.eqb_refl. reflexivity.
Qed.

(** ** [sys.path] *)

Lemma path_extended_refl d s : path_extended d s s.
Proof. left. reflexivity. Qed.

Lemma path_extended_trans d a b c :
  path_extended d a b -> path_extended d b c -> path_extended d a c.
Proof.
  intros [H1 | [H1 N1]] [H2 | [H2 N2]].
  - left. congruence.
  - right. rewrite H2, H1. split; [reflexivity | rewrite <- H1; exact N2].
  - right. rewrite H2, H1. split; [reflexivity | exact N1].
  - exfalso. apply N2. rewrite H1. left. reflexivity.
Qed.

Lemma existsb_eqb_In d l : existsb (String.eqb d) l = true <-> In d l.
Proof.
  rewrite existsb_exists. split.
  - intros (x & Hx & E). apply String.eqb_eq in E. subst x. exact Hx.
  - intros H. exists d. split; [exact H | apply String.eqb_refl].
Qed.

Lemma import_module_sys_path env name s :
  sys_path (fst (import_module env name s)) = sys_path s.
Proof.
  unfold import_module.
  destruct (dict_get (sys_modules s) name); [reflexivity | ].
  destruct (find_and_exec env (sys_path s) name); reflexivity.
Qed.

Ltac path_prim :=
  match goal with
  | |- keeps (path_extended _) (import_module _ _) =>
      intros ?; left; apply import_module_sys_path
  | |- keeps (path_extended _) (call _ _) =>
      intros ?; rewrite call_state; left; reflexivity
  | |- keeps (path_extended _) (deref _) =>
      intros ?; rewrite deref_state; left; reflexivity
  | |- keeps (path_extended _) (getattr _ _) =>
      intros ?; rewrite getattr_state; left; reflexivity
  | |- keeps (path_extended _) _ => intros ?; left; reflexivity
  end.

Lemma path_extended_insert env :
  keeps (path_extended (walker_dir env))
    (modify (fun s =>
       if existsb (String.eqb (walker_dir env)) (sys_path s) then s
       else with_sys_path (walker_dir env :: sys_path s) s)).
Proof.
  intros s. simpl.
  destruct (existsb (String.eqb (walker_dir env)) (sys_path s)) eqn:E.
  - left. reflexivity.
  - right. split; [reflexivity | ].
    intros Hin. apply existsb_eqb_In in Hin. congruence.
Qed.

Lemma path_extended_import_by_name env name :
  keeps (path_extended (walker_dir env)) (import_by_name env name).
Proof.
  unfold import_by_name.
  apply (keeps_bind (path_extended_trans (d := walker_dir env)));
    [apply path_extended_insert | intros _].
  keeps_steps (path_extended_refl (walker_dir env))
              (path_extended_trans (d := walker_dir env)); path_prim.
Qed.

Lemma path_extended_load_walker env fr name module_path :
  keeps (path_extended (walker_dir env)) (load_walker env fr name module_path).
Proof.
  unfold load_walker.
  apply (keeps_try (path_extended_refl (walker_dir env))
                   (path_extended_trans (d := walker_dir env))).
  - keeps_steps (path_extended_refl (walker_dir env))
                (path_extended_trans (d := walker_dir env)); path_prim.
  - repeat (apply Forall_cons; [cbn [snd]; intros ? | ]); try apply Forall_nil.
    + apply (keeps_bind (path_extended_trans (d := walker_dir env)));
        [path_prim | intros _].
      apply (keeps_try (path_extended_refl (walker_dir env))
                       (path_extended_trans (d := walker_dir env)));
        [apply path_extended_import_by_name | ].
      repeat (apply Forall_cons; [cbn [snd]; intros ? | ]);
        try apply Forall_nil.
      unfold load_from_source, create_dummy_module.
      keeps_steps (path_extended_refl (walker_dir env))
                  (path_extended_trans (d := walker_dir env)); path_prim.
    + path_prim.
Qed.

Lemma path_extended_init env : keeps (path_extended (walker_dir env)) (__init__ env).
Proof.
  unfold __init__, _initialize_walkers.
  apply (keeps_bind (path_extended_trans (d := walker_dir env)));
    [path_prim | intros _].
  apply (keeps_bind (path_extended_trans (d := walker_dir env)));
    [path_prim | intros fr].
  apply (keeps_for_each (path_extended_refl (walker_dir env))
                        (path_extended_trans (d := walker_dir env))).
  intros entry. unfold initialize_walker.
  apply (keeps_bind (path_extended_trans (d := walker_dir env)));
    [path_prim | intros _].
  apply path_extended_load_walker.
Qed.

Lemma same_path_refl s : same_path s s.
Proof. reflexivity. Qed.

Lemma same_path_trans a b c : same_path a b -> same_path b c -> same_path a c.
Proof. unfold same_path. intros H1 H2. rewrite H2. exact H1. Qed.

Ltac same_path_prim :=
  match goal with
  | |- keeps same_path (call _ _) =>
      intros ?; rewrite call_state; reflexivity
  | |- keeps same_path (deref _) =>
      intros ?; rewrite deref_state; reflexivity
  | |- keeps same_path (getattr _ _) =>
      intros ?; rewrite getattr_state; reflexivity
  | |- keeps same_path _ =>
      intros ?; unfold same_path; simpl;
      repeat match goal with
             | |- context [if ?b then _ else _] => destruct b
             | |- context [match ?x with _ => _ end] => destruct x
             | |- context [let (_, _) := ?x in _] => destruct x
             end;
      reflexivity
  end.

Lemma same_path_execute_walker n p : keeps same_path (execute_walker n p).
Proof.
  unfold execute_walker.
  keeps_steps same_path_refl same_path_trans; same_path_prim.
Qed.

Lemma same_path_reload_walkers env : keeps same_path (reload_walkers env).
Proof.
  unfold reload_walkers, reload_item, importlib_reload.
  keeps_steps same_path_refl same_path_trans; same_path_prim.
Qed.

Lemma same_path_health_check : keeps same_path health_check.
Proof.
  unfold health_check.
  keeps_steps same_path_refl same_path_trans; same_path_prim.
Qed.

Lemma same_path_get_walker_module n : keeps same_path (get_walker_module n).
Proof.
  unfold get_walker_module.
  keeps_steps same_path_refl same_path_trans; same_path_prim.
Qed.

Lemma same_path_get_available_functions n :
  keeps same_path (get_available_functions n).
Proof.
  unfold get_available_functions.
  keeps_steps same_path_refl same_path_trans; same_path_prim.
Qed.

Lemma same_path_get_available_walkers : keeps same_path get_available_walkers.
Proof.
  unfold get_available_walkers.
  keeps_steps same_path_refl same_path_trans; same_path_prim.
Qed.

(** X4.  Constructing a manager changes [sys.path] in one way only: the
    walkers directory [BASE_DIR/jac_layer/walkers] is put at the front, once,
    and only if it was not on the path already; every other entry keeps its
    place.  No other method of the manager touches [sys.path]. *)
Theorem sys_path_gains_the_walker_directory_only (env : Env) (s0 : State) :
  let s := fst (__init__ env s0) in
  path_extended (walker_dir env) s0 s /\
  (In (walker_dir env) (sys_path s0) -> sys_path s = sys_path s0) /\
  (forall env' n p,
     sys_path (fst (execute_walker n p s)) = sys_path s /\
     sys_path (fst (reload_walkers env' s)) = sys_path s /\
     sys_path (fst (health_check s)) = sys_path s /\
     sys_path (fst (get_walker_module n s)) = sys_path s /\
     sys_path (fst (get_available_functions n s)) = sys_path s /\
     sys_path (fst (get_available_walkers s)) = sys_path s).
Proof.
  intros s. pose proof (path_extended_init env s0) as Hp. fold s in Hp.
  split; [exact Hp | ]. split.
  - intros Hin. destruct Hp as [Hp | [_ Hnot]]; [exact Hp | contradiction].
  - intros env' n p.
    split; [apply same_path_execute_walker | ].
    split; [apply same_path_reload_walkers | ].
    split; [apply same_path_health_check | ].
    split; [apply same_path_get_walker_module | ].
    split; [apply same_path_get_available_functions | ].
    apply same_path_get_available_walkers.
Qed.

(** ** The cells *)

Lemma names_kept_refl s : names_kept s s.
Proof. reflexivity. Qed.

Lemma names_kept_trans a b c : names_kept a b -> names_kept b c -> names_kept a c.
Proof. unfold names_kept. congruence. Qed.

Lemma map_list_update A B (g : A -> B) (l : list A) i f :
  (forall x, g (f x) = g x) -> map g (list_update l i f) = map g l.
Proof.
  intros H. revert i. induction l as [| x l IH]; intros [| i]; simpl;
    try reflexivity; [rewrite H | rewrite IH]; reflexivity.
Qed.

Lemma import_module_frames env name s :
  frames (fst (import_module env name s)) = frames s.
Proof.
  unfold import_module.
  destruct (dict_get (sys_modules s) name); [reflexivity | ].
  destruct (find_and_exec env (sys_path s) name); reflexivity.
Qed.

Ltac names_prim :=
  match goal with
  | |- keeps names_kept (import_module _ _) =>
      intros ?; unfold names_kept; rewrite import_module_frames; reflexivity
  | |- keeps names_kept (bind_method_name _ _) =>
      intros ?; unfold names_kept; simpl; apply map_list_update; reflexivity
  | |- keeps names_kept (call _ _) =>
      intros ?; rewrite call_state; reflexivity
  | |- keeps names_kept (deref _) =>
      intros ?; rewrite deref_state; reflexivity
  | |- keeps names_kept (getattr _ _) =>
      intros ?; rewrite getattr_state; reflexivity
  | |- keeps names_kept _ =>
      intros ?; unfold names_kept; simpl;
      repeat match goal with
             | |- context [if ?b then _ else _] => destruct b
             | |- context [match ?x with _ => _ end] => destruct x
             | |- context [let (_, _) := ?x in _] => destruct x
             end;
      reflexivity
  end.

Lemma names_kept_load_walker env fr name module_path :
  keeps names_kept (load_walker env fr name module_path).
Proof.
  unfold load_walker, import_by_name, load_from_source, create_dummy_module.
  keeps_steps names_kept_refl names_kept_trans; names_prim.
Qed.

(** After a turn of the loop the cell [name] of the run holds the name of
    the turn. *)
Lemma initialize_walker_binds_name env fr entry s :
  fr < length (frames s) ->
  let s' := fst (initialize_walker env fr entry s) in
  nth_error (map cell_name (frames s')) fr = Some (Some (fst entry)) /\
  length (frames s') = length (frames s).
Proof.
  intros Hfr.
  set (s1 := with_frames
               (list_update (frames s) fr
                  (fun f => mkFrame (Some (fst entry)) (cell_method_name f))) s).
  assert (Hrun : initialize_walker env fr entry s
                 = load_walker env fr (fst entry) (snd entry) s1)
    by reflexivity.
  rewrite Hrun.
  pose proof (names_kept_load_walker env fr (fst entry) (snd entry) s1) as Hk.
  destruct (load_walker env fr (fst entry) (snd entry) s1) as [s2 o].
  simpl in *. unfold names_kept in Hk.
  assert (H1 : nth_error (map cell_name (frames s1)) fr = Some (Some (fst entry))).
  { unfold s1. simpl. rewrite nth_error_map, nth_error_list_update.
    rewrite Nat.eqb_refl.
    destruct (nth_error (frames s) fr) eqn:E; [reflexivity | ].
    apply nth_error_None in E. lia. }
  assert (H2 : length (frames s1) = length (frames s)).
  { unfold s1. simpl. apply length_list_update. }
  split.
  - rewrite Hk. exact H1.
  - rewrite <- H2, <- (length_map cell_name), <- (length_map cell_name (frames s1)).
    rewrite Hk. reflexivity.
Qed.

(** When the loop returns the cell holds the name of the last entry. *)
Lemma initialize_loop_last_name env fr l last s :
  fr < length (frames s) ->
  snd (for_each (l ++ [last]) (initialize_walker env fr) s) = Ok tt ->
  nth_error (map cell_name
               (frames (fst (for_each (l ++ [last])
                               (initialize_walker env fr) s)))) fr
  = Some (Some (fst last)).
Proof.
  revert s. induction l as [| x l IH]; intros s Hfr.
  - simpl. unfold bind.
    destruct (initialize_walker_binds_name env last s Hfr) as [H _].
    destruct (initialize_walker env fr last s) as [s1 [[] | e]]; simpl in *;
      [intros _; exact H | discriminate].
  - simpl. unfold bind.
    destruct (initialize_walker_binds_name env x s Hfr) as [_ Hl].
    destruct (initialize_walker env fr x s) as [s1 [[] | e]]; simpl in *;
      [ | discriminate].
    apply IH. rewrite Hl. exact Hfr.
Qed.

Lemma init_last_name env s0 s :
  __init__ env s0 = (s, Ok tt) ->
  nth_error (map cell_name (frames s)) (length (frames s0))
  = Some (Some "motivator").
Proof.
  intros H.
  set (s1 := with_frames (frames s0 ++ [mkFrame None None])
               (with_modules [] s0)).
  assert (Hrun : __init__ env s0
                 = for_each walker_map
                     (initialize_walker env (length (frames s0))) s1)
    by reflexivity.
  rewrite Hrun in H.
  pose proof (@initialize_loop_last_name env (length (frames s0))
                (removelast walker_map)
                ("motivator", "jac_layer.walkers.motivator") s1) as Hl.
  change (removelast walker_map
          ++ [("motivator", "jac_layer.walkers.motivator")])%list
    with walker_map in Hl.
  rewrite H in Hl. apply Hl; [ | reflexivity].
  unfold s1. cbn [frames with_frames]. rewrite length_app. simpl. lia.
Qed.

Lemma lifetime_last_name s0 s :
  lifetime s0 s ->
  nth_error (map cell_name (frames s)) (length (frames s0))
  = Some (Some "motivator").
Proof.
  induction 1 as [env s Hi | n s _ IH | n s _ IH | n p s _ IH | s _ IH
                 | env s _ IH | s _ IH].
  - eapply init_last_name; exact Hi.
  - destruct (same_cache_get_walker_module n s) as (_ & _ & ->). exact IH.
  - destruct (same_cache_get_available_functions n s) as (_ & _ & ->).
    exact IH.
  - destruct (same_cache_execute_walker n p s) as (_ & _ & ->). exact IH.
  - destruct (same_cache_get_available_walkers s) as (_ & _ & ->). exact IH.
  - assert (Hk : keeps names_kept (reload_walkers env)).
    { unfold reload_walkers, reload_item, importlib_reload.
      keeps_steps names_kept_refl names_kept_trans; names_prim. }
    rewrite (Hk s). exact IH.
  - destruct (same_cache_health_check s) as (_ & _ & ->). exact IH.
Qed.

(** ** Exact count of the runs *)

Lemma initialize_loop_runs_exactly env fr l s :
  wp (for_each l (initialize_walker env fr))
     (fun s' o =>
        match o with
        | Ok _ => forall k,
            pipeline_runs k (log s')
            = pipeline_runs k (log s) + count_occ string_dec (keys l) k
        | Raise _ => True
        end) s.
Proof.
  revert s. induction l as [| [name module_path] l IH]; intros s.
  - unfold wp. simpl. intros k. lia.
  - simpl for_each. apply wp_bind.
    unfold initialize_walker at 1. cbn [fst snd]. cbv zeta.
    apply wp_bind. unfold wp at 1. cbn [bind_name modify fst snd].
    eapply wp_conseq; [apply load_walker_runs_once | ].
    cbn beta. intros s1 o [_ H1].
    destruct o as [[] | e]; [ | exact I].
    specialize (H1 tt eq_refl).
    eapply wp_conseq; [apply IH | ].
    cbn beta. intros s2 [[] | e] H2; [ | exact I].
    intros k. rewrite (H2 k), (H1 k). simpl.
    destruct (string_dec name k) as [-> | Hne].
    + rewrite String.eqb_refl. lia.
    + destruct (String.eqb_spec name k); [contradiction | lia].
Qed.

(** X6.  When [__init__] returns, the [try] statement of
    [_initialize_walkers] has run exactly once for every registered name
    and not at all for any other name, as the verdict records of strategy 1
    in the log show. *)
Theorem initialization_runs_the_chain_once_per_name
    (env : Env) (s0 s : State) (k : string) :
  __init__ env s0 = (s, Ok tt) ->
  (In k (keys walker_map) ->
   pipeline_runs k (log s) = pipeline_runs k (log s0) + 1) /\
  (~ In k (keys walker_map) ->
   pipeline_runs k (log s) = pipeline_runs k (log s0)).
Proof.
  intros Hinit.
  assert (H : wp (__init__ env)
     (fun s' o =>
        match o with
        | Ok _ => forall k,
            pipeline_runs k (log s')
            = pipeline_runs k (log s0)
              + count_occ string_dec (keys walker_map) k
        | Raise _ => True
        end) s0).
  { unfold __init__, _initialize_walkers.
    apply wp_bind. unfold wp at 1. cbn [modify fst snd].
    apply wp_bind. unfold wp at 1. cbn [new_frame fst snd].
    eapply wp_conseq; [apply (initialize_loop_runs_exactly env) | ].
    cbn beta. intros s' o H. exact H. }
  unfold wp in H. rewrite Hinit in H. cbn [fst snd] in H. specialize (H k).
  split.
  - intros Hin.
    assert (Hc : count_occ string_dec (keys walker_map) k = 1).
    { pose proof (proj1 (NoDup_count_occ string_dec _) walker_map_keys_NoDup k).
      pose proof (proj1 (count_occ_In string_dec _ k) Hin). lia. }
    lia.
  - intros Hnot.
    rewrite (proj1 (count_occ_not_In string_dec _ k) Hnot) in H. lia.
Qed.

Lemma initialization_runs_the_chain_once_per_name_witness :
  __init__ mixed_env fresh = (mixed_state, Ok tt) /\
  In "quiz_master" (keys walker_map) /\
  pipeline_runs "quiz_master" (log mixed_state) = 1.
Proof.
  assert (Hinit : __init__ mixed_env fresh = (mixed_state, Ok tt))
    by (vm_compute; reflexivity).
  assert (Hin : In "quiz_master" (keys walker_map)) by (simpl; auto).
  split; [exact Hinit | split; [exact Hin | ]].
  destruct (@initialization_runs_the_chain_once_per_name
              mixed_env fresh mixed_state "quiz_master" Hinit) as [Hone _].
  rewrite (Hone Hin). reflexivity.
Defined.

(** ** Reloading modules *)




(** ** Strategy 3 *)

Lemma list_update_app_last A (h : list A) (o : A) f :
  list_update (h ++ [o]) (length h) f = (h ++ [f o])%list.
Proof.
  induction h as [| x h IH]; simpl; [reflexivity | rewrite IH; reflexivity].
Qed.

Lemma nth_error_app_last A (h : list A) (o : A) :
  nth_error (h ++ [o]) (length h) = Some o.
Proof.
  rewrite nth_error_app2 by lia. rewrite Nat.sub_diag. reflexivity.
Qed.

(** The loop of strategy 3 on a freshly allocated object. *)
Lemma expose_loop ns h o s :
  heap s = (h ++ [o])%list ->
  for_each ns (fun kv =>
     if (negb (startswith (fst kv) "_") && callable_ (snd kv))%bool
     then setattr (length h) (fst kv) (snd kv)
     else ret tt) s
  = (with_heap (h ++ [expose ns o]) s, Ok tt).
Proof.
  revert o s. induction ns as [| kv ns IH]; intros o s Hh.
  - simpl. unfold ret. rewrite <- Hh. destruct s; reflexivity.
  - cbn [for_each]. unfold expose. cbn [fold_left].
    fold (expose ns (if (negb (startswith (fst kv) "_") && callable_ (snd kv))%bool
                     then setattr_obj (fst kv) (snd kv) o else o)).
    unfold bind at 1.
    destruct (negb (startswith (fst kv) "_") && callable_ (snd kv))%bool.
    + unfold setattr at 1, modify at 1. cbn [fst snd].
      rewrite (IH (setattr_obj (fst kv) (snd kv) o)).
      * destruct s; reflexivity.
      * destruct s; simpl in *. rewrite Hh. apply list_update_app_last.
    + unfold ret at 1. cbn [fst snd]. apply IH. exact Hh.
Qed.

Lemma dict_get_setattr_obj k a o k' :
  dict_get (obj_dict (setattr_obj k a o)) k'
  = if String.eqb k' k then Some a else dict_get (obj_dict o) k'.
Proof.
  unfold setattr_obj. simpl. destruct (String.eqb_spec k' k) as [-> | Hne].
  - apply dict_get_set_same.
  - apply dict_get_set_other. exact Hne.
Qed.

Lemma expose_class ns o : obj_cls (expose ns o) = obj_cls o.
Proof.
  unfold expose. revert o. induction ns as [| kv ns IH]; intros o; simpl;
    [reflexivity | ].
  rewrite IH. destruct (_ && _)%bool; reflexivity.
Qed.

(** Every attribute of the exposed object was on the object before or is a
    public callable of the namespace. *)
Lemma expose_attributes ns o k a :
  dict_get (obj_dict (expose ns o)) k = Some a ->
  dict_get (obj_dict o) k = Some a \/
  (In (k, a) ns /\ callable_ a = true /\ startswith k "_" = false).
Proof.
  unfold expose. revert o. induction ns as [| [k0 a0] ns IH]; intros o; simpl.
  - auto.
  - intros H. apply IH in H. destruct H as [H | (Hin & Hc & Hp)];
      [ | right; auto].
    destruct (negb (startswith k0 "_") && callable_ a0)%bool eqn:E;
      [ | left; exact H].
    rewrite dict_get_setattr_obj in H.
    destruct (String.eqb_spec k k0) as [-> | Hne]; [ | left; exact H].
    inversion H; subst a0. right.
    apply andb_prop in E. destruct E as [E1 E2].
    split; [left; reflexivity | split; [exact E2 | ]].
    destruct (startswith k0 "_"); [discriminate | reflexivity].
Qed.

Lemma expose_keeps ns o k :
  hasattr o k = true -> hasattr (expose ns o) k = true.
Proof.
  unfold expose. revert o. induction ns as [| [k1 a1] ns IH]; intros o H;
    simpl; [exact H | ].
  apply IH. destruct (_ && _)%bool; [ | exact H].
  unfold hasattr, dict_in in *. rewrite dict_get_setattr_obj.
  destruct (String.eqb k k1); [reflexivity | exact H].
Qed.

(** A public callable of the namespace is an attribute of the exposed
    object. *)
Lemma expose_has ns o k a :
  In (k, a) ns -> callable_ a = true -> startswith k "_" = false ->
  hasattr (expose ns o) k = true.
Proof.
  revert o. induction ns as [| [k0 a0] ns IH]; intros o; [contradiction | ].
  intros [Heq | Hin] Hc Hp.
  - inversion Heq; subst k0 a0. unfold expose. simpl. rewrite Hp, Hc. simpl.
    apply (expose_keeps ns). unfold hasattr, dict_in.
    rewrite dict_get_setattr_obj, String.eqb_refl. reflexivity.
  - unfold expose. simpl. apply (IH _ Hin Hc Hp).
Qed.

Lemma namespace_dict_NoDup ns : NoDup (keys (namespace_dict ns)).
Proof.
  unfold namespace_dict.
  assert (H : forall d : list (string * attr), NoDup (keys d) ->
            NoDup (keys (fold_left
                           (fun d kv => dict_set d (fst kv) (snd kv)) ns d))).
  { induction ns as [| kv ns IH]; intros d Hd; simpl; [exact Hd | ].
    apply IH. apply NoDup_keys_dict_set. exact Hd. }
  apply H. constructor.
Qed.

Lemma dict_get_not_in V (d : list (string * V)) k :
  ~ In k (keys d) -> dict_get d k = None.
Proof.
  intros H. destruct (dict_get d k) eqn:E; [ | reflexivity].
  exfalso. apply H. apply dict_in_keys. unfold dict_in. rewrite E. reflexivity.
Qed.

(** The attributes of the exposed object, when the items have distinct
    names. *)
Lemma expose_get d o k :
  NoDup (keys d) ->
  dict_get (obj_dict (expose d o)) k
  = match dict_get d k with
    | Some a =>
        if (negb (startswith k "_") && callable_ a)%bool then Some a
        else dict_get (obj_dict o) k
    | None => dict_get (obj_dict o) k
    end.
Proof.
  unfold expose. revert o. induction d as [| [k0 a0] d IH]; intros o Hd.
  - reflexivity.
  - simpl keys in Hd. inversion Hd as [| x xs Hnot Hd']; subst x xs.
    simpl fold_left. rewrite (IH _ Hd'). simpl dict_get.
    destruct (String.eqb_spec k k0) as [-> | Hne].
    + rewrite (dict_get_not_in d k0 Hnot).
      destruct (negb (startswith k0 "_") && callable_ a0)%bool;
        [ | reflexivity].
      rewrite dict_get_setattr_obj, String.eqb_refl. reflexivity.
    + assert (Hsame : dict_get (obj_dict
                (if (negb (startswith k0 "_") && callable_ a0)%bool
                 then setattr_obj k0 a0 o else o)) k
              = dict_get (obj_dict o) k).
      { destruct (_ && _)%bool; [ | reflexivity].
        rewrite dict_get_setattr_obj.
        destruct (String.eqb_spec k k0); [contradiction | reflexivity]. }
      cbn [fst snd]. rewrite Hsame. reflexivity.
Qed.

Lemma load_from_source_run env name s code ns :
  os_path_exists env (os_path_join (BASE_DIR env)
                        ["jac_layer"; "walkers"; name ++ ".jac"]) = true ->
  read_text env (os_path_join (BASE_DIR env)
                   ["jac_layer"; "walkers"; name ++ ".jac"]) = Ok code ->
  exec_code env code = Ok ns ->
  load_from_source env name s
  = (mkState (dict_set (modules s) name (length (heap s)))
             (heap s ++ [expose (namespace_dict ns) (mkObject WalkerModule [])])
             (frames s) (sys_path s) (sys_modules s)
             (log s ++ [LoadedStrategy3 name]), Ok tt).
Proof.
  intros Hex Hread Hexec. unfold load_from_source. rewrite Hex.
  unfold bind at 1. unfold lift at 1. rewrite Hread.
  unfold bind at 1. unfold lift at 1. rewrite Hexec.
  unfold bind at 1. unfold alloc at 1.
  unfold bind at 1.
  rewrite (@expose_loop (namespace_dict ns) (heap s) (mkObject WalkerModule [])
             (with_heap (heap s ++ [mkObject WalkerModule []]) s))
    by (destruct s; reflexivity).
  destruct s; reflexivity.
Qed.

(** X8.  When strategy 3 returns, the file [name.jac] under the walkers
    directory was read and executed, and the handle of [name] is a new
    [WalkerModule] object whose attributes are exactly the names that the
    executed code has left bound to a callable and that do not start with
    an underscore, each with the value of its last binding: data, private
    names and names bound again to data are not exposed. *)
Theorem source_module_exposes_only_public_callables
    (env : Env) (name : string) (s : State) :
  snd (load_from_source env name s) = Ok tt ->
  exists code ns module,
    read_text env (os_path_join (BASE_DIR env)
                     ["jac_layer"; "walkers"; name ++ ".jac"]) = Ok code /\
    exec_code env code = Ok ns /\
    dict_get (modules (fst (load_from_source env name s))) name
    = Some (length (heap s)) /\
    nth_error (heap (fst (load_from_source env name s))) (length (heap s))
    = Some module /\
    obj_cls module = WalkerModule /\
    forall k a,
      dict_get (obj_dict module) k = Some a <->
      (dict_get (namespace_dict ns) k = Some a /\
       callable_ a = true /\ startswith k "_" = false).
Proof.
  destruct (os_path_exists env (os_path_join (BASE_DIR env)
              ["jac_layer"; "walkers"; name ++ ".jac"])) eqn:Hex.
  2: { unfold load_from_source. rewrite Hex. simpl. discriminate. }
  destruct (read_text env (os_path_join (BASE_DIR env)
              ["jac_layer"; "walkers"; name ++ ".jac"])) as [code | e] eqn:Hread.
  2: { unfold load_from_source. rewrite Hex. unfold bind at 1, lift at 1.
       rewrite Hread. simpl. discriminate. }
  destruct (exec_code env code) as [ns | e] eqn:Hexec.
  2: { unfold load_from_source. rewrite Hex. unfold bind at 1, lift at 1.
       rewrite Hread. unfold bind at 1, lift at 1. rewrite Hexec.
       simpl. discriminate. }
  rewrite (load_from_source_run env name s Hex Hread Hexec).
  intros _.
  exists code, ns, (expose (namespace_dict ns) (mkObject WalkerModule [])).
  split; [reflexivity | split; [exact Hexec | ]].
  cbn [fst modules heap]. split; [apply dict_get_set_same | ].
  split; [apply nth_error_app_last | ].
  split; [apply expose_class | ].
  intros k a. rewrite (expose_get _ _ k (namespace_dict_NoDup ns)).
  cbn [obj_dict dict_get].
  destruct (dict_get (namespace_dict ns) k) as [a' |].
  - destruct (startswith k "_"); cbn [negb andb].
    + split; [discriminate | intros (_ & _ & H); discriminate].
    + destruct (callable_ a') eqn:Hc.
      * split.
        -- intros H; inversion H; subst a'. auto.
        -- intros (H & _); exact H.
      * split; [discriminate | ].
        intros (H & Hc' & _). inversion H; subst a'. congruence.
  - split; [discriminate | intros (H & _); discriminate].
Qed.

(** In the deployment that binds [helper] to a function and then to a
    number, the module of [evaluator] exposes [keep] only. *)
Lemma source_module_exposes_only_public_callables_witness :
  snd (load_from_source rebinding_env "evaluator" fresh) = Ok tt /\
  get_available_functions "evaluator"
    (fst (load_from_source rebinding_env "evaluator" fresh))
  = (fst (load_from_source rebinding_env "evaluator" fresh), Ok ["keep"]).
Proof.
  assert (H : snd (load_from_source rebinding_env "evaluator" fresh) = Ok tt)
    by (vm_compute; reflexivity).
  split; [exact H | ].
  destruct (source_module_exposes_only_public_callables
              rebinding_env "evaluator" fresh H)
    as (code & ns & module & _ & _ & Hm & Hh & _).
  rewrite (get_available_functions_loaded "evaluator" _ Hm Hh).
  vm_compute in Hh. inversion Hh. reflexivity.
Defined.

(** ** Keys that are not strings *)

Lemma kwargs_of_rejects parameters k v :
  In (k, v) parameters -> (forall name, k <> PStr name) ->
  kwargs_of parameters = Raise (mkExn TypeError "keywords must be strings").
Proof.
  intros Hin Hk. induction parameters as [| [k' v'] rest IH]; [contradiction | ].
  destruct Hin as [Heq | Hin].
  - inversion Heq; subst k' v'. simpl.
    destruct k; try reflexivity. exfalso. eapply Hk. reflexivity.
  - specialize (IH Hin). simpl. rewrite IH. destruct k'; reflexivity.
Qed.

(** X9.  When [parameters] has a key that is not a string and the function
    selected for a loaded walker is callable, the call is not made:
    [execute_walker] returns the error result of the [TypeError] that the
    expansion into keyword arguments raises. *)
Theorem execute_walker_rejects_non_string_keys
    (walker_name : string) (parameters : list (pyval * pyval))
    (s : State) (r : ref) (module : object) (function_name : string)
    (c : callable) (k v : pyval) :
  dict_get (modules s) walker_name = Some r ->
  nth_error (heap s) r = Some module ->
  selected_function module walker_name = Some function_name ->
  dict_get (obj_dict module) function_name = Some (ACallable c) ->
  In (k, v) parameters -> (forall name, k <> PStr name) ->
  snd (execute_walker walker_name (Some parameters) s)
  = Ok (error_result walker_name (mkExn TypeError "keywords must be strings")).
Proof.
  intros Hm Hh Hsel Hf Hin Hk.
  rewrite (execute_walker_calls walker_name (Some parameters) s Hm Hh Hsel Hf).
  unfold params_of, call.
  rewrite (@kwargs_of_rejects parameters k v Hin Hk). reflexivity.
Qed.

Lemma execute_walker_rejects_non_string_keys_witness :
  snd (execute_walker "orchestrator" (Some [(PInt 1, PStr "x")]) mixed_state)
  = Ok (error_result "orchestrator"
          (mkExn TypeError "keywords must be strings")).
Proof.
  apply (@execute_walker_rejects_non_string_keys
           "orchestrator" [(PInt 1, PStr "x")] mixed_state
           0 orchestrator_module "init_user_graph"
           (Native (fun _ => Ok (PStr "graph ready")))
           (PInt 1) (PStr "x")).
  - reflexivity.
  - reflexivity.
  - reflexivity.
  - reflexivity.
  - left; reflexivity.
  - intros name; discriminate.
Defined.

(** X10.  When the handle has an attribute of the default name that is not
    callable, [execute_walker] returns the error result of the [TypeError]
    of calling it.  Step 3 tests the attribute with [hasattr] only, so the
    other public callables of the handle are not tried. *)
Theorem execute_walker_default_must_be_callable
    (walker_name : string) (parameters : option (list (pyval * pyval)))
    (s : State) (r : ref) (module : object) (v : pyval) :
  dict_get (modules s) walker_name = Some r ->
  nth_error (heap s) r = Some module ->
  dict_get (obj_dict module) (default_function walker_name) = Some (AData v) ->
  snd (execute_walker walker_name parameters s)
  = Ok (error_result walker_name
          (mkExn TypeError ("'" ++ type_name v ++ "' object is not callable"))).
Proof.
  intros Hm Hh Hd.
  assert (Hsel : selected_function module walker_name
                 = Some (default_function walker_name)).
  { unfold selected_function, hasattr, dict_in. rewrite Hd. reflexivity. }
  rewrite (execute_walker_calls walker_name parameters s Hm Hh Hsel Hd).
  reflexivity.
Qed.

Lemma execute_walker_default_must_be_callable_witness :
  snd (get_available_functions "quiz_master" quiz_data_state)
  = Ok ["make_quiz"] /\
  snd (execute_walker "quiz_master" None quiz_data_state)
  = Ok (error_result "quiz_master"
          (mkExn TypeError "'int' object is not callable")).
Proof.
  split; [reflexivity | ].
  apply (@execute_walker_default_must_be_callable
           "quiz_master" None quiz_data_state 0
           (mkObject PyModule
             [ ("generate_adaptive_quiz", AData (PInt 3));
               ("make_quiz", returns_ (PStr "quiz")) ])
           (PInt 3)); reflexivity.
Defined.

(** ** The dummy module *)

Lemma dummy_loop fr methods h o s :
  heap s = (h ++ [o])%list ->
  for_each methods (fun method_name =>
    bind_method_name fr method_name ;;
    setattr (length h) method_name (ACallable (FallbackMethod fr))) s
  = (with_frames (bind_methods fr methods (frames s))
       (with_heap (h ++ [install_fallbacks fr methods o]) s), Ok tt).
Proof.
  revert o s. induction methods as [| m methods IH]; intros o s Hh.
  - simpl. unfold ret. rewrite <- Hh. destruct s; reflexivity.
  - simpl for_each. unfold bind at 1. unfold bind at 1.
    unfold bind_method_name at 1, modify at 1. cbn [fst snd].
    unfold setattr at 1, modify at 1. cbn [fst snd].
    rewrite (IH (setattr_obj m (ACallable (FallbackMethod fr)) o)).
    + destruct s; reflexivity.
    + destruct s; simpl in *. rewrite Hh. apply list_update_app_last.
Qed.

Lemma create_dummy_module_run fr name s :
  create_dummy_module fr name s
  = (mkState
       (dict_set (modules s) name (length (heap s)))
       (heap s ++ [install_fallbacks fr
                     (dict_get_default fallback_methods name ["execute"])
                     (mkObject DummyWalkerModule [])])
       (bind_methods fr (dict_get_default fallback_methods name ["execute"])
                     (frames s))
       (sys_path s) (sys_modules s)
       (log s ++ [CreatingDummy name; CreatedDummy name]), Ok tt).
Proof.
  unfold create_dummy_module.
  unfold bind at 1. unfold logger at 1, modify at 1. cbn [fst snd].
  unfold bind at 1. unfold alloc at 1. cbn [fst snd].
  unfold bind at 1.
  rewrite (@dummy_loop fr _ (heap s) (mkObject DummyWalkerModule []) _)
    by (destruct s; reflexivity).
  destruct s; unfold bind, modules_setitem, logger, modify; simpl.
  rewrite <- app_assoc. reflexivity.
Qed.

Lemma last_cons_default A (x : A) l d d' :
  last (x :: l) d = last (x :: l) d'.
Proof.
  revert x. induction l as [| y l IH]; intros x; [reflexivity | ].
  change (last (y :: l) d = last (y :: l) d'). apply IH.
Qed.

Lemma bind_methods_frame fr methods fs nm mm :
  nth_error fs fr = Some (mkFrame nm mm) ->
  nth_error (bind_methods fr methods fs) fr
  = Some (mkFrame nm (last (map Some methods) mm)).
Proof.
  revert fs mm. induction methods as [| m methods IH]; intros fs mm H.
  - exact H.
  - simpl bind_methods.
    assert (H1 : nth_error (list_update fs fr
                   (fun f => mkFrame (cell_name f) (Some m))) fr
                 = Some (mkFrame nm (Some m))).
    { rewrite nth_error_list_update, Nat.eqb_refl, H. reflexivity. }
    rewrite (IH _ _ H1). f_equal. f_equal.
    destruct methods as [| m' ms]; [reflexivity | ].
    change (last (map Some (m' :: ms)) (Some m)
            = last (map Some (m' :: ms)) mm).
    apply last_cons_default.
Qed.

(** X11.  Strategy 4 never fails.  For a registered name the dummy module
    exposes exactly the names of the fallback table, and [execute_walker]
    on it, with parameters whose keys are strings, returns a [success]
    result: the function called is the default one of the walker and the
    data say [status: fallback], echo the parameters, and name the walker
    the variable [name] holds and the last method of the table, which is
    the one the loop bound last. *)
Theorem dummy_module_answers_in_fallback_mode
    (fr : nat) (name bound : string) (method_cell : option string)
    (s : State) (parameters : list (pyval * pyval))
    (kwargs : list (string * pyval)) :
  In name (keys walker_map) ->
  nth_error (frames s) fr = Some (mkFrame (Some bound) method_cell) ->
  kwargs_of parameters = Ok kwargs ->
  let s' := fst (create_dummy_module fr name s) in
  snd (create_dummy_module fr name s) = Ok tt /\
  snd (get_available_functions name s')
  = Ok (sorted (dict_get_default fallback_methods name [])) /\
  exists data,
    snd (execute_walker name (Some parameters) s')
    = Ok (success_result name (default_function name) data) /\
    field data "status" = Some (PStr "fallback") /\
    field data "walker" = Some (PStr bound) /\
    field data "method"
    = Some (PStr (last (dict_get_default fallback_methods name []) "")) /\
    field data "parameters" = Some (dict_of_kwargs kwargs).
Proof.
  intros Hin Hfr Hkw s'. subst s'. rewrite create_dummy_module_run.
  cbn [fst snd]. split; [reflexivity | ].
  set (methods := dict_get_default fallback_methods name ["execute"]).
  set (module := install_fallbacks fr methods (mkObject DummyWalkerModule [])).
  set (s' := mkState _ _ _ _ _ _).
  assert (Hm : dict_get (modules s') name = Some (length (heap s)))
    by apply dict_get_set_same.
  assert (Hh : nth_error (heap s') (length (heap s)) = Some module)
    by apply nth_error_app_last.
  assert (Hf : nth_error (frames s') fr
               = Some (mkFrame (Some bound) (last (map Some methods) method_cell)))
    by (apply bind_methods_frame; exact Hfr).
  split.
  - rewrite (get_available_functions_loaded name s' Hm Hh). cbn [snd].
    f_equal. subst module methods. clear -Hin.
    simpl in Hin.
    repeat (destruct Hin as [<- | Hin]; [vm_compute; reflexivity | ]).
    contradiction.
  - assert (Hsel : selected_function module name = Some (default_function name)
                   /\ dict_get (obj_dict module) (default_function name)
                      = Some (ACallable (FallbackMethod fr))).
    { subst module methods. clear -Hin. simpl in Hin.
      repeat (destruct Hin as [<- | Hin]; [split; reflexivity | ]).
      contradiction. }
    destruct Hsel as [Hsel Hd].
    rewrite (execute_walker_calls name (Some parameters) s' Hm Hh Hsel Hd).
    unfold params_of, call. rewrite Hkw.
    unfold fallback_method. rewrite Hf.
    assert (Hlast : last (map Some methods) method_cell
                    = Some (last (dict_get_default fallback_methods name []) "")).
    { subst methods. clear -Hin. simpl in Hin.
      repeat (destruct Hin as [<- | Hin]; [reflexivity | ]).
      contradiction. }
    rewrite Hlast. cbn [snd result_of_call].
    eexists. split; [reflexivity | ]. repeat split.
Qed.

Lemma dummy_module_answers_in_fallback_mode_witness :
  exists data,
    snd (execute_walker "evaluator" (Some [(PStr "code", PStr "x = 1")])
           (fst (create_dummy_module 0 "evaluator"
                   (with_frames [mkFrame (Some "evaluator") None] fresh))))
    = Ok (success_result "evaluator" "evaluate_code_response" data) /\
    field data "status" = Some (PStr "fallback") /\
    field data "walker" = Some (PStr "evaluator") /\
    field data "method" = Some (PStr "provide_feedback").
Proof.
  destruct (@dummy_module_answers_in_fallback_mode
              0 "evaluator" "evaluator" None
              (with_frames [mkFrame (Some "evaluator") None] fresh)
              [(PStr "code", PStr "x = 1")] [("code", PStr "x = 1")])
    as (_ & _ & data & Hrun & Hs & Hw & Hmeth & _).
  - simpl. auto.
  - reflexivity.
  - reflexivity.
  - exists data. repeat split; assumption.
Defined.

(** ** Modules that are imported already *)

Lemma load_walker_reuses fr env name module_path r s :
  dict_get (sys_modules s) module_path = Some r ->
  load_walker env fr name module_path s
  = (with_log (log s ++ [LoadedModule name])
       (with_modules (dict_set (modules s) name r) s), Ok tt).
Proof.
  intros H. unfold load_walker, try_, bind, import_module.
  rewrite H. reflexivity.
Qed.

Lemma initialize_loop_reuses env fr l s :
  (forall name module_path, In (name, module_path) l ->
     dict_in module_path (sys_modules s) = true) ->
  exists s',
    for_each l (initialize_walker env fr) s = (s', Ok tt) /\
    modules s' = reused (sys_modules s) l (modules s) /\
    heap s' = heap s /\ sys_modules s' = sys_modules s /\
    sys_path s' = sys_path s.
Proof.
  revert s. induction l as [| [name module_path] l IH]; intros s Hall.
  - exists s. repeat split.
  - destruct (dict_in_get _ _ (Hall name module_path (or_introl eq_refl)))
      as (r & Hr).
    simpl for_each. unfold bind at 1.
    unfold initialize_walker at 1. cbn [fst snd]. cbv zeta.
    unfold bind at 1. unfold bind_name at 1, modify at 1. cbn [fst snd].
    rewrite (@load_walker_reuses fr env name module_path r) by exact Hr.
    set (s1 := with_log _ _).
    destruct (IH s1) as (s' & Hrun & Hm & Hh & Hsm & Hsp).
    { intros n mp Hin. apply (Hall n mp). right. exact Hin. }
    exists s'. split; [exact Hrun | ].
    rewrite Hm, Hh, Hsm, Hsp. subst s1. simpl. rewrite Hr.
    repeat split.
Qed.

(** X12.  When every module path of [walker_map] is in [sys.modules]
    already, [__init__] returns without allocating an object and without
    touching [sys.modules] or [sys.path], whatever the environment answers,
    and the handle of every registered name is the object [sys.modules]
    holds for its path. *)
Theorem initialization_reuses_imported_modules
    (env : Env) (s0 : State) :
  (forall name module_path, In (name, module_path) walker_map ->
     dict_in module_path (sys_modules s0) = true) ->
  exists s,
    __init__ env s0 = (s, Ok tt) /\
    heap s = heap s0 /\ sys_modules s = sys_modules s0 /\
    sys_path s = sys_path s0 /\
    forall name module_path, In (name, module_path) walker_map ->
      dict_get (modules s) name = dict_get (sys_modules s0) module_path.
Proof.
  intros Hall.
  assert (Hrun : __init__ env s0
                 = for_each walker_map (initialize_walker env (length (frames s0)))
                     (with_frames (frames s0 ++ [mkFrame None None])
                        (with_modules [] s0))) by reflexivity.
  destruct (@initialize_loop_reuses env (length (frames s0)) walker_map
              (with_frames (frames s0 ++ [mkFrame None None])
                 (with_modules [] s0)))
    as (s & Hs & Hm & Hh & Hsm & Hsp).
  { intros n mp Hin. apply (Hall n mp Hin). }
  exists s. rewrite Hrun. split; [exact Hs | ].
  split; [exact Hh | ]. split; [exact Hsm | ]. split; [exact Hsp | ].
  intros name module_path Hin. rewrite Hm. cbn [sys_modules with_frames with_modules modules].
  assert (H6 : forall n mp, In (n, mp) walker_map ->
             exists r, dict_get (sys_modules s0) mp = Some r).
  { intros n mp H. apply dict_in_get. apply (Hall n mp H). }
  simpl in Hin.
  destruct (H6 "orchestrator" "jac_layer.walkers.orchestrator") as (r1 & E1);
    [simpl; auto | ].
  destruct (H6 "content_curator" "jac_layer.walkers.content_curator") as (r2 & E2);
    [simpl; auto | ].
  destruct (H6 "quiz_master" "jac_layer.walkers.quiz_master") as (r3 & E3);
    [simpl; auto | ].
  destruct (H6 "evaluator" "jac_layer.walkers.evaluator") as (r4 & E4);
    [simpl; auto 6 | ].
  destruct (H6 "progress_tracker" "jac_layer.walkers.progress_tracker") as (r5 & E5);
    [simpl; auto 6 | ].
  destruct (H6 "motivator" "jac_layer.walkers.motivator") as (r6 & E6);
    [simpl; auto 7 | ].
  unfold reused. simpl fold_left.
  cbn [sys_modules with_frames with_modules modules].
  rewrite E1, E2, E3, E4, E5, E6.
  repeat (destruct Hin as [Hin | Hin];
          [inversion Hin; subst name module_path;
           first [rewrite E1 | rewrite E2 | rewrite E3
                 | rewrite E4 | rewrite E5 | rewrite E6]; reflexivity | ]).
  contradiction.
Qed.

(** A second manager constructed in the process of the complete
    deployment: its handles are the module objects of the first. *)
Lemma initialization_reuses_imported_modules_witness :
  (forall name module_path, In (name, module_path) walker_map ->
     dict_in module_path (sys_modules complete_state) = true) /\
  modules (fst (__init__ bare_env complete_state)) = modules complete_state /\
  heap (fst (__init__ bare_env complete_state)) = heap complete_state.
Proof.
  assert (H : forall name module_path, In (name, module_path) walker_map ->
     dict_in module_path (sys_modules complete_state) = true).
  { intros name module_path Hin. simpl in Hin.
    repeat (destruct Hin as [Hin | Hin];
            [inversion Hin; subst; vm_compute; reflexivity | ]).
    contradiction. }
  split; [exact H | ].
  destruct (initialization_reuses_imported_modules bare_env complete_state H)
    as (s & Hs & Hh & _).
  rewrite Hs. cbn [fst]. split; [ | exact Hh].
  assert (E : fst (__init__ bare_env complete_state) = s) by (rewrite Hs; reflexivity).
  rewrite <- E. vm_compute. reflexivity.
Defined.

(** ** One run of the loading chain *)

Lemma import_module_cases env name s :
  (exists e, import_module env name s = (s, Raise e)) \/
  (exists s1 r, import_module env name s = (s1, Ok r) /\
                modules s1 = modules s /\ log s1 = log s).
Proof.
  unfold import_module.
  destruct (dict_get (sys_modules s) name) as [r |].
  - right. exists s, r. auto.
  - destruct (find_and_exec env (sys_path s) name) as [ns | e].
    + right. eexists _, _. split; [reflexivity | ]. split; reflexivity.
    + left. exists e. reflexivity.
Qed.

Lemma load_from_source_cases env name s :
  (exists e, load_from_source env name s = (s, Raise e)) \/
  (exists ns,
     load_from_source env name s
     = (mkState (dict_set (modules s) name (length (heap s)))
                (heap s ++ [expose (namespace_dict ns)
                              (mkObject WalkerModule [])])
                (frames s) (sys_path s) (sys_modules s)
                (log s ++ [LoadedStrategy3 name]), Ok tt)).
Proof.
  destruct (os_path_exists env (os_path_join (BASE_DIR env)
              ["jac_layer"; "walkers"; name ++ ".jac"])) eqn:Hex.
  2: { left. unfold load_from_source. rewrite Hex. eexists. reflexivity. }
  destruct (read_text env (os_path_join (BASE_DIR env)
              ["jac_layer"; "walkers"; name ++ ".jac"])) as [code | e] eqn:Hread.
  2: { left. unfold load_from_source. rewrite Hex. unfold bind at 1, lift at 1.
       rewrite Hread. eexists. reflexivity. }
  destruct (exec_code env code) as [ns | e] eqn:Hexec.
  2: { left. unfold load_from_source. rewrite Hex. unfold bind at 1, lift at 1.
       rewrite Hread. unfold bind at 1, lift at 1. rewrite Hexec.
       eexists. reflexivity. }
  right. exists ns. apply (load_from_source_run env name s Hex Hread Hexec).
Qed.

Lemma install_fallbacks_class fr methods o :
  obj_cls (install_fallbacks fr methods o) = obj_cls o.
Proof.
  unfold install_fallbacks. revert o.
  induction methods as [| m methods IH]; intros o; simpl; [reflexivity | ].
  rewrite IH. reflexivity.
Qed.

Lemma handle_class_fresh (m : list (string * ref)) h o f p sm l name :
  handle_class (mkState (dict_set m name (length h)) (h ++ [o]) f p sm l) name
  = Some (obj_cls o).
Proof.
  unfold handle_class. cbn [modules heap].
  rewrite dict_get_set_same, nth_error_app_last. reflexivity.
Qed.

(** The outcomes of one run of the [try] statement. *)
Lemma load_walker_attempt
    (env : Env) (fr : nat) (name module_path : string) (s : State) :
  exists s' o l,
    load_walker env fr name module_path s = (s', o) /\
    log s' = (log s ++ l)%list /\
    attempt name s s' l o.
Proof.
  unfold load_walker. unfold try_ at 1. unfold bind at 1.
  destruct (import_module_cases env module_path s)
    as [(e & Hrun) | (s1 & r & Hrun & Hm & Hl)]; rewrite Hrun.
  - (* strategy 1 raised *)
    cbn [dispatch fst snd].
    destruct (isinstance_ImportError e) eqn:E1.
    + unfold bind at 1. unfold logger at 1, modify at 1.
      set (s1 := with_log (log s ++ [Strategy1Failed name e]) s).
      unfold try_ at 1. unfold import_by_name. unfold bind at 1.
      unfold modify at 1.
      set (s2 := if existsb _ _ then s1 else _).
      assert (H2 : modules s2 = modules s /\
                   log s2 = (log s ++ [Strategy1Failed name e])%list).
      { subst s2. destruct (existsb _ _); split; reflexivity. }
      destruct H2 as [Hm2 Hl2]. clearbody s2. clear s1.
      unfold bind at 1.
      destruct (import_module_cases env name s2)
        as [(e2 & Hrun2) | (s3 & r & Hrun2 & Hm3 & Hl3)]; rewrite Hrun2.
      * (* strategy 2 raised *)
        cbn [dispatch fst snd].
        destruct (isinstance_ImportError e2) eqn:E2.
        -- unfold bind at 1. unfold logger at 1, modify at 1.
           unfold try_ at 1.
           set (s3 := with_log (log s2 ++ [Strategy2Failed name e2]) s2).
           destruct (load_from_source_cases env name s3)
             as [(e3 & Hrun3) | (ns & Hrun3)]; rewrite Hrun3.
           ++ (* strategy 3 raised *)
              cbn [dispatch].
              destruct (isinstance_Exception e3) eqn:X3.
              ** unfold bind at 1. unfold logger at 1, modify at 1.
                 rewrite create_dummy_module_run.
                 eexists _, _, _. split; [reflexivity | ]. split.
                 --- cbn [log with_log]. subst s3. cbn [log with_log].
                     rewrite Hl2, <- !app_assoc. reflexivity.
                 --- eapply by_dummy; [exact E1 | exact E2 | exact X3 | ].
                     rewrite handle_class_fresh. f_equal.
                     apply install_fallbacks_class.
              ** exists s3, (Raise e3),
                   [Strategy1Failed name e; Strategy2Failed name e2].
                 split; [reflexivity | ]. split.
                 --- subst s3. cbn [log with_log].
                     rewrite Hl2, <- app_assoc. reflexivity.
                 --- eapply interrupted_source;
                       [exact E1 | exact E2 | exact X3 | exact Hm2].
           ++ eexists _, _, _. split; [reflexivity | ]. split.
              ** cbn [log]. subst s3. cbn [log with_log].
                 rewrite Hl2, <- !app_assoc. reflexivity.
              ** eapply by_source; [exact E1 | exact E2 | ].
                 rewrite handle_class_fresh. f_equal.
                 apply expose_class.
        -- exists s2, (Raise e2), [Strategy1Failed name e].
           split; [reflexivity | ]. split.
           ++ exact Hl2.
           ++ eapply escaped; [exact E1 | exact E2 | exact Hm2].
      * unfold bind at 1. unfold modules_setitem at 1, modify at 1.
        unfold logger, modify.
        eexists _, _, _. split; [reflexivity | ]. split.
        -- cbn [log with_log with_modules].
           rewrite Hl3, Hl2, <- app_assoc. reflexivity.
        -- eapply by_bare_name; [exact E1 | ].
           cbn [modules with_log with_modules]. apply dict_get_set_same.
    + destruct (isinstance_Exception e) eqn:X1.
      * unfold logger, modify.
        eexists _, _, [UnexpectedError name e].
        split; [reflexivity | ]. split; [reflexivity | ].
        eapply unexpected; [exact E1 | exact X1 | reflexivity].
      * exists s, (Raise e), []. split; [reflexivity | ].
        split; [rewrite app_nil_r; reflexivity | ].
        eapply interrupted; [exact X1 | reflexivity].
  - unfold bind at 1. unfold modules_setitem at 1, modify at 1.
    unfold logger, modify.
    eexists _, _, [LoadedModule name]. split; [reflexivity | ]. split.
    + cbn [log with_log with_modules]. rewrite Hl. reflexivity.
    + eapply by_import.
      cbn [modules with_log with_modules]. apply dict_get_set_same.
Qed.


(** ** What [execute_walker] logs *)

Lemma call_trace_cases module n fn parameters :
  call_trace module n fn parameters = [Executing n parameters] \/
  call_trace module n fn parameters
  = [Executing n parameters; UsingFallbackFunction fn n].
Proof.
  unfold call_trace. destruct (hasattr module _); [left | right]; reflexivity.
Qed.

(** X14.  What [execute_walker] returns shows in the log.  A [success]
    result comes with the records [Executing] and [Completed], with the
    record of the fallback function between them when the default was
    missing.  An error result carries the message of an exception [e] that
    derives from [Exception] and comes with the record [ErrorExecuting],
    with the same message, and the traceback of [e] at the end, and with no
    [Completed] record.  When the call raises an exception that does not
    derive from [Exception], [execute_walker] raises it, and the log ends
    with the records written before the call. *)
Theorem execute_walker_logs_what_it_returns
    (walker_name : string) (parameters : option (list (pyval * pyval)))
    (s : State) :
  exists s' o l,
    execute_walker walker_name parameters s = (s', o) /\
    log s' = (log s ++ l)%list /\
    ((exists result,
        o = Ok result /\
        field result "status" = Some (PStr "success") /\
        success_trace walker_name (params_of parameters) l) \/
     (exists e,
        o = Ok (error_result walker_name e) /\
        isinstance_Exception e = true /\
        error_trace walker_name (params_of parameters) e l) \/
     (exists e,
        o = Raise e /\
        isinstance_Exception e = false /\
        interrupted_trace walker_name (params_of parameters) l)).
Proof.
  destruct (dict_get (modules s) walker_name) as [r |] eqn:Hm.
  2: { rewrite (execute_walker_unloaded walker_name parameters s Hm).
       eexists _, _, _. split; [reflexivity | ]. split; [reflexivity | ].
       right. left. eexists. split; [reflexivity | ].
       split; [reflexivity | ]. exists []. auto. }
  destruct (nth_error (heap s) r) as [module |] eqn:Hh.
  2: { rewrite (execute_walker_bad_reference walker_name parameters s Hm Hh).
       eexists _, _, _. split; [reflexivity | ]. split; [reflexivity | ].
       right. left. eexists. split; [reflexivity | ].
       split; [reflexivity | ]. exists []. auto. }
  destruct (selected_function module walker_name) as [fn |] eqn:Hsel.
  2: { rewrite (execute_walker_no_function_run walker_name parameters s
                  Hm Hh Hsel).
       eexists _, _, _. split; [reflexivity | ]. split; [reflexivity | ].
       right. left. eexists. split; [reflexivity | ].
       split; [reflexivity | ].
       exists [Executing walker_name (params_of parameters)]. auto. }
  destruct (selected_function_bound _ _ Hsel) as (f & Hf).
  rewrite (execute_walker_run walker_name parameters s Hm Hh Hsel Hf).
  pose proof (call_trace_cases module walker_name fn (params_of parameters))
    as Ht.
  destruct (snd (call f (params_of parameters) s)) as [v | e].
  - eexists _, _, _. split; [reflexivity | ]. split; [reflexivity | ].
    left. eexists. split; [reflexivity | ]. split; [reflexivity | ].
    destruct Ht as [-> | ->]; [left; reflexivity | right; eexists; reflexivity].
  - destruct (isinstance_Exception e) eqn:X.
    + eexists _, _, _. split; [reflexivity | ]. split; [reflexivity | ].
      right. left. exists e. split; [reflexivity | ]. split; [exact X | ].
      exists (call_trace module walker_name fn (params_of parameters)).
      split; [reflexivity | ].
      destruct Ht as [-> | ->]; [right; left; reflexivity
                               | right; right; eexists; reflexivity].
    + eexists _, _, _. split; [reflexivity | ]. split; [reflexivity | ].
      right. right. exists e. split; [reflexivity | ]. split; [exact X | ].
      destruct Ht as [-> | ->]; [left; reflexivity | right; eexists; reflexivity].
Qed.

(** ** The order of the cache *)

Lemma dict_set_set V (d : list (string * V)) k v v' :
  dict_set (dict_set d k v) k v' = dict_set d k v'.
Proof.
  induction d as [| [k' u] d IH]; simpl.
  - rewrite String.eqb_refl. reflexivity.
  - destruct (String.eqb k k') eqn:E; simpl.
    + rewrite String.eqb_refl. reflexivity.
    + rewrite E, IH. reflexivity.
Qed.

Lemma dict_in_set_other V (d : list (string * V)) k k' v :
  k' <> k -> dict_in k' (dict_set d k v) = dict_in k' d.
Proof.
  intros H. unfold dict_in. rewrite dict_get_set_other by exact H. reflexivity.
Qed.

Lemma sets_refl name s : sets name s s.
Proof. left. reflexivity. Qed.

Lemma sets_trans name a b c : sets name a b -> sets name b c -> sets name a c.
Proof.
  intros [H1 | (r1 & H1)] [H2 | (r2 & H2)].
  - left. congruence.
  - right. exists r2. congruence.
  - right. exists r1. congruence.
  - right. exists r2. rewrite H2, H1. apply dict_set_set.
Qed.

Ltac sets_prim :=
  match goal with
  | |- keeps (sets _) (modules_setitem _ ?r) =>
      intros ?; right; exists r; reflexivity
  | |- keeps (sets _) (import_module _ _) =>
      intros ?; left; apply import_module_modules
  | |- keeps (sets _) _ =>
      intros ?; left; simpl;
      repeat match goal with
             | |- context [if ?b then _ else _] => destruct b
             end;
      reflexivity
  end.

Lemma sets_initialize_walker env fr name module_path :
  keeps (sets name) (initialize_walker env fr (name, module_path)).
Proof.
  unfold initialize_walker, load_walker, import_by_name, load_from_source,
    create_dummy_module. cbn [fst snd].
  keeps_steps (sets_refl name) (@sets_trans name); sets_prim.
Qed.

Lemma adds_refl names s : adds names s s.
Proof. intros k H. left. exact H. Qed.

Lemma adds_trans names a b c :
  adds names a b -> adds names b c -> adds names a c.
Proof.
  intros Hab Hbc k H.
  destruct (Hbc k H) as [H' | H']; [apply Hab, H' | right; exact H'].
Qed.

Lemma sets_adds name names s s' :
  In name names -> sets name s s' -> adds names s s'.
Proof.
  intros Hin [H | (r & H)] k Hk; rewrite H in Hk; [left; exact Hk | ].
  destruct (string_dec k name) as [-> | Hne]; [right; exact Hin | left].
  rewrite dict_in_set_other in Hk by exact Hne. exact Hk.
Qed.

Lemma adds_initialize_loop env fr l :
  keeps (adds (keys l)) (for_each l (initialize_walker env fr)).
Proof.
  apply (keeps_for_each_in (adds_refl (keys l)) (@adds_trans (keys l))).
  intros [name module_path] Hin s.
  apply (@sets_adds name).
  - unfold keys. apply (in_map fst _ _ Hin).
  - apply sets_initialize_walker.
Qed.

Lemma cache_grows_initialize_loop env fr (l : list (string * string)) :
  keeps cache_grows (for_each l (initialize_walker env fr)).
Proof.
  apply (keeps_for_each cache_grows_refl cache_grows_trans).
  intros entry. apply cache_grows_initialize_walker.
Qed.

Lemma loaded_of_none s names :
  (forall n, In n names -> dict_in n (modules s) = false) ->
  loaded_of s names = [].
Proof.
  unfold loaded_of. induction names as [| n names IH]; intros H; simpl;
    [reflexivity | ].
  rewrite (H n (or_introl eq_refl)). apply IH.
  intros m Hm. apply H. right. exact Hm.
Qed.

Lemma dict_in_false_get V (d : list (string * V)) k :
  dict_in k d = false -> dict_get d k = None.
Proof. unfold dict_in. destruct (dict_get d k); [discriminate | reflexivity]. Qed.

Lemma initialize_loop_order env fr l s :
  NoDup (keys l) ->
  (forall n, In n (keys l) -> dict_in n (modules s) = false) ->
  keys (modules (fst (for_each l (initialize_walker env fr) s)))
  = (keys (modules s)
     ++ loaded_of (fst (for_each l (initialize_walker env fr) s)) (keys l))%list.
Proof.
  revert s. induction l as [| [name module_path] l IH]; intros s Hnd Hnew.
  - simpl. rewrite app_nil_r. reflexivity.
  - simpl keys in Hnd. inversion Hnd as [| x xs Hnotin Hnd']; subst x xs.
    pose proof (sets_initialize_walker env fr name module_path s) as Hsets.
    assert (Hrest : forall n, In n (keys l) ->
              dict_in n (modules (fst (initialize_walker env fr
                                         (name, module_path) s))) = false).
    { intros n Hn. destruct Hsets as [H | (r & H)]; rewrite H.
      - apply Hnew. right. exact Hn.
      - rewrite dict_in_set_other by (intros ->; contradiction).
        apply Hnew. right. exact Hn. }
    simpl for_each. unfold bind.
    destruct (initialize_walker env fr (name, module_path) s)
      as [s1 [[] | e]] eqn:Hrun; cbn [fst] in *.
    + pose proof (IH s1 Hnd' Hrest) as Hk.
      pose proof (adds_initialize_loop env fr l s1) as Hadds.
      pose proof (cache_grows_initialize_loop env fr l s1) as Hgrows.
      set (s' := fst (for_each l (initialize_walker env fr) s1)) in *.
      rewrite Hk. unfold loaded_of at 2. simpl filter. fold (loaded_of s' (keys l)).
      destruct Hsets as [H | (r & H)].
      * assert (Hn : dict_in name (modules s') = false).
        { destruct (dict_in name (modules s')) eqn:E; [ | reflexivity].
          destruct (Hadds name E) as [H1 | H1]; [ | contradiction].
          rewrite H, (Hnew name (or_introl eq_refl)) in H1. discriminate. }
        rewrite Hn, H. reflexivity.
      * assert (Hn : dict_in name (modules s') = true).
        { apply Hgrows. rewrite H. apply dict_in_set_same. }
        rewrite Hn, H.
        rewrite keys_dict_set_fresh
          by (apply dict_in_false_get, Hnew; left; reflexivity).
        rewrite <- app_assoc. reflexivity.
    + unfold loaded_of. simpl filter. fold (loaded_of s1 (keys l)).
      rewrite (loaded_of_none s1 (keys l) Hrest).
      destruct Hsets as [H | (r & H)]; rewrite H.
      * rewrite (Hnew name (or_introl eq_refl)), app_nil_r. reflexivity.
      * rewrite dict_in_set_same.
        apply keys_dict_set_fresh, dict_in_false_get, Hnew. left; reflexivity.
Qed.

Lemma init_order env s0 :
  keys (modules (fst (__init__ env s0)))
  = loaded_of (fst (__init__ env s0)) (keys walker_map).
Proof.
  assert (Hrun : __init__ env s0
                 = for_each walker_map (initialize_walker env (length (frames s0)))
                     (with_frames (frames s0 ++ [mkFrame None None])
                        (with_modules [] s0))) by reflexivity.
  rewrite Hrun.
  rewrite (@initialize_loop_order env (length (frames s0)) walker_map
             (with_frames (frames s0 ++ [mkFrame None None])
                (with_modules [] s0)) walker_map_keys_NoDup).
  - reflexivity.
  - intros n _. reflexivity.
Qed.

Lemma lifetime_order s0 s :
  lifetime s0 s -> keys (modules s) = loaded_of s (keys walker_map).
Proof.
  intros Hlife. unfold loaded_of.
  apply (lifetime_same_modules_step
           (fun m => keys m = filter (fun name => dict_in name m) (keys walker_map))
           (s0 := s0)); [ | exact Hlife].
  intros env s1 H. pose proof (init_order env s0) as Ho.
  rewrite H in Ho. exact Ho.
Qed.

(** X15.  In every state a manager reaches, the cache holds the loaded
    names in the order in which [walker_map] registers them, and
    [get_available_walkers] lists them in that order. *)
Theorem cache_lists_names_in_registration_order (s0 s : State) :
  lifetime s0 s ->
  keys (modules s) = loaded_of s (keys walker_map) /\
  get_available_walkers s
  = (s, Ok (map (fun name => (name, [("loaded", true)]))
                (loaded_of s (keys walker_map)))).
Proof.
  intros Hlife. pose proof (lifetime_order Hlife) as H.
  split; [exact H | ].
  unfold get_available_walkers, bind, gets, ret. cbn [fst snd].
  rewrite H. reflexivity.
Qed.

Lemma cache_lists_names_in_registration_order_witness :
  lifetime fresh mixed_state /\
  keys (modules mixed_state)
  = ["orchestrator"; "content_curator"; "evaluator"; "progress_tracker";
     "motivator"].
Proof.
  assert (Hlife : lifetime fresh mixed_state)
    by (apply life_init with (env := mixed_env); vm_compute; reflexivity).
  split; [exact Hlife | ].
  destruct (cache_lists_names_in_registration_order Hlife) as [H _].
  rewrite H. vm_compute. reflexivity.
Defined.

(** ** The report of [health_check] *)

Lemma loaded_lines_count (m : list (string * ref)) names :
  length (filter is_loaded_line
            (map (fun name => if dict_in name m then HealthLoaded name
                              else HealthNotLoaded name) names))
  = length (filter (fun name => dict_in name m) names).
Proof.
  induction names as [| n names IH]; simpl; [reflexivity | ].
  destruct (dict_in n m); simpl; rewrite IH; reflexivity.
Qed.

Lemma not_loaded_lines_count (m : list (string * ref)) names :
  length (filter is_not_loaded_line
            (map (fun name => if dict_in name m then HealthLoaded name
                              else HealthNotLoaded name) names))
  + length (filter (fun name => dict_in name m) names)
  = length names.
Proof.
  induction names as [| n names IH]; simpl; [reflexivity | ].
  destruct (dict_in n m); simpl; lia.
Qed.

(** X16.  In every state a manager reaches with at least one handle, the
    report of [health_check] agrees with itself: it returns [True], the
    first record gives the number of handles out of the number of
    registered names, one record per registered name follows, and as many
    of them say loaded as the first record counts; the others say not
    loaded. *)
Theorem health_report_agrees_with_its_count (s0 s : State) :
  lifetime s0 s -> modules s <> [] ->
  exists lines,
    health_check s
    = (with_log (log s ++ HealthCount (length (modules s)) (length walker_map)
                         :: lines)%list s,
       Ok (PBool true)) /\
    length lines = length walker_map /\
    length (filter is_loaded_line lines) = length (modules s) /\
    length (filter is_not_loaded_line lines)
    = length walker_map - length (modules s) /\
    length (modules s) <= length walker_map.
Proof.
  intros Hlife Hne. pose proof (lifetime_order Hlife) as Ho.
  rewrite health_check_run. unfold health_report.
  assert (Hpos : (0 <? length (modules s))%nat = true).
  { destruct (modules s); [contradiction | reflexivity]. }
  rewrite Hpos.
  eexists. split; [reflexivity | ].
  assert (Hlen : length (filter (fun name => dict_in name (modules s))
                           (keys walker_map)) = length (modules s)).
  { fold (loaded_of s (keys walker_map)). rewrite <- Ho. unfold keys.
    apply length_map. }
  pose proof (loaded_lines_count (modules s) (keys walker_map)) as H1.
  pose proof (not_loaded_lines_count (modules s) (keys walker_map)) as H2.
  rewrite Hlen in H1, H2.
  assert (Hk : length (keys walker_map) = length walker_map)
    by (unfold keys; apply length_map).
  rewrite Hk in H2.
  split; [rewrite length_map; exact Hk | ].
  split; [exact H1 | ]. split; lia.
Qed.

Lemma health_report_agrees_with_its_count_witness :
  lifetime fresh mixed_state /\ modules mixed_state <> [] /\
  exists lines,
    log (fst (health_check mixed_state))
    = (log mixed_state ++ HealthCount 5 6 :: lines)%list /\
    length (filter is_loaded_line lines) = 5 /\
    length (filter is_not_loaded_line lines) = 1.
Proof.
  assert (Hlife : lifetime fresh mixed_state)
    by (apply life_init with (env := mixed_env); vm_compute; reflexivity).
  assert (Hne : modules mixed_state <> []) by (vm_compute; discriminate).
  split; [exact Hlife | split; [exact Hne | ]].
  destruct (health_report_agrees_with_its_count Hlife Hne)
    as (lines & Hrun & _ & Hl & Hn & _).
  exists lines. rewrite Hrun. split; [reflexivity | ].
  split; [rewrite Hl | rewrite Hn]; vm_compute; reflexivity.
Defined.

(** ** When [__init__] raises *)

Lemma not_exception_not_import_error e :
  isinstance_Exception e = false -> isinstance_ImportError e = false.
Proof.
  intros X. destruct (isinstance_ImportError e) eqn:E; [ | reflexivity].
  rewrite (import_error_is_exception e E) in X. discriminate.
Qed.

Lemma initialize_loop_escape env fr l s :
  wp (for_each l (initialize_walker env fr))
     (fun s' o =>
        match o with
        | Ok _ => True
        | Raise e =>
            isinstance_ImportError e = false /\
            (isinstance_Exception e = true ->
             exists name e1 pre,
               In name (keys l) /\ isinstance_ImportError e1 = true /\
               log s' = (pre ++ [Strategy1Failed name e1])%list)
        end) s.
Proof.
  revert s. induction l as [| [name module_path] l IH]; intros s.
  - unfold wp. simpl. exact I.
  - simpl for_each. apply wp_bind.
    unfold initialize_walker at 1. cbn [fst snd]. cbv zeta.
    apply wp_bind. unfold wp at 1. cbn [bind_name modify fst snd].
    set (s1 := with_frames _ s).
    destruct (load_walker_attempt env fr name module_path s1)
      as (s2 & o & tr & Hrun & Hlog & Hat).
    unfold wp at 1. rewrite Hrun. cbn [fst snd].
    destruct Hat as [r Hr | e X Hm | e E X Hm | e r E Hr | e e2 E E2 Hm
                    | e e2 E E2 Hc | e e2 e3 E E2 X Hm | e e2 e3 E E2 X Hc].
    + eapply wp_conseq; [apply IH | ].
      cbn beta. intros s3 [[] | e'] H; [exact I | ].
      destruct H as [He Hx]. split; [exact He | ].
      intros X'. destruct (Hx X') as (n & e1 & pre & Hin & H1 & H2).
      exists n, e1, pre. simpl. auto.
    + split; [apply not_exception_not_import_error, X | ].
      intros X'. congruence.
    + eapply wp_conseq; [apply IH | ].
      cbn beta. intros s3 [[] | e'] H; [exact I | ].
      destruct H as [He Hx]. split; [exact He | ].
      intros X'. destruct (Hx X') as (n & e1 & pre & Hin & H1 & H2).
      exists n, e1, pre. simpl. auto.
    + eapply wp_conseq; [apply IH | ].
      cbn beta. intros s3 [[] | e'] H; [exact I | ].
      destruct H as [He Hx]. split; [exact He | ].
      intros X'. destruct (Hx X') as (n & e1 & pre & Hin & H1 & H2).
      exists n, e1, pre. simpl. auto.
    + split; [exact E2 | ]. intros _.
      exists name, e, (log s1). simpl. auto.
    + eapply wp_conseq; [apply IH | ].
      cbn beta. intros s3 [[] | e'] H; [exact I | ].
      destruct H as [He Hx]. split; [exact He | ].
      intros X'. destruct (Hx X') as (n & e1 & pre & Hin & H1 & H2).
      exists n, e1, pre. simpl. auto.
    + split; [apply not_exception_not_import_error, X | ].
      intros X'. congruence.
    + eapply wp_conseq; [apply IH | ].
      cbn beta. intros s3 [[] | e'] H; [exact I | ].
      destruct H as [He Hx]. split; [exact He | ].
      intros X'. destruct (Hx X') as (n & e1 & pre & Hin & H1 & H2).
      exists n, e1, pre. simpl. auto.
Qed.

(** X17.  [__init__] never lets an [ImportError] through, and an exception
    that derives from [Exception] leaves it from one place only: the clause
    that handles the failure of strategy 1 for a registered name, where
    strategy 2 runs and the outer [except Exception] does not apply.  The
    log then ends with the record of that failure of strategy 1. *)
Theorem initialization_lets_exceptions_through_from_strategy_2
    (env : Env) (s0 : State) (e : exn) :
  snd (__init__ env s0) = Raise e ->
  isinstance_ImportError e = false /\
  (isinstance_Exception e = true ->
   exists name e1 pre,
     In name (keys walker_map) /\ isinstance_ImportError e1 = true /\
     log (fst (__init__ env s0)) = (pre ++ [Strategy1Failed name e1])%list).
Proof.
  assert (H : wp (__init__ env)
     (fun s' o =>
        match o with
        | Ok _ => True
        | Raise e =>
            isinstance_ImportError e = false /\
            (isinstance_Exception e = true ->
             exists name e1 pre,
               In name (keys walker_map) /\ isinstance_ImportError e1 = true /\
               log s' = (pre ++ [Strategy1Failed name e1])%list)
        end) s0).
  { unfold __init__, _initialize_walkers.
    apply wp_bind. unfold wp at 1. cbn [modify fst snd].
    apply wp_bind. unfold wp at 1. cbn [new_frame fst snd].
    eapply wp_conseq; [apply (initialize_loop_escape env) | ].
    cbn beta. intros s' o H. exact H. }
  unfold wp in H. intros Hr. rewrite Hr in H. exact H.
Qed.

Lemma initialization_lets_exceptions_through_from_strategy_2_witness :
  snd (__init__ broken_env fresh)
  = Raise (mkExn SyntaxError "invalid syntax (orchestrator.py, line 1)") /\
  isinstance_ImportError
    (mkExn SyntaxError "invalid syntax (orchestrator.py, line 1)") = false /\
  log (fst (__init__ broken_env fresh))
  = [Strategy1Failed "orchestrator"
       (no_module "jac_layer.walkers.orchestrator")].
Proof.
  assert (H : snd (__init__ broken_env fresh)
    = Raise (mkExn SyntaxError "invalid syntax (orchestrator.py, line 1)"))
    by (vm_compute; reflexivity).
  split; [exact H | ].
  destruct (initialization_lets_exceptions_through_from_strategy_2
              broken_env fresh H) as [Hi _].
  split; [exact Hi | vm_compute; reflexivity].
Defined.

(** ** The defaults of the two tables *)

(** X18.  The defaults of the two table lookups are never used for a
    handle of a manager: a name that has a handle is registered, so
    [function_mapping] names its function, not [{walker_name}_execute],
    and [fallback_methods] lists its methods, the first of which is that
    function. *)
Theorem loaded_walkers_have_a_mapped_default
    (s0 s : State) (walker_name : string) (r : ref) :
  lifetime s0 s ->
  dict_get (modules s) walker_name = Some r ->
  dict_get function_mapping walker_name = Some (default_function walker_name) /\
  exists methods,
    dict_get fallback_methods walker_name = Some methods /\
    hd_error methods = Some (default_function walker_name).
Proof.
  intros Hlife Hm.
  assert (Hin : In walker_name (keys walker_map)).
  { apply (lifetime_registered_only Hlife). unfold dict_in. rewrite Hm.
    reflexivity. }
  simpl in Hin.
  repeat (destruct Hin as [<- | Hin];
          [split; [reflexivity | eexists; split; reflexivity] | ]).
  contradiction.
Qed.

Lemma loaded_walkers_have_a_mapped_default_witness :
  lifetime fresh mixed_state /\
  dict_get (modules mixed_state) "evaluator" = Some 2 /\
  dict_get function_mapping "evaluator" = Some "evaluate_code_response".
Proof.
  assert (Hlife : lifetime fresh mixed_state)
    by (apply life_init with (env := mixed_env); vm_compute; reflexivity).
  assert (Hm : dict_get (modules mixed_state) "evaluator" = Some 2)
    by (vm_compute; reflexivity).
  split; [exact Hlife | split; [exact Hm | ]].
  destruct (loaded_walkers_have_a_mapped_default "evaluator" Hlife Hm)
    as [H _].
  rewrite H. reflexivity.
Defined.

(** ** The dummy modules of a manager *)

Lemma import_module_run env n s :
  (exists e, import_module env n s = (s, Raise e)) \/
  (exists r, dict_get (sys_modules s) n = Some r /\
             import_module env n s = (s, Ok r)) \/
  (exists o, obj_cls o = PyModule /\
             import_module env n s
             = (with_sys_modules (dict_set (sys_modules s) n (length (heap s)))
                  (with_heap (heap s ++ [o]) s),
                Ok (length (heap s)))).
Proof.
  unfold import_module.
  destruct (dict_get (sys_modules s) n) as [r |].
  - right. left. exists r. auto.
  - destruct (find_and_exec env (sys_path s) n) as [ns | e].
    + right. right. eexists. split; [ | reflexivity].
      apply bind_all_class.
    + left. exists e. reflexivity.
Qed.

Lemma dict_get_set_inv V (d : list (string * V)) k v k' v' :
  dict_get (dict_set d k v) k' = Some v' ->
  (k = k' /\ v = v') \/ dict_get d k' = Some v'.
Proof.
  destruct (String.eqb_spec k' k) as [-> | Hne].
  - rewrite dict_get_set_same. intros H. inversion H. left. auto.
  - rewrite dict_get_set_other by exact Hne. auto.
Qed.

Lemma nth_error_valid A (h : list A) r x :
  nth_error h r = Some x -> r < length h.
Proof. intros H. apply nth_error_Some. congruence. Qed.

Lemma dummies_same fr s s' :
  same_objects s s' -> dummies_of fr s -> dummies_of fr s'.
Proof.
  intros (Hm & Hh & Hs & Hf) (Hv & Hsys & Hfr & Hd).
  unfold dummies_of, refs_valid, sys_modules_hold_modules.
  rewrite Hm, Hh, Hs, Hf.
  split; [exact Hv | split; [exact Hsys | split; [exact Hfr | exact Hd]]].
Qed.

Lemma dummies_alloc fr s o :
  dummies_of fr s -> dummies_of fr (with_heap (heap s ++ [o]) s).
Proof.
  intros (Hv & Hsys & Hfr & Hd). split; [apply refs_valid_alloc, Hv | ].
  split; [ | split; [exact Hfr | ]].
  - intros k r Hk. cbn [sys_modules with_heap] in Hk. cbn [heap with_heap].
    destruct (Hsys k r Hk) as (o' & Ho' & Hc). exists o'.
    split; [ | exact Hc].
    rewrite nth_error_app1 by (apply (nth_error_valid _ _ Ho')). exact Ho'.
  - intros name r o' Hm Hh Hc. cbn [modules with_heap] in Hm.
    cbn [heap with_heap] in Hh. cbn [frames with_heap].
    rewrite nth_error_app1 in Hh by (apply (proj1 Hv name r Hm)).
    apply (Hd name r o' Hm Hh Hc).
Qed.

Lemma dummies_set_sys_module fr s n r o :
  nth_error (heap s) r = Some o -> obj_cls o = PyModule ->
  dummies_of fr s ->
  dummies_of fr (with_sys_modules (dict_set (sys_modules s) n r) s).
Proof.
  intros Ho Hc (Hv & Hsys & Hfr & Hd).
  split; [ | split; [ | split; [exact Hfr | exact Hd]]].
  - split; [apply Hv | ].
    intros k r' Hk. cbn [sys_modules with_sys_modules] in Hk.
    cbn [heap with_sys_modules].
    destruct (dict_get_set_inv _ _ _ _ Hk) as [[_ <-] | Hk'].
    + apply (nth_error_valid _ _ Ho).
    + apply (proj2 Hv k r' Hk').
  - intros k r' Hk. cbn [sys_modules with_sys_modules] in Hk.
    cbn [heap with_sys_modules].
    destruct (dict_get_set_inv _ _ _ _ Hk) as [[_ <-] | Hk'].
    + exists o. auto.
    + apply (Hsys k r' Hk').
Qed.

Lemma dummies_set_handle fr s name r o :
  nth_error (heap s) r = Some o -> obj_cls o <> DummyWalkerModule ->
  dummies_of fr s ->
  dummies_of fr (with_modules (dict_set (modules s) name r) s).
Proof.
  intros Ho Hc (Hv & Hsys & Hfr & Hd).
  split; [apply refs_valid_setitem; [apply (nth_error_valid _ _ Ho) | exact Hv] | ].
  split; [exact Hsys | split; [exact Hfr | ]].
  intros name' r' o' Hm Hh Hc'. cbn [modules with_modules] in Hm.
  cbn [heap with_modules] in Hh. cbn [frames with_modules].
  destruct (dict_get_set_inv _ _ _ _ Hm) as [[_ <-] | Hm'].
  - rewrite Ho in Hh. inversion Hh; subst o'. contradiction.
  - apply (Hd name' r' o' Hm' Hh Hc').
Qed.

Lemma last_some (methods : list string) mm :
  methods <> [] -> exists m, last (map Some methods) mm = Some m.
Proof.
  induction methods as [| m methods IH]; intros H; [contradiction | ].
  destruct methods as [| m' ms]; [exists m; reflexivity | ].
  apply IH. discriminate.
Qed.

Lemma fallback_table_not_empty name :
  dict_get_default fallback_methods name ["execute"] <> [].
Proof.
  unfold dict_get_default. simpl.
  repeat match goal with
         | |- context [if ?b then _ else _] => destruct b; [discriminate | ]
         end.
  discriminate.
Qed.

(** The state strategy 4 leaves. *)
Lemma dummies_set_dummy fr s name l p :
  dummies_of fr s ->
  dummies_of fr
    (mkState (dict_set (modules s) name (length (heap s)))
             (heap s ++ [dummy_object fr name])
             (bind_methods fr
                (dict_get_default fallback_methods name ["execute"])
                (frames s))
             p (sys_modules s) l).
Proof.
  intros (Hv & Hsys & (nm & mm & Hfr) & Hd).
  pose proof (bind_methods_frame fr
                (dict_get_default fallback_methods name ["execute"])
                (frames s) Hfr) as Hfr'.
  destruct (@last_some (dict_get_default fallback_methods name ["execute"]) mm
              (fallback_table_not_empty name)) as (m' & Hm').
  rewrite Hm' in Hfr'.
  split; [ | split; [ | split]].
  - split.
    + intros k r Hk. cbn [modules heap] in *. rewrite length_app. simpl.
      destruct (dict_get_set_inv _ _ _ _ Hk) as [[_ <-] | Hk']; [lia | ].
      pose proof (proj1 Hv k r Hk'). lia.
    + intros k r Hk. cbn [sys_modules heap] in *. rewrite length_app. simpl.
      pose proof (proj2 Hv k r Hk). lia.
  - intros k r Hk. cbn [sys_modules heap] in *.
    destruct (Hsys k r Hk) as (o' & Ho' & Hc). exists o'.
    split; [ | exact Hc].
    rewrite nth_error_app1 by (apply (nth_error_valid _ _ Ho')). exact Ho'.
  - cbn [frames]. eauto.
  - intros name' r o Hm Hh Hc. cbn [modules heap frames] in *.
    split; [ | eauto].
    destruct (dict_get_set_inv _ _ _ _ Hm) as [[<- <-] | Hold].
    + rewrite nth_error_app2, Nat.sub_diag in Hh by lia.
      inversion Hh. reflexivity.
    + rewrite nth_error_app1 in Hh by (apply (proj1 Hv name' r Hold)).
      apply (Hd name' r o Hold Hh Hc).
Qed.

(** The state strategy 3 leaves. *)
Lemma dummies_set_source fr s name o l :
  obj_cls o = WalkerModule ->
  dummies_of fr s ->
  dummies_of fr
    (mkState (dict_set (modules s) name (length (heap s)))
             (heap s ++ [o]) (frames s) (sys_path s) (sys_modules s) l).
Proof.
  intros Hc Hd.
  apply (@dummies_same fr
           (with_modules (dict_set (modules s) name (length (heap s)))
              (with_heap (heap s ++ [o]) s))).
  - repeat split.
  - apply (@dummies_set_handle fr (with_heap (heap s ++ [o]) s) name
             (length (heap s)) o).
    + cbn [heap with_heap]. rewrite nth_error_app2, Nat.sub_diag by lia.
      reflexivity.
    + rewrite Hc. discriminate.
    + apply dummies_alloc. exact Hd.
Qed.

(** An import that returns, followed by the assignment to the cache. *)
Lemma dummies_import_and_set env fr s n name s1 r :
  import_module env n s = (s1, Ok r) ->
  dummies_of fr s ->
  dummies_of fr (with_modules (dict_set (modules s1) name r) s1).
Proof.
  intros Hrun Hd.
  destruct (import_module_run env n s)
    as [(e & H) | [(r' & Hr' & H) | (o & Hc & H)]];
    rewrite H in Hrun; inversion Hrun; subst s1 r; clear Hrun.
  - destruct Hd as (Hv & Hsys & Hfr & Hd).
    destruct (Hsys n r' Hr') as (o & Ho & Hc).
    apply (@dummies_set_handle fr s name r' o Ho);
      [rewrite Hc; discriminate | ].
    split; [exact Hv | split; [exact Hsys | split; [exact Hfr | exact Hd]]].
  - apply (@dummies_set_handle fr
             (with_sys_modules (dict_set (sys_modules s) n (length (heap s)))
                (with_heap (heap s ++ [o]) s))
             name (length (heap s)) o).
    + cbn [heap with_heap with_sys_modules].
      rewrite nth_error_app2, Nat.sub_diag by lia. reflexivity.
    + rewrite Hc. discriminate.
    + apply (@dummies_set_sys_module fr (with_heap (heap s ++ [o]) s) n
               (length (heap s)) o).
      * cbn [heap with_heap].
        rewrite nth_error_app2, Nat.sub_diag by lia. reflexivity.
      * exact Hc.
      * apply dummies_alloc. exact Hd.
Qed.

Lemma import_module_raise_state env n s s1 e :
  import_module env n s = (s1, Raise e) -> s1 = s.
Proof.
  intros Hrun.
  destruct (import_module_run env n s)
    as [(e' & H) | [(r' & Hr' & H) | (o & Hc & H)]];
    rewrite H in Hrun; inversion Hrun; reflexivity.
Qed.

Lemma dummies_load_walker env fr name module_path s :
  dummies_of fr s ->
  dummies_of fr (fst (load_walker env fr name module_path s)).
Proof.
  intros Hd.
  unfold load_walker. unfold try_ at 1. unfold bind at 1.
  destruct (import_module env module_path s) as [s1 [r | e]] eqn:Hrun.
  - unfold bind, modules_setitem, logger, modify. cbn [fst snd].
    apply (@dummies_same fr (with_modules (dict_set (modules s1) name r) s1));
      [repeat split | ].
    apply (@dummies_import_and_set _ _ _ _ name _ _ Hrun Hd).
  - rewrite (@import_module_raise_state _ _ _ _ _ Hrun). clear Hrun s1.
    cbn [dispatch fst snd].
    destruct (isinstance_ImportError e).
    + unfold bind at 1. unfold logger at 1, modify at 1.
      unfold try_ at 1. unfold import_by_name. unfold bind at 1.
      unfold modify at 1.
      set (s2 := if existsb _ _ then _ else _).
      assert (H2 : dummies_of fr s2).
      { apply (@dummies_same fr s); [ | exact Hd].
        subst s2. destruct (existsb _ _); repeat split. }
      clearbody s2.
      unfold bind at 1.
      destruct (import_module env name s2) as [s3 [r | e2]] eqn:Hrun2.
      * unfold bind, modules_setitem, logger, modify. cbn [fst snd].
        apply (@dummies_same fr
                 (with_modules (dict_set (modules s3) name r) s3));
          [repeat split | ].
        apply (@dummies_import_and_set _ _ _ _ name _ _ Hrun2 H2).
      * rewrite (@import_module_raise_state _ _ _ _ _ Hrun2). clear Hrun2 s3.
        cbn [dispatch fst snd].
        destruct (isinstance_ImportError e2); [ | exact H2].
        unfold bind at 1. unfold logger at 1, modify at 1.
        unfold try_ at 1.
        set (s3 := with_log _ s2).
        assert (H3 : dummies_of fr s3)
          by (apply (@dummies_same fr s2); [repeat split | exact H2]).
        clearbody s3.
        destruct (load_from_source_cases env name s3)
          as [(e3 & Hrun3) | (ns & Hrun3)]; rewrite Hrun3.
        -- cbn [dispatch].
           destruct (isinstance_Exception e3); [ | exact H3].
           unfold bind at 1. unfold logger at 1, modify at 1.
           rewrite create_dummy_module_run. cbn [fst].
           apply (@dummies_set_dummy fr
                    (with_log (log s3 ++ [Strategy3Failed name e3]) s3)).
           apply (@dummies_same fr s3); [repeat split | exact H3].
        -- cbn [fst]. apply dummies_set_source; [apply expose_class | exact H3].
    + destruct (isinstance_Exception e); [ | exact Hd].
      unfold logger, modify. cbn [fst].
      apply (@dummies_same fr s); [repeat split | exact Hd].
Qed.

Lemma dummies_bind_name fr name s :
  dummies_of fr s ->
  dummies_of fr
    (with_frames
       (list_update (frames s) fr
          (fun f => mkFrame (Some name) (cell_method_name f))) s).
Proof.
  intros (Hv & Hsys & (nm & mm & Hfr) & Hd).
  assert (Hnew : nth_error (list_update (frames s) fr
                   (fun f => mkFrame (Some name) (cell_method_name f))) fr
                 = Some (mkFrame (Some name) mm)).
  { rewrite nth_error_list_update, Nat.eqb_refl, Hfr. reflexivity. }
  split; [exact Hv | split; [exact Hsys | split]].
  - cbn [frames with_frames]. eauto.
  - intros name' r o Hm Hh Hc. cbn [modules heap frames with_frames] in *.
    destruct (Hd name' r o Hm Hh Hc) as (Ho & nm' & m & Hf).
    split; [exact Ho | ].
    rewrite Hfr in Hf. inversion Hf; subst nm' mm. eauto.
Qed.

Lemma dummies_initialize_loop env fr l s :
  dummies_of fr s ->
  dummies_of fr (fst (for_each l (initialize_walker env fr) s)).
Proof.
  revert s. induction l as [| [name module_path] l IH]; intros s Hd.
  - exact Hd.
  - simpl for_each. unfold bind at 1.
    unfold initialize_walker at 1. cbn [fst snd]. cbv zeta.
    unfold bind at 1. unfold bind_name at 1, modify at 1.
    pose proof (dummies_load_walker env name module_path
                  (dummies_bind_name name Hd)) as H1.
    destruct (load_walker env fr name module_path _) as [s1 [[] | e]];
      cbn [fst] in *; [apply IH, H1 | exact H1].
Qed.

Lemma sys_modules_hold_valid s :
  sys_modules_hold_modules s -> sys_modules_valid s.
Proof.
  intros H k r Hk. destruct (H k r Hk) as (o & Ho & _).
  apply (nth_error_valid _ _ Ho).
Qed.

Lemma dummies_init env s0 :
  sys_modules_hold_modules s0 ->
  dummies_of (length (frames s0)) (fst (__init__ env s0)).
Proof.
  intros Hs.
  assert (Hrun : __init__ env s0
                 = for_each walker_map
                     (initialize_walker env (length (frames s0)))
                     (with_frames (frames s0 ++ [mkFrame None None])
                        (with_modules [] s0))) by reflexivity.
  rewrite Hrun. apply dummies_initialize_loop.
  split; [ | split; [exact Hs | split]].
  - split; [intros k r H; discriminate H | ].
    apply (sys_modules_hold_valid Hs).
  - exists None, None. cbn [frames with_frames with_modules].
    rewrite nth_error_app2, Nat.sub_diag by lia. reflexivity.
  - intros name r o H. discriminate H.
Qed.

Lemma same_objects_refl s : same_objects s s.
Proof. repeat split. Qed.

Lemma same_objects_trans a b c :
  same_objects a b -> same_objects b c -> same_objects a c.
Proof.
  intros (H1 & H2 & H3 & H4) (H5 & H6 & H7 & H8).
  repeat split; congruence.
Qed.

Ltac same_objects_prim :=
  match goal with
  | |- keeps same_objects (call _ _) =>
      intros ?; rewrite call_state; apply same_objects_refl
  | |- keeps same_objects (deref _) =>
      intros ?; rewrite deref_state; apply same_objects_refl
  | |- keeps same_objects (getattr _ _) =>
      intros ?; rewrite getattr_state; apply same_objects_refl
  | |- keeps same_objects _ =>
      intros ?; repeat split
  end.

Lemma same_objects_execute_walker n p : keeps same_objects (execute_walker n p).
Proof.
  unfold execute_walker.
  keeps_steps same_objects_refl same_objects_trans; same_objects_prim.
Qed.

Lemma same_objects_get_walker_module n :
  keeps same_objects (get_walker_module n).
Proof.
  unfold get_walker_module.
  keeps_steps same_objects_refl same_objects_trans; same_objects_prim.
Qed.

Lemma same_objects_get_available_functions n :
  keeps same_objects (get_available_functions n).
Proof.
  unfold get_available_functions.
  keeps_steps same_objects_refl same_objects_trans; same_objects_prim.
Qed.

Lemma same_objects_get_available_walkers :
  keeps same_objects get_available_walkers.
Proof.
  unfold get_available_walkers.
  keeps_steps same_objects_refl same_objects_trans; same_objects_prim.
Qed.

Lemma same_objects_health_check : keeps same_objects health_check.
Proof.
  unfold health_check.
  keeps_steps same_objects_refl same_objects_trans; same_objects_prim.
Qed.

Lemma frames_reload_walkers env s :
  frames (fst (reload_walkers env s)) = frames s.
Proof.
  assert (H : keeps (fun s s' => frames s' = frames s) (reload_walkers env)).
  { unfold reload_walkers, reload_item, importlib_reload.
    keeps_steps (fun s : State => eq_refl (frames s))
                (fun (a b c : State) (H1 : frames b = frames a)
                     (H2 : frames c = frames b) => eq_trans H2 H1).
    all: intros ?; unfold deref; simpl;
         repeat match goal with
                | |- context [match ?x with _ => _ end] => destruct x
                | |- context [let (_, _) := ?x in _] => destruct x
                end; reflexivity. }
  apply H.
Qed.

Lemma dummies_reload_walkers env fr s :
  dummies_of fr s -> dummies_of fr (fst (reload_walkers env s)).
Proof.
  intros (Hv & Hsys & Hfr & Hd).
  pose proof (entries_kept_reload_walkers env s) as [Hm Hobj].
  pose proof (same_shape_reload_walkers env s) as (_ & Hsm & Hlen).
  pose proof (frames_reload_walkers env s) as Hf.
  set (s' := fst (reload_walkers env s)) in *.
  split; [ | split; [ | split]].
  - split.
    + intros k r Hk. rewrite Hm in Hk. rewrite Hlen. apply (proj1 Hv k r Hk).
    + intros k r Hk. rewrite Hsm in Hk. rewrite Hlen. apply (proj2 Hv k r Hk).
  - intros k r Hk. rewrite Hsm in Hk.
    destruct (Hsys k r Hk) as (o & Ho & Hc).
    destruct (Hobj r o Ho) as (o' & Ho' & Hc' & _).
    exists o'. split; [exact Ho' | congruence].
  - rewrite Hf. exact Hfr.
  - intros name r o' Hk Ho' Hc'. rewrite Hm in Hk. rewrite Hf.
    destruct (nth_error (heap s) r) as [o |] eqn:Ho.
    + destruct (Hobj r o Ho) as (o'' & Ho'' & Hc'' & Heq).
      rewrite Ho' in Ho''. inversion Ho''; subst o''.
      assert (Hne : obj_cls o <> PyModule) by (rewrite <- Hc'', Hc'; discriminate).
      rewrite (Heq Hne) in *. apply (Hd name r o Hk Ho Hc').
    + apply nth_error_None in Ho. pose proof (proj1 Hv name r Hk). lia.
Qed.

Lemma lifetime_dummies s0 s :
  sys_modules_hold_modules s0 -> lifetime s0 s ->
  dummies_of (length (frames s0)) s.
Proof.
  intros Hs.
  induction 1 as [env s Hi | n s _ IH | n s _ IH | n p s _ IH | s _ IH
                 | env s _ IH | s _ IH].
  - pose proof (dummies_init env Hs) as H. rewrite Hi in H. exact H.
  - apply (dummies_same (same_objects_get_walker_module n s) IH).
  - apply (dummies_same (same_objects_get_available_functions n s) IH).
  - apply (dummies_same (same_objects_execute_walker n p s) IH).
  - apply (dummies_same (same_objects_get_available_walkers s) IH).
  - apply dummies_reload_walkers, IH.
  - apply (dummies_same (same_objects_health_check s) IH).
Qed.

(** What [execute_walker] finds on the dummy module of a registered
    name. *)
Lemma dummy_object_default fr name :
  In name (keys walker_map) ->
  selected_function (dummy_object fr name) name = Some (default_function name) /\
  dict_get (obj_dict (dummy_object fr name)) (default_function name)
  = Some (ACallable (FallbackMethod fr)).
Proof.
  intros Hin. simpl in Hin.
  repeat (destruct Hin as [<- | Hin]; [split; reflexivity | ]).
  contradiction.
Qed.

(** X5.  A call of [execute_walker] that goes through a dummy module of
    the cache reports the walker [motivator], whatever name the dummy module
    was made for and whenever the call is made after the manager has been
    constructed.  A dummy module of the cache is the one strategy 4 has made
    for its name; without a function name [execute_walker] selects the
    mapped function of the name, which is the first fallback method; the
    methods of all dummy modules share the variables of the one run of
    [_initialize_walkers], whose loop binds [name] last to [motivator].  The
    call succeeds, the result data have the status [fallback] and the
    keyword arguments are echoed as they are. *)
Theorem fallback_methods_report_the_last_walker
    (s0 s : State) (walker_name : string)
    (parameters : list (pyval * pyval)) (kwargs : list (string * pyval)) :
  sys_modules_hold_modules s0 ->
  lifetime s0 s ->
  handle_class s walker_name = Some DummyWalkerModule ->
  kwargs_of parameters = Ok kwargs ->
  exists s' data,
    execute_walker walker_name (Some parameters) s
    = (s', Ok (success_result walker_name (default_function walker_name) data)) /\
    field data "status" = Some (PStr "fallback") /\
    field data "walker" = Some (PStr "motivator") /\
    field data "message"
    = Some (PStr "Walker motivator is running in fallback mode") /\
    field data "parameters" = Some (dict_of_kwargs kwargs).
Proof.
  intros Hs Hlife Hc Hkw.
  destruct (lifetime_dummies Hs Hlife) as (_ & _ & _ & Hd).
  pose proof (lifetime_last_name Hlife) as Hn.
  unfold handle_class in Hc.
  destruct (dict_get (modules s) walker_name) as [r |] eqn:Hm; [ | discriminate].
  destruct (nth_error (heap s) r) as [o |] eqn:Hh; [ | discriminate].
  simpl in Hc. inversion Hc as [Hcls].
  destruct (Hd walker_name r o Hm Hh Hcls) as (Ho & nm & m & Hf).
  assert (Hreg : In walker_name (keys walker_map)).
  { apply (lifetime_registered_only Hlife). unfold dict_in. rewrite Hm.
    reflexivity. }
  destruct (dummy_object_default (length (frames s0)) Hreg) as [Hsel Hattr].
  rewrite <- Ho in Hsel, Hattr.
  rewrite (execute_walker_run walker_name (Some parameters) s Hm Hh Hsel Hattr).
  rewrite nth_error_map, Hf in Hn. simpl in Hn. inversion Hn; subst nm.
  unfold params_of, call. rewrite Hkw.
  unfold fallback_method. rewrite Hf. cbn [snd].
  eexists _, _. split; [reflexivity | ]. repeat split.
Qed.

Lemma fallback_methods_report_the_last_walker_witness :
  sys_modules_hold_modules fresh /\
  lifetime fresh bare_state /\
  handle_class bare_state "orchestrator" = Some DummyWalkerModule /\
  exists s' data,
    execute_walker "orchestrator" (Some [(PStr "x", PInt 1)]) bare_state
    = (s', Ok (success_result "orchestrator" "init_user_graph" data)) /\
    field data "walker" = Some (PStr "motivator") /\
    field data "parameters" = Some (PDict [(PStr "x", PInt 1)]).
Proof.
  assert (Hs : sys_modules_hold_modules fresh)
    by (intros k r H; discriminate H).
  assert (Hlife : lifetime fresh bare_state)
    by (apply life_init with (env := bare_env); vm_compute; reflexivity).
  assert (Hc : handle_class bare_state "orchestrator" = Some DummyWalkerModule)
    by (vm_compute; reflexivity).
  split; [exact Hs | split; [exact Hlife | split; [exact Hc | ]]].
  destruct (@fallback_methods_report_the_last_walker
              fresh bare_state "orchestrator"
              [(PStr "x", PInt 1)] [("x", PInt 1)] Hs Hlife Hc eq_refl)
    as (s' & data & Hrun & _ & Hw & _ & Hp).
  exists s', data. split; [exact Hrun | split; [exact Hw | exact Hp]].
Defined.
